(** * NAT instances: the four Step Functions workflows

    A shallow embedding of the state machines that
    [src/stacks/NatInstances.ts] assembles from the task builders of
    [src/constructs/StepFunctions.ts], together with an executable
    interpreter of the step graph, and the properties of the Failover,
    ReplaceInstance, Fallback and Maintenance workflows.

    The CDK code is a program that builds a step graph; the graph is
    the object that runs.  Each [create...StateMachine] method becomes
    a definition that returns the graph it builds (state ids, JSON
    paths, parameters, result selectors, result paths, catches and
    transitions as written), and [exec] runs a graph against the
    providers, which are an arbitrary function of the history. *)

From Stdlib Require Import List String ZArith Bool Arith Lia.
Import ListNotations.
Local Open Scope string_scope.
Local Open Scope list_scope.
Local Open Scope nat_scope.

Set Warnings "-register-all".

(** ** JSON documents *)

Inductive json : Type :=
| JNull
| JBool (b : bool)
| JNum (n : Z)
| JStr (s : string)
| JArr (l : list json)
| JObj (o : list (string * json)).

Fixpoint json_eqb (a b : json) {struct a} : bool :=
  match a, b with
  | JNull, JNull => true
  | JBool x, JBool y => Bool.eqb x y
  | JNum x, JNum y => Z.eqb x y
  | JStr x, JStr y => String.eqb x y
  | JArr xs, JArr ys =>
      (fix go (xs ys : list json) {struct xs} : bool :=
         match xs, ys with
         | [], [] => true
         | x :: xs', y :: ys' => json_eqb x y && go xs' ys'
         | _, _ => false
         end) xs ys
  | JObj xs, JObj ys =>
      (fix go (xs ys : list (string * json)) {struct xs} : bool :=
         match xs, ys with
         | [], [] => true
         | (k, x) :: xs', (k', y) :: ys' =>
             String.eqb k k' && json_eqb x y && go xs' ys'
         | _, _ => false
         end) xs ys
  | _, _ => false
  end.

(** Field lookup and update of an object, kept as an association list. *)
Fixpoint lookup (k : string) (o : list (string * json)) : option json :=
  match o with
  | [] => None
  | (k', v) :: o' => if String.eqb k k' then Some v else lookup k o'
  end.

Fixpoint set_key (k : string) (v : json) (o : list (string * json))
  : list (string * json) :=
  match o with
  | [] => [(k, v)]
  | (k', v') :: o' =>
      if String.eqb k k' then (k, v) :: o' else (k', v') :: set_key k v o'
  end.

(** ** JSON paths

    [$.a.b[0].c] is [[Key "a"; Key "b"; Idx 0; Key "c"]]; [$] is [[]].
    [FilterEq l r] is the filter [[?(@.l == $.r)]] of
    [createFallbackStateMachine]: it keeps the elements of an array
    whose field [l] equals the field [r] of the root document. *)

Inductive seg : Type :=
| Key (k : string)
| Idx (i : nat)
| FilterEq (l r : list string).

Definition path : Type := list seg.

Fixpoint get_keys (j : json) (ks : list string) : option json :=
  match ks with
  | [] => Some j
  | k :: ks' =>
      match j with
      | JObj o =>
          match lookup k o with
          | Some v => get_keys v ks'
          | None => None
          end
      | _ => None
      end
  end.

Definition filter_matches (root : json) (l r : list string) (e : json) : bool :=
  match get_keys e l, get_keys root r with
  | Some a, Some b => json_eqb a b
  | _, _ => false
  end.

Fixpoint get_path (root cur : json) (p : path) : option json :=
  match p with
  | [] => Some cur
  | Key k :: p' =>
      match cur with
      | JObj o =>
          match lookup k o with
          | Some v => get_path root v p'
          | None => None
          end
      | _ => None
      end
  | Idx i :: p' =>
      match cur with
      | JArr l =>
          match nth_error l i with
          | Some v => get_path root v p'
          | None => None
          end
      | _ => None
      end
  | FilterEq l r :: p' =>
      match cur with
      | JArr es => get_path root (JArr (filter (filter_matches root l r) es)) p'
      | _ => None
      end
  end.

Definition at_path (doc : json) (p : path) : option json := get_path doc doc p.

(** [resultPath]: the place of the state input where a task result is
    written.  Only object fields are written in this repository. *)
Fixpoint set_path (doc : json) (p : path) (v : json) : option json :=
  match p with
  | [] => Some v
  | Key k :: p' =>
      match doc with
      | JObj o =>
          match p' with
          | [] => Some (JObj (set_key k v o))
          | _ =>
              match lookup k o with
              | Some sub =>
                  match set_path sub p' v with
                  | Some sub' => Some (JObj (set_key k sub' o))
                  | None => None
                  end
              | None =>
                  match set_path (JObj []) p' v with
                  | Some sub' => Some (JObj (set_key k sub' o))
                  | None => None
                  end
              end
          end
      | _ => None
      end
  | _ => None
  end.

(** ** Payload templates

    What CDK renders from a [parameters] or [resultSelector] object:
    literals, [JsonPath.stringAt] references into the state input
    ([TPath]) or into the context object ([TCtx], the [$$.] paths of
    [NAT_INSTANCES_TAGS]), arrays ([JsonPath.array] and literal arrays
    with references inside) and [JsonPath.uuid()]. *)

Inductive template : Type :=
| TLit (j : json)
| TPath (p : path)
| TCtx (p : path)
| TUuid
| TArr (l : list template)
| TObj (fields : list (string * template)).

Fixpoint eval_template (ctx : json) (uuid : string) (input : json) (t : template)
  {struct t} : option json :=
  match t with
  | TLit j => Some j
  | TPath p => at_path input p
  | TCtx p => at_path ctx p
  | TUuid => Some (JStr uuid)
  | TArr l =>
      match
        (fix go (l : list template) : option (list json) :=
           match l with
           | [] => Some []
           | t' :: l' =>
               match eval_template ctx uuid input t', go l' with
               | Some v, Some vs => Some (v :: vs)
               | _, _ => None
               end
           end) l
      with
      | Some vs => Some (JArr vs)
      | None => None
      end
  | TObj fields =>
      match
        (fix go (l : list (string * template)) : option (list (string * json)) :=
           match l with
           | [] => Some []
           | (k, t') :: l' =>
               match eval_template ctx uuid input t', go l' with
               | Some v, Some vs => Some ((k, v) :: vs)
               | _, _ => None
               end
           end) fields
      with
      | Some o => Some (JObj o)
      | None => None
      end
  end.

(** ** Choice conditions ([sfn.Condition]) *)

Inductive Condition : Type :=
| isPresent (p : path)
| isNotPresent (p : path)
| stringEquals (p : path) (v : string)
| not_ (c : Condition)
| and_ (cs : list Condition)
| or_ (cs : list Condition).

(** [None] is the runtime error of a comparison whose variable does not
    resolve; [and_] and [or_] are evaluated left to right. *)
Fixpoint eval_condition (input : json) (c : Condition) {struct c} : option bool :=
  match c with
  | isPresent p =>
      Some (match at_path input p with Some _ => true | None => false end)
  | isNotPresent p =>
      Some (match at_path input p with Some _ => false | None => true end)
  | stringEquals p v =>
      match at_path input p with
      | Some (JStr s) => Some (String.eqb s v)
      | Some _ => Some false
      | None => None
      end
  | not_ c' =>
      match eval_condition input c' with
      | Some b => Some (negb b)
      | None => None
      end
  | and_ cs =>
      (fix go (cs : list Condition) : option bool :=
         match cs with
         | [] => Some true
         | c' :: cs' =>
             match eval_condition input c' with
             | Some true => go cs'
             | Some false => Some false
             | None => None
             end
         end) cs
  | or_ cs =>
      (fix go (cs : list Condition) : option bool :=
         match cs with
         | [] => Some false
         | c' :: cs' =>
             match eval_condition input c' with
             | Some false => go cs'
             | Some true => Some true
             | None => None
             end
         end) cs
  end.

(** ** Step graphs

    The states that the CDK constructs of the repository render to.
    A transition names its target state ([next]); [None] ends the
    graph.  [catch] is the target of [addCatch], which is called
    without [errors] and so catches [States.ALL]: every error but the
    [States.Runtime] error of the engine.  A [Map] carries the graph
    of its [itemProcessor], a [Parallel] the graphs of its branches,
    and a [StepFunctionsStartExecution] task the state machine it
    starts. *)

Inductive State : Type :=
| Pass (result : option json) (parameters : option template)
       (next : option string)
| Task (resource : Resource) (resultSelector : option template)
       (resultPath : option path) (taskTimeout : option nat)
       (catch : option string) (next : option string)
| Choice (choices : list (Condition * string)) (otherwise : string)
| Wait (seconds : nat) (next : option string)
| Fail (error cause : string)
| Map (inputPath itemsPath : path) (maxConcurrency : nat)
      (itemProcessor : Graph) (catch : option string) (next : option string)
| Parallel (branches : list Graph) (catch : option string)
           (next : option string)
with Resource : Type :=
| CallAwsService (service action : string) (parameters : template)
| LambdaInvoke (lambdaFunction : string) (payload : template)
| StepFunctionsStartExecution (stateMachine : StateMachine)
with Graph : Type :=
| MkGraph (startAt : string) (states : list (string * State))
with StateMachine : Type :=
| MkStateMachine (stateMachineName : string) (definitionBody : Graph)
                 (timeout : option nat).

Definition startAt (g : Graph) : string :=
  match g with MkGraph s _ => s end.
Definition states (g : Graph) : list (string * State) :=
  match g with MkGraph _ l => l end.
Definition stateMachineName (m : StateMachine) : string :=
  match m with MkStateMachine n _ _ => n end.
Definition definitionBody (m : StateMachine) : Graph :=
  match m with MkStateMachine _ g _ => g end.
Definition timeout (m : StateMachine) : option nat :=
  match m with MkStateMachine _ _ t => t end.

Fixpoint find_state (name : string) (l : list (string * State)) : option State :=
  match l with
  | [] => None
  | (n, s) :: l' => if String.eqb name n then Some s else find_state name l'
  end.

(** ** Providers, history and outcomes *)

Inductive Result : Type :=
| Ok (output : json)
| Err (error cause : string).

Inductive Call : Type :=
| AwsSdk (service action : string) (parameters : json)
| InvokeLambda (functionName : string) (payload : json).

Inductive Status : Type :=
| SUCCEEDED (output : json)
| FAILED (error cause : string)
| TIMED_OUT.

(** The execution history.  Times are seconds. *)
Inductive Event : Type :=
| StateEntered (time : nat) (state : string)
| TaskCalled (time : nat) (state : string) (call : Call) (res : Result)
| ExecutionStarted (time : nat) (machine : string)
| ExecutionEnded (time : nat) (machine : string) (status : Status).

(** [RuntimeError] is the [States.Runtime] error of the engine, with
    the state that raised it: a path of [Parameters], [ResultSelector],
    [InputPath] or [ItemsPath] that does not resolve, items that are no
    array, a [Choice] variable that does not resolve.  No catch
    handles it, [States.ALL] does not match it: the execution fails.
    [OutOfFuel] is the only outcome that is not a status of the engine:
    the interpreter was given too few steps. *)
Inductive Outcome : Type :=
| Succeeded (output : json)
| Failed (error cause : string)
| TimedOut
| OutOfFuel
| RuntimeError (state : string).

(** The world outside the workflows: what a provider answers to a call
    given everything that happened before, the identifiers the engine
    hands out, and whether a fan-out abandons the remaining items at
    the first failure or lets them finish before it fails. *)
Record Env : Type := {
  provider : list Event -> Call -> Result;
  uuid : list Event -> string;
  executionId : list Event -> string;
  failFast : bool
}.

(** What one execution knows about itself. *)
Record Execution : Type := {
  machine : string;
  id : string;
  deadline : option nat
}.

Definition context (X : Execution) (state : string) (clock : nat) : json :=
  JObj [("StateMachine", JObj [("Name", JStr (machine X))]);
        ("Execution", JObj [("Id", JStr (id X))]);
        ("State", JObj [("Name", JStr state);
                        ("EnteredTime", JNum (Z.of_nat clock))])].

Definition expired (d : option nat) (clock : nat) : bool :=
  match d with
  | Some t => Nat.leb t clock
  | None => false
  end.

Definition error_output (error cause : string) : json :=
  JObj [("Error", JStr error); ("Cause", JStr cause)].

(** The raw result of a task as [resultSelector] reshapes it; [None]
    when a path of the selector does not resolve. *)
Definition selected (ctx : json) (u : string) (raw : json)
  (resultSelector : option template) : option json :=
  match resultSelector with
  | Some t => eval_template ctx u raw t
  | None => Some raw
  end.

(** The output of a task: [resultSelector] reshapes the raw result,
    [resultPath] places it into the state input (by default it
    replaces the input). *)
Definition task_output (ctx : json) (u : string) (input raw : json)
  (resultSelector : option template) (resultPath : option path)
  : option json :=
  match
    match resultSelector with
    | Some t => eval_template ctx u raw t
    | None => Some raw
    end
  with
  | Some r =>
      match resultPath with
      | Some p => set_path input p r
      | None => Some r
      end
  | None => None
  end.

(** ** Fan-out

    The items of a [Map] and the branches of a [Parallel] are run one
    after the other in input order, which is one of the schedules the
    engine may choose; their clocks are those of a concurrent run:
    [slots] holds, for each of the [maxConcurrency] lanes, the time at
    which it becomes free, an item starts on the lane that is free
    first, and the step ends when the last lane does.

    The engine ends the step at the first item that fails.  What the
    other items have done by then depends on the schedule, of which
    [failFast] selects the two ends: with [true] the failing item is
    noticed at once and the items behind it do nothing, with [false]
    it is noticed as late as can be.  An item that ends in a runtime
    error then keeps its lane ([hold]) while the items behind it go
    on on the lanes that are left ([drain]); an item is not started
    without a lane, so that nothing runs behind [maxConcurrency]
    items that failed. *)

Definition Job : Type := list Event -> nat -> list Event * nat * Outcome.

Inductive Joined : Type :=
| AllDone (outputs : list json)
| OneFailed (error cause : string)
| Stopped (o : Outcome).

Definition earliest (slots : list nat) : nat :=
  match slots with
  | [] => 0
  | s :: rest => fold_left Nat.min rest s
  end.

Fixpoint occupy (start finish : nat) (slots : list nat) : list nat :=
  match slots with
  | [] => []
  | s :: rest =>
      if Nat.eqb s start then finish :: rest else s :: occupy start finish rest
  end.

Fixpoint hold (start : nat) (slots : list nat) : list nat :=
  match slots with
  | [] => []
  | s :: rest => if Nat.eqb s start then rest else s :: hold start rest
  end.

Definition lanes (maxConcurrency n : nat) : nat :=
  Nat.max 1 (if Nat.eqb maxConcurrency 0 then n else maxConcurrency).

Fixpoint drain (jobs : list Job) (tr : list Event) (slots : list nat)
  (clock : nat) : list Event * nat :=
  match jobs with
  | [] => (tr, clock)
  | job :: jobs' =>
      let start := earliest slots in
      match job tr start with
      | (tr', finish, Succeeded _) =>
          drain jobs' tr' (occupy start finish slots) (Nat.max clock finish)
      | (tr', finish, Failed _ _) | (tr', finish, RuntimeError _) =>
          match hold start slots with
          | [] => (tr', Nat.max clock finish)
          | free => drain jobs' tr' free (Nat.max clock finish)
          end
      | (tr', finish, _) => (tr', Nat.max clock finish)
      end
  end.

Fixpoint join (ff : bool) (jobs : list Job) (tr : list Event)
  (slots : list nat) (failure : option (string * string)) (outs : list json)
  : list Event * nat * Joined :=
  match jobs with
  | [] =>
      (tr, list_max slots,
       match failure with
       | Some (e, c) => OneFailed e c
       | None => AllDone outs
       end)
  | job :: jobs' =>
      let start := earliest slots in
      match job tr start with
      | (tr', finish, Succeeded out) =>
          join ff jobs' tr' (occupy start finish slots) failure (outs ++ [out])
      | (tr', finish, Failed e c) =>
          if ff then (tr', finish, OneFailed e c)
          else join ff jobs' tr' (occupy start finish slots)
                 (match failure with Some f => Some f | None => Some (e, c) end)
                 outs
      | (tr', finish, RuntimeError s) =>
          if ff then (tr', finish, Stopped (RuntimeError s))
          else
            match hold start slots with
            | [] => (tr', finish, Stopped (RuntimeError s))
            | free =>
                let '(tr'', finish') := drain jobs' tr' free finish in
                (tr'', finish', Stopped (RuntimeError s))
            end
      | (tr', finish, o) => (tr', finish, Stopped o)
      end
  end.

Definition fan_out (ff : bool) (maxConcurrency : nat) (jobs : list Job)
  (tr : list Event) (clock : nat) : list Event * nat * Joined :=
  join ff jobs tr (repeat clock (lanes maxConcurrency (List.length jobs))) None [].

(** The result a [RUN_JOB] start-execution task hands to its state. *)
Definition child_result (X : Execution) (out : json) : json :=
  JObj [("ExecutionArn", JStr (id X)); ("Output", out);
        ("Status", JStr "SUCCEEDED")].

(** ** The interpreter

    [step self E X g cur input tr clock] enters state [cur] of graph [g]
    with [input] at time [clock], extends the history [tr], and hands
    the rest of the run to [self]: the transition to the next state,
    the items of a [Map], the branches of a [Parallel] and the child
    execution of a start-execution task.  Provider calls take no
    time; [Wait] states and child executions do.

    An error goes to the catch of the state ([raise]) when it is the
    error of a call, of a child execution, of an item or a branch, or
    a result path that cannot be applied
    ([States.ResultPathMatchFailure]).  A path that does not resolve
    is a [RuntimeError]: the run ends there, whatever the catches of
    the state and of the states around it. *)

Definition Run : Type :=
  Execution -> list (string * State) -> string -> json ->
  list Event -> nat -> list Event * nat * Outcome.

Definition step (self : Run) (E : Env) : Run :=
  fun X g cur input tr clock =>
  if expired (deadline X) clock then (tr, clock, TimedOut) else
  match find_state cur g with
  | None => (tr, clock, RuntimeError cur)
  | Some s =>
      let ctx := context X cur clock in
      let tr0 := tr ++ [StateEntered clock cur] in
      let goto next out tr1 clock1 :=
        match next with
        | Some n => self X g n out tr1 clock1
        | None => (tr1, clock1, Succeeded out)
        end in
      let raise catch e c tr1 clock1 :=
        match catch with
        | Some h => self X g h (error_output e c) tr1 clock1
        | None => (tr1, clock1, Failed e c)
        end in
      let finish catch next raw rs rp tr1 clock1 :=
        match task_output ctx (uuid E tr) input raw rs rp with
        | Some out => goto next out tr1 clock1
        | None =>
            match selected ctx (uuid E tr) raw rs with
            | Some _ => raise catch "States.ResultPathMatchFailure" cur tr1 clock1
            | None => (tr1, clock1, RuntimeError cur)
            end
        end in
      let called catch next call wrap rs rp :=
        let res := provider E tr0 call in
        let tr1 := tr0 ++ [TaskCalled clock cur call res] in
        match res with
        | Ok raw => finish catch next (wrap raw) rs rp tr1 clock
        | Err e c => raise catch e c tr1 clock
        end in
      let joined catch next r :=
        match r with
        | (tr1, clock1, AllDone outs) => goto next (JArr outs) tr1 clock1
        | (tr1, clock1, OneFailed e c) => raise catch e c tr1 clock1
        | (tr1, clock1, Stopped o) => (tr1, clock1, o)
        end in
      match s with
      | Pass result parameters next =>
          match
            match parameters with
            | Some t => eval_template ctx (uuid E tr) input t
            | None => Some input
            end
          with
          | Some eff =>
              goto next (match result with Some r => r | None => eff end)
                   tr0 clock
          | None => (tr0, clock, RuntimeError cur)
          end
      | Task (CallAwsService service action parameters) rs rp _ catch next =>
          match eval_template ctx (uuid E tr) input parameters with
          | Some p =>
              called catch next (AwsSdk service action p) (fun raw => raw) rs rp
          | None => (tr0, clock, RuntimeError cur)
          end
      | Task (LambdaInvoke f payload) rs rp _ catch next =>
          match eval_template ctx (uuid E tr) input payload with
          | Some p =>
              called catch next (InvokeLambda f p)
                (fun raw => JObj [("Payload", raw)]) rs rp
          | None => (tr0, clock, RuntimeError cur)
          end
      | Task (StepFunctionsStartExecution child) rs rp _ catch next =>
          let X' := {| machine := stateMachineName child;
                       id := executionId E tr0;
                       deadline := option_map (Nat.add clock) (timeout child) |} in
          let name := stateMachineName child in
          match
            self X' (states (definitionBody child))
              (startAt (definitionBody child)) input
              (tr0 ++ [ExecutionStarted clock name]) clock
          with
          | (tr1, clock1, Succeeded out) =>
              finish catch next (child_result X' out) rs rp
                (tr1 ++ [ExecutionEnded clock1 name (SUCCEEDED out)]) clock1
          | (tr1, clock1, Failed e c) =>
              raise catch "States.TaskFailed" e
                (tr1 ++ [ExecutionEnded clock1 name (FAILED e c)]) clock1
          | (tr1, clock1, TimedOut) =>
              raise catch "States.TaskFailed" "States.Timeout"
                (tr1 ++ [ExecutionEnded clock1 name TIMED_OUT]) clock1
          | (tr1, clock1, OutOfFuel) => (tr1, clock1, OutOfFuel)
          | (tr1, clock1, RuntimeError s) =>
              raise catch "States.TaskFailed" "States.Runtime"
                (tr1 ++ [ExecutionEnded clock1 name (FAILED "States.Runtime" s)])
                clock1
          end
      | Choice choices otherwise =>
          (fix pick (l : list (Condition * string)) :=
             match l with
             | [] => self X g otherwise input tr0 clock
             | (c, n) :: l' =>
                 match eval_condition input c with
                 | Some true => self X g n input tr0 clock
                 | Some false => pick l'
                 | None => (tr0, clock, RuntimeError cur)
                 end
             end) choices
      | Wait seconds next =>
          match deadline X with
          | Some d =>
              if Nat.leb d (clock + seconds) then (tr0, d, TimedOut)
              else goto next input tr0 (clock + seconds)
          | None => goto next input tr0 (clock + seconds)
          end
      | Fail e c => (tr0, clock, Failed e c)
      | Map inputPath itemsPath maxConcurrency proc catch next =>
          match
            match at_path input inputPath with
            | Some eff => at_path eff itemsPath
            | None => None
            end
          with
          | Some (JArr items) =>
              joined catch next
                (fan_out (failFast E) maxConcurrency
                   (List.map
                      (fun item => self X (states proc) (startAt proc) item)
                      items)
                   tr0 clock)
          | _ => (tr0, clock, RuntimeError cur)
          end
      | Parallel branches catch next =>
          joined catch next
            (fan_out (failFast E) 0
               (List.map
                  (fun b => self X (states b) (startAt b) input)
                  branches)
               tr0 clock)
      end
  end.

(** [exec fuel E X g cur input tr clock] runs graph [g] from state [cur]
    for at most [fuel] nested steps and returns the history, the time
    and the outcome. *)
Fixpoint exec (fuel : nat) (E : Env) {struct fuel} : Run :=
  match fuel with
  | 0 => fun _ _ _ _ tr clock => (tr, clock, OutOfFuel)
  | S fuel' => step (exec fuel' E) E
  end.

(** Starting an execution of a state machine at time [clock]. *)
Definition start_execution (fuel : nat) (E : Env) (m : StateMachine)
  (input : json) (tr : list Event) (clock : nat)
  : list Event * nat * Outcome :=
  let X := {| machine := stateMachineName m;
              id := executionId E tr;
              deadline := option_map (Nat.add clock) (timeout m) |} in
  match
    exec fuel E X (states (definitionBody m)) (startAt (definitionBody m))
      input (tr ++ [ExecutionStarted clock (stateMachineName m)]) clock
  with
  | (tr1, clock1, Succeeded out) =>
      (tr1 ++ [ExecutionEnded clock1 (stateMachineName m) (SUCCEEDED out)],
       clock1, Succeeded out)
  | (tr1, clock1, Failed e c) =>
      (tr1 ++ [ExecutionEnded clock1 (stateMachineName m) (FAILED e c)],
       clock1, Failed e c)
  | (tr1, clock1, TimedOut) =>
      (tr1 ++ [ExecutionEnded clock1 (stateMachineName m) TIMED_OUT],
       clock1, TimedOut)
  | (tr1, clock1, OutOfFuel) => (tr1, clock1, OutOfFuel)
  | (tr1, clock1, RuntimeError s) =>
      (tr1 ++ [ExecutionEnded clock1 (stateMachineName m) (FAILED "States.Runtime" s)],
       clock1, RuntimeError s)
  end.

(** ** Building graphs the way CDK does

    A builder returns a named state without transitions; [next] and
    [addCatch] set them, as the [.next(...)] and [.addCatch(...)] calls
    of the stack do. *)

Definition Named : Type := string * State.

Definition next (target : Named) (s : Named) : Named :=
  (fst s,
   match snd s with
   | Pass r p _ => Pass r p (Some (fst target))
   | Task r rs rp t c _ => Task r rs rp t c (Some (fst target))
   | Wait d _ => Wait d (Some (fst target))
   | Map ip it mc proc c _ => Map ip it mc proc c (Some (fst target))
   | Parallel bs c _ => Parallel bs c (Some (fst target))
   | other => other
   end).

Definition addCatch (handler : Named) (s : Named) : Named :=
  (fst s,
   match snd s with
   | Task r rs rp t _ n => Task r rs rp t (Some (fst handler)) n
   | Map ip it mc proc _ n => Map ip it mc proc (Some (fst handler)) n
   | Parallel bs _ n => Parallel bs (Some (fst handler)) n
   | other => other
   end).

Definition when (c : Condition) (target : Named) (s : Named) : Named :=
  (fst s,
   match snd s with
   | Choice cs d => Choice (cs ++ [(c, fst target)]) d
   | other => other
   end).

Definition otherwise (target : Named) (s : Named) : Named :=
  (fst s,
   match snd s with
   | Choice cs _ => Choice cs (fst target)
   | other => other
   end).

(** A [Choice] before its [otherwise] is set has no default. *)
Definition newChoice (id : string) : Named := (id, Choice [] "").

(** ** Constants ([constants/Common]) *)

Definition NUMBER_OF_AVAILABILITY_ZONES : nat := 3.
Definition DEFAULT_TASK_TIMEOUT : option nat := Some 10.
Definition NAT_INSTANCES_NAME_TAG : string := "NAT".

Definition tag (k : string) (v : template) : template :=
  TObj [("Key", TLit (JStr k)); ("Value", v)].

Definition NAT_INSTANCES_TAGS : template :=
  TArr [tag "Name" (TLit (JStr NAT_INSTANCES_NAME_TAG));
        tag "StateMachine" (TCtx [Key "StateMachine"; Key "Name"]);
        tag "ExecutionId" (TCtx [Key "Execution"; Key "Id"]);
        tag "StateName" (TCtx [Key "State"; Key "Name"]);
        tag "StateTime" (TCtx [Key "State"; Key "EnteredTime"]);
        tag "Deploy" (TLit (JStr "Automated"));
        tag "Reason" (TLit (JStr "Maintenance"))].

Module AwsService.
Definition EC2 : string := "ec2".
Definition EVENT_BRIDGE : string := "eventbridge".
Definition IMAGE_BUILDER : string := "imagebuilder".
Definition STEP_FUNCTIONS : string := "sfn".
End AwsService.

(** ** Zone configurations ([model/Vpc]) *)

Record AzConfiguration : Type := {
  availabilityZone : string;
  publicSubnetId : string;
  natGatewayId : string;
  privateSubnetId : string;
  privateRouteTableId : string
}.

(** The object a configuration is when it is passed inside a [Pass]
    state result. *)
Definition az_json (z : AzConfiguration) : json :=
  JObj [("availabilityZone", JStr (availabilityZone z));
        ("publicSubnetId", JStr (publicSubnetId z));
        ("natGatewayId", JStr (natGatewayId z));
        ("privateSubnetId", JStr (privateSubnetId z));
        ("privateRouteTableId", JStr (privateRouteTableId z))].

(** ** Task builders ([constructs/StepFunctions.ts])

    The stack calls them through [StepFunctionsTasks].  The IAM
    statements of a task grant permissions at deployment and take no
    part in a run; they are left out, and so is the [azConfigurations]
    argument of the two route tasks, which only feeds them. *)

Module StepFunctionsTasks.

Definition getReplaceRouteWithNatGatewayTask (id : string) : Named :=
  (id,
   Task (CallAwsService AwsService.EC2 "replaceRoute"
           (TObj [("DestinationCidrBlock", TLit (JStr "0.0.0.0/0"));
                  ("NatGatewayId", TPath [Key "natGatewayId"]);
                  ("RouteTableId", TPath [Key "privateRouteTableId"])]))
        None None DEFAULT_TASK_TIMEOUT None None).

Definition getReplaceRouteWithNatInstanceTask (id : string) : Named :=
  (id,
   Task (CallAwsService AwsService.EC2 "replaceRoute"
           (TObj [("DestinationCidrBlock", TLit (JStr "0.0.0.0/0"));
                  ("InstanceId", TPath [Key "InstanceId"]);
                  ("RouteTableId",
                   TPath [Key "RouteTable"; Idx 0; Key "privateRouteTableId"])]))
        None None DEFAULT_TASK_TIMEOUT None None).

Definition getNatInstancesTask (id : string) : Named :=
  (id,
   Task (CallAwsService AwsService.EC2 "describeInstances"
           (TLit (JObj [("Filters", JArr [
              JObj [("Name", JStr "tag:Name");
                    ("Values", JArr [JStr NAT_INSTANCES_NAME_TAG])];
              JObj [("Name", JStr "tag:StateMachine");
                    ("Values", JArr [JStr "NATInstanceReplaceInstance"])];
              JObj [("Name", JStr "instance-state-name");
                    ("Values", JArr [JStr "running"])]])])))
        None (Some [Key "NatInstances"]) DEFAULT_TASK_TIMEOUT None None).

(** [getLatestImageFunction]: the Lambda function is named by its id. *)
Definition getLatestImageFunction (id : string) : string := id.

Definition getNatInstancesImageTask (id : string) (getLatestImageFunction : string)
  : Named :=
  (id,
   Task (LambdaInvoke getLatestImageFunction (TPath []))
        (Some (TObj [("ImageId", TPath [Key "Payload"])]))
        (Some [Key "Image"]) DEFAULT_TASK_TIMEOUT None None).

Definition getRunInstanceTask (id : string) (securityGroupId : string)
  (natInstanceType : string) : Named :=
  let resourcesToTag := ["instance"; "volume"; "network-interface"] in
  (id,
   Task (CallAwsService AwsService.EC2 "runInstances"
           (TObj [("ImageId", TPath [Key "Image"; Key "ImageId"]);
                  ("InstanceType", TLit (JStr natInstanceType));
                  ("MinCount", TLit (JNum 1));
                  ("MaxCount", TLit (JNum 1));
                  ("DisableApiTermination", TLit (JBool true));
                  ("TagSpecifications",
                   TArr (List.map
                           (fun resourceType =>
                              TObj [("ResourceType", TLit (JStr resourceType));
                                    ("Tags", NAT_INSTANCES_TAGS)])
                           resourcesToTag));
                  ("MetadataOptions",
                   TObj [("HttpEndpoint", TLit (JStr "disabled"))]);
                  ("NetworkInterfaces",
                   TArr [TObj [("DeviceIndex", TLit (JNum 0));
                               ("AssociatePublicIpAddress", TLit (JBool true));
                               ("DeleteOnTermination", TLit (JBool true));
                               ("SubnetId", TPath [Key "publicSubnetId"]);
                               ("Groups", TLit (JArr [JStr securityGroupId]))]])]))
        (Some (TObj [("InstanceId",
                      TPath [Key "Instances"; Idx 0; Key "InstanceId"])]))
        None DEFAULT_TASK_TIMEOUT None None).

Definition getInstanceStateTask (id : string) : Named :=
  (id,
   Task (CallAwsService AwsService.EC2 "describeInstanceStatus"
           (TObj [("InstanceIds", TArr [TPath [Key "InstanceId"]])]))
        None (Some [Key "Instance"]) DEFAULT_TASK_TIMEOUT None None).

Definition getDisableInstanceSourceDestCheckTask (id : string) : Named :=
  (id,
   Task (CallAwsService AwsService.EC2 "modifyInstanceAttribute"
           (TObj [("InstanceId", TPath [Key "InstanceId"]);
                  ("SourceDestCheck", TLit (JObj [("Value", JBool false)]))]))
        None None DEFAULT_TASK_TIMEOUT None None).

Definition getDisableInstanceTerminationProtectionTask (id : string) : Named :=
  (id,
   Task (CallAwsService AwsService.EC2 "modifyInstanceAttribute"
           (TObj [("InstanceId", TPath [Key "Instances"; Idx 0; Key "InstanceId"]);
                  ("DisableApiTermination", TLit (JObj [("Value", JBool false)]))]))
        None (Some [Key "DisableTerminationProtection"]) DEFAULT_TASK_TIMEOUT
        None None).

Definition getTerminateInstanceTask (id : string) : Named :=
  (id,
   Task (CallAwsService AwsService.EC2 "terminateInstances"
           (TObj [("InstanceIds",
                   TArr [TPath [Key "Instances"; Idx 0; Key "InstanceId"]])]))
        None None DEFAULT_TASK_TIMEOUT None None).

Definition getStateMachineRunning (id : string) (stateMachineArn : string) : Named :=
  (id,
   Task (CallAwsService AwsService.STEP_FUNCTIONS "listExecutions"
           (TLit (JObj [("StateMachineArn", JStr stateMachineArn);
                        ("StatusFilter", JStr "RUNNING")])))
        None None DEFAULT_TASK_TIMEOUT None None).

Definition getTriggerImagesPipeline (id : string) (imagePipelineArn : string)
  : Named :=
  (id,
   Task (CallAwsService AwsService.IMAGE_BUILDER "startImagePipelineExecution"
           (TObj [("ClientToken", TUuid);
                  ("ImagePipelineArn", TLit (JStr imagePipelineArn))]))
        None None DEFAULT_TASK_TIMEOUT None None).

Definition getCheckImagesPipelineStatus (id : string) (imageVersionArn : string)
  : Named :=
  (id,
   Task (CallAwsService AwsService.IMAGE_BUILDER "listImageBuildVersions"
           (TLit (JObj [("ImageVersionArn", JStr imageVersionArn)])))
        (Some (TObj [("PipelineStatus",
                      TPath [Key "ImageSummaryList"; Idx 0; Key "State";
                             Key "Status"])]))
        None DEFAULT_TASK_TIMEOUT None None).

(** Modelled from the spec: [createStateMachineFailState] is called by
    the stack but its definition is not among the sources.  Every
    catch of the four workflows routes to a dedicated terminal Fail
    state carrying a structured cause; the state, its error and its
    cause are named by the id the stack passes. *)
Definition createStateMachineFailState (id : string) : Named :=
  (id, Fail id id).

End StepFunctionsTasks.

Definition itemProcessor (g : Graph) (s : Named) : Named :=
  (fst s,
   match snd s with
   | Map ip it mc _ c n => Map ip it mc g c n
   | other => other
   end).

Definition branch (g : Graph) (s : Named) : Named :=
  (fst s,
   match snd s with
   | Parallel bs c n => Parallel (bs ++ [g]) c n
   | other => other
   end).

Definition newMap (id : string) (maxConcurrency : nat) (inputPath itemsPath : path)
  : Named :=
  (id, Map inputPath itemsPath maxConcurrency (MkGraph "" []) None None).

Definition newParallel (id : string) : Named := (id, Parallel [] None None).

(** The graph of the states reachable from a chain, started at its
    first state. *)
Definition chain (start : Named) (all : list Named) : Graph :=
  MkGraph (fst start) all.

(** ** The stack ([stacks/NatInstances.ts]) *)

Section NatInstancesStack.

(** Values that are fixed at deployment: [cdk.Aws.REGION],
    [cdk.Aws.ACCOUNT_ID], the id of the NAT instances security group,
    the ARN of the image pipeline, and the zone configurations read
    from the parameter store. *)
Variables (region account securityGroupId imagePipelineArn : string).
Variable azConfigurations : list AzConfiguration.

Definition azConfigurationsResult : json :=
  JObj [("azConfigurations", JArr (List.map az_json azConfigurations))].

(** [createFailoverStateMachine] *)
Definition createFailoverStateMachine : StateMachine :=
  let replaceRouteTask :=
    StepFunctionsTasks.getReplaceRouteWithNatGatewayTask "ReplaceRouteTask" in
  let failed := StepFunctionsTasks.createStateMachineFailState "Failover" in
  let getAZConfigurations : Named :=
    ("GetAZConfigurations", Pass (Some azConfigurationsResult) None None) in
  let mapOfAZConfigurations :=
    itemProcessor (chain replaceRouteTask [replaceRouteTask])
      (addCatch failed
         (newMap "MapOfAZConfigurations" 6 [] [Key "azConfigurations"])) in
  MkStateMachine "NATInstanceFailover"
    (chain getAZConfigurations
       [next mapOfAZConfigurations getAZConfigurations;
        mapOfAZConfigurations;
        failed])
    None.

(** [createReplaceInstanceStateMachine] *)
Definition createReplaceInstanceStateMachine (failoverStateMachine : StateMachine)
  : StateMachine :=
  let stateMachineName := "NATInstanceReplaceInstance" in
  let stateMachineArn :=
    ("arn:aws:states:" ++ region ++ ":" ++ account ++ ":stateMachine:"
       ++ stateMachineName)%string in
  let getStateMachineRunningTask :=
    StepFunctionsTasks.getStateMachineRunning "GetStateMachineRunningTask"
      stateMachineArn in
  let getNatInstancesTask :=
    StepFunctionsTasks.getNatInstancesTask "GetNatInstancesTask" in
  let getNatInstancesImageTask :=
    StepFunctionsTasks.getNatInstancesImageTask "GetNatInstanceImageTask"
      (StepFunctionsTasks.getLatestImageFunction "GetLatestNATImage") in
  let runNatInstanceTask :=
    StepFunctionsTasks.getRunInstanceTask "RunNatInstanceTask" securityGroupId
      "c7gn.medium" in
  let getInstanceStateTask :=
    StepFunctionsTasks.getInstanceStateTask "GetInstanceStateTask" in
  let disableSourceDestCheckTask :=
    StepFunctionsTasks.getDisableInstanceSourceDestCheckTask
      "DisableSourceDestCheckTask" in
  let disableTerminationProtectionTask :=
    StepFunctionsTasks.getDisableInstanceTerminationProtectionTask
      "DisableTerminationProtectionTask" in
  let terminateOldInstancesTask :=
    StepFunctionsTasks.getTerminateInstanceTask "TerminateOldInstanceTask" in
  let failed := StepFunctionsTasks.createStateMachineFailState "ReplaceInstance" in
  let failedAlreadyRunning :=
    StepFunctionsTasks.createStateMachineFailState "AlreadyRunning" in
  let noOpState : Named := ("NoOp", Pass None None None) in
  let waitForRun : Named := ("WaitForRun", Wait 10 None) in
  (* the instance state check loop of the create branch *)
  let isInstanceReady :=
    otherwise disableSourceDestCheckTask
      (when (or_ [not_ (stringEquals
                          [Key "Instance"; Key "InstanceStatuses"; Idx 0;
                           Key "InstanceStatus"; Key "Status"] "ok");
                  not_ (stringEquals
                          [Key "Instance"; Key "InstanceStatuses"; Idx 0;
                           Key "SystemStatus"; Key "Status"] "ok")])
            waitForRun
         (when (isNotPresent [Key "Instance"; Key "InstanceStatuses"; Idx 0])
               waitForRun
            (newChoice "IsInstanceReady?"))) in
  let waitRunningInstanceLoop :=
    [next getInstanceStateTask waitForRun;
     next isInstanceReady getInstanceStateTask;
     isInstanceReady;
     disableSourceDestCheckTask] in
  (* terminate instances branch *)
  let disableInstancesTerminationProtection :=
    itemProcessor
      (chain disableTerminationProtectionTask
         [next terminateOldInstancesTask disableTerminationProtectionTask;
          terminateOldInstancesTask])
      (newMap "DisableInstancesTerminationProtection" 6 []
         [Key "NatInstances"; Key "Reservations"]) in
  let anyInstance :=
    otherwise noOpState
      (when (isPresent [Key "NatInstances"; Key "Reservations"; Idx 0])
            disableInstancesTerminationProtection
         (newChoice "AnyInstance?")) in
  let terminateOldInstancesBranch :=
    chain anyInstance
      [anyInstance; disableInstancesTerminationProtection; noOpState] in
  (* create new instances branch *)
  let getSubnets : Named :=
    ("GetSubnets", Pass (Some azConfigurationsResult) None None) in
  let createNewInstances :=
    itemProcessor
      (chain getNatInstancesImageTask
         ([next runNatInstanceTask getNatInstancesImageTask;
           next waitForRun runNatInstanceTask]
            ++ waitRunningInstanceLoop))
      (newMap "CreateNewInstances" 6 [] [Key "azConfigurations"]) in
  let createNewInstancesBranch :=
    chain getSubnets [next createNewInstances getSubnets; createNewInstances] in
  (* the whole definition, with the sanity checks at the beginning *)
  let instancesReplacement :=
    branch createNewInstancesBranch
      (branch terminateOldInstancesBranch
         (addCatch failed (newParallel "InstancesReplacement"))) in
  let triggerFailover : Named :=
    ("TriggerFailover",
     Task (StepFunctionsStartExecution failoverStateMachine)
          None None None None None) in
  let alreadyRunningStateMachine :=
    otherwise triggerFailover
      (when (isPresent [Key "Executions"; Idx 1]) failedAlreadyRunning
         (newChoice "AlreadyRunningStateMachine?")) in
  MkStateMachine stateMachineName
    (chain getStateMachineRunningTask
       [next alreadyRunningStateMachine (addCatch failed getStateMachineRunningTask);
        alreadyRunningStateMachine;
        next getNatInstancesTask (addCatch failed triggerFailover);
        next instancesReplacement (addCatch failed getNatInstancesTask);
        instancesReplacement;
        failed;
        failedAlreadyRunning])
    (Some (5 * 60)).

(** [createFallbackStateMachine] *)
Definition createFallbackStateMachine : StateMachine :=
  let getNatInstances :=
    StepFunctionsTasks.getNatInstancesTask "GetRunningNatInstancesTask" in
  let replaceRoute :=
    StepFunctionsTasks.getReplaceRouteWithNatInstanceTask
      "ReplaceInstanceRouteTask" in
  let failed := StepFunctionsTasks.createStateMachineFailState "Fallback" in
  let rawAZConfigurations : Named :=
    ("RawAZConfigurations",
     Pass None
          (Some (TObj [("InstanceId",
                        TPath [Key "Instances"; Idx 0; Key "InstanceId"]);
                       ("PublicSubnetId",
                        TPath [Key "Instances"; Idx 0; Key "SubnetId"]);
                       ("AzConfigurations",
                        TLit (JObj [("value",
                                     JArr (List.map az_json azConfigurations))]))]))
          None) in
  let getDesiredRouteTableId : Named :=
    ("GetDesiredRouteTableId",
     Pass None
          (Some (TObj [("InstanceId", TPath [Key "InstanceId"]);
                       ("RouteTable",
                        TPath [Key "AzConfigurations"; Key "value";
                               FilterEq ["publicSubnetId"] ["PublicSubnetId"]])]))
          None) in
  let instances :=
    itemProcessor
      (chain rawAZConfigurations
         [next getDesiredRouteTableId rawAZConfigurations;
          next replaceRoute getDesiredRouteTableId;
          replaceRoute])
      (addCatch failed
         (newMap "Instances" 6 [] [Key "NatInstances"; Key "Reservations"])) in
  MkStateMachine "NATInstanceFallback"
    (chain getNatInstances
       [next instances (addCatch failed getNatInstances);
        instances;
        failed])
    None.

(** [createMaintenanceStateMachine].  The image recipe of
    [NatInstancesPipeline] is named [NatInstance] and has version
    [IMAGE_RECIPE_VERSION]. *)
Definition IMAGE_RECIPE_VERSION : string := "0.1.0".

Definition createMaintenanceStateMachine
  (replaceInstancesStateMachine fallbackStateMachine : StateMachine)
  : StateMachine :=
  let imageVersion := ("natinstance" ++ "/" ++ IMAGE_RECIPE_VERSION)%string in
  let imageVersionArn :=
    ("arn:aws:imagebuilder:" ++ region ++ ":" ++ account ++ ":image/"
       ++ imageVersion)%string in
  let triggerImagePipelineTask :=
    StepFunctionsTasks.getTriggerImagesPipeline "TriggerImagePipelineTask"
      imagePipelineArn in
  let imageInitialPipelineStatusTask :=
    StepFunctionsTasks.getCheckImagesPipelineStatus
      "GetInitialImagePipelineStatusTask" imageVersionArn in
  let imagePipelineStatusTask :=
    StepFunctionsTasks.getCheckImagesPipelineStatus
      "GetImagePipelineStatusTask" imageVersionArn in
  let failed := StepFunctionsTasks.createStateMachineFailState "Generic" in
  let failedImagePipeline :=
    StepFunctionsTasks.createStateMachineFailState "ImagePipeline" in
  let failedAlreadyRunningPipeline :=
    StepFunctionsTasks.createStateMachineFailState "AlreadyRunningPipeline" in
  let triggerFallback : Named :=
    addCatch failed
      ("TriggerFallback",
       Task (StepFunctionsStartExecution fallbackStateMachine)
            None None None None None) in
  let triggerReplaceInstances : Named :=
    next triggerFallback
      (addCatch failed
         ("TriggerReplaceInstances",
          Task (StepFunctionsStartExecution replaceInstancesStateMachine)
               None None None None None)) in
  let waitToFetchStatusAgain : Named :=
    next imagePipelineStatusTask ("WaitToFetchStatusAgain", Wait (2 * 60) None) in
  let finished :=
    otherwise triggerReplaceInstances
      (when (not_ (stringEquals [Key "PipelineStatus"] "AVAILABLE"))
            waitToFetchStatusAgain
         (when (stringEquals [Key "PipelineStatus"] "FAILED") failedImagePipeline
            (newChoice "Finished?"))) in
  let waitForPipelineToRun : Named :=
    next imagePipelineStatusTask ("WaitForPipelineToRun", Wait (10 * 60) None) in
  let alreadyRunning :=
    otherwise triggerImagePipelineTask
      (when (and_ [not_ (stringEquals [Key "PipelineStatus"] "AVAILABLE");
                   not_ (stringEquals [Key "PipelineStatus"] "FAILED")])
            failedAlreadyRunningPipeline
         (newChoice "AlreadyRunning?")) in
  MkStateMachine "NATMaintenanceStateMachine"
    (chain imageInitialPipelineStatusTask
       [next alreadyRunning (addCatch failed imageInitialPipelineStatusTask);
        alreadyRunning;
        next waitForPipelineToRun (addCatch failed triggerImagePipelineTask);
        waitForPipelineToRun;
        next finished (addCatch failed imagePipelineStatusTask);
        finished;
        waitToFetchStatusAgain;
        triggerReplaceInstances;
        triggerFallback;
        failed;
        failedImagePipeline;
        failedAlreadyRunningPipeline])
    (Some (60 * 60)).

(** The four state machines as the constructor wires them. *)
Definition failoverStateMachine : StateMachine := createFailoverStateMachine.
Definition replaceInstancesStateMachine : StateMachine :=
  createReplaceInstanceStateMachine failoverStateMachine.
Definition fallbackStateMachine : StateMachine := createFallbackStateMachine.
Definition maintenanceStateMachine : StateMachine :=
  createMaintenanceStateMachine replaceInstancesStateMachine fallbackStateMachine.

End NatInstancesStack.

(** ** Reading a history *)

Definition call_of (e : Event) : option Call :=
  match e with
  | TaskCalled _ _ c _ => Some c
  | _ => None
  end.

(** The provider calls of a history, in order. *)
Fixpoint calls (tr : list Event) : list Call :=
  match tr with
  | [] => []
  | TaskCalled _ _ c _ :: tr' => c :: calls tr'
  | _ :: tr' => calls tr'
  end.

(** Whether every provider call of a history was answered. *)
Fixpoint all_ok (tr : list Event) : bool :=
  match tr with
  | [] => true
  | TaskCalled _ _ _ (Err _ _) :: _ => false
  | _ :: tr' => all_ok tr'
  end.

Definition action_of (c : Call) : string :=
  match c with
  | AwsSdk _ action _ => action
  | InvokeLambda _ _ => "invoke"
  end.

Definition parameters_of (c : Call) : json :=
  match c with
  | AwsSdk _ _ p => p
  | InvokeLambda _ p => p
  end.

(** The calls that change something at a provider; the others only
    read ([listExecutions], [describeInstances],
    [describeInstanceStatus], [listImageBuildVersions] and the Lambda
    function that looks the latest image up). *)
Definition mutation (c : Call) : bool :=
  match c with
  | AwsSdk _ action _ =>
      String.eqb action "replaceRoute"
      || String.eqb action "runInstances"
      || String.eqb action "terminateInstances"
      || String.eqb action "modifyInstanceAttribute"
      || String.eqb action "startImagePipelineExecution"
  | InvokeLambda _ _ => false
  end.

Definition mutations (tr : list Event) : list Call := filter mutation (calls tr).

(** The status with which the first execution of [machine] recorded
    in a history ended. *)
Fixpoint ended (name : string) (tr : list Event) : option Status :=
  match tr with
  | [] => None
  | ExecutionEnded _ m st :: tr' =>
      if String.eqb m name then Some st else ended name tr'
  | _ :: tr' => ended name tr'
  end.

(** The replacement of the default route of a zone by its standby
    gateway, and by an instance. *)
Definition route_to_gateway (z : AzConfiguration) : Call :=
  AwsSdk "ec2" "replaceRoute"
    (JObj [("DestinationCidrBlock", JStr "0.0.0.0/0");
           ("NatGatewayId", JStr (natGatewayId z));
           ("RouteTableId", JStr (privateRouteTableId z))]).

Definition route_to_instance (routeTableId : string) (instanceId : json) : Call :=
  AwsSdk "ec2" "replaceRoute"
    (JObj [("DestinationCidrBlock", JStr "0.0.0.0/0");
           ("InstanceId", instanceId);
           ("RouteTableId", JStr routeTableId)]).


Definition route_event (E : Env) (e : Event) : Prop :=
  match e with
  | StateEntered _ _ => True
  | TaskCalled _ _ c r =>
      action_of c = "replaceRoute" /\ exists h, r = provider E h c
  | _ => False
  end.


(** The instance a reservation of a [describeInstances] listing stands
    for in the workflows, [$.Instances[0]]: its id and its subnet. *)
Definition first_instance (r : json) : option (json * json) :=
  match at_path r [Key "Instances"; Idx 0; Key "InstanceId"],
        at_path r [Key "Instances"; Idx 0; Key "SubnetId"] with
  | Some i, Some s => Some (i, s)
  | _, _ => None
  end.

Definition reservations (listing : json) : option (list json) :=
  match listing with
  | JObj o =>
      match lookup "Reservations" o with
      | Some (JArr rs) => Some rs
      | _ => None
      end
  | _ => None
  end.

(** The zone whose public subnet is [subnet]: the first one, as
    [$.RouteTable[0]] takes the first match of the filter. *)
Definition in_subnet (subnet : json) (z : AzConfiguration) : bool :=
  json_eqb (JStr (publicSubnetId z)) subnet.

Definition zone_of (azs : list AzConfiguration) (subnet : json)
  : option AzConfiguration :=
  find (in_subnet subnet) azs.

(** The route replacement Fallback owes to a reservation, if its
    instance is in the public subnet of a zone. *)
Definition fallback_route (azs : list AzConfiguration) (r : json) : option Call :=
  match first_instance r with
  | Some (i, s) =>
      match zone_of azs s with
      | Some z => Some (route_to_instance (privateRouteTableId z) i)
      | None => None
      end
  | None => None
  end.

Definition describe_instances : Call :=
  AwsSdk "ec2" "describeInstances"
    (JObj [("Filters", JArr [
       JObj [("Name", JStr "tag:Name"); ("Values", JArr [JStr "NAT"])];
       JObj [("Name", JStr "tag:StateMachine");
             ("Values", JArr [JStr "NATInstanceReplaceInstance"])];
       JObj [("Name", JStr "instance-state-name");
             ("Values", JArr [JStr "running"])]])]).


Definition processor_of (name : string) (g : list (string * State))
  : list (string * State) :=
  match find_state name g with
  | Some (Map _ _ _ p _ _) => states p
  | _ => []
  end.

(** The graph each running instance goes through in Fallback. *)
Definition fallbackItemProcessor (azs : list AzConfiguration) : list (string * State) :=
  processor_of "Instances" (states (definitionBody (fallbackStateMachine azs))).

Definition fallback_event (E : Env) (azs : list AzConfiguration) (rs : list json)
  (e : Event) : Prop :=
  match e with
  | StateEntered _ _ => True
  | TaskCalled _ _ c res =>
      (exists r, In r rs /\ fallback_route azs r = Some c)
      /\ exists h, res = provider E h c
  | _ => False
  end.

(** The end of the history of a Fallback execution started at time 0:
    a success, a runtime error, or the [Fallback] fail state. *)
Definition fallback_end (out : Outcome) : list Event :=
  match out with
  | Succeeded o' => [ExecutionEnded 0 "NATInstanceFallback" (SUCCEEDED o')]
  | RuntimeError s =>
      [ExecutionEnded 0 "NATInstanceFallback" (FAILED "States.Runtime" s)]
  | _ => [StateEntered 0 "Fallback";
          ExecutionEnded 0 "NATInstanceFallback" (FAILED "Fallback" "Fallback")]
  end.

(** The event is not the entry of the state [name]. *)
Definition outside (name : string) (e : Event) : Prop :=
  forall t, e <> StateEntered t name.

Definition entered_only (d : list Event) : Prop :=
  Forall (fun e => match e with StateEntered _ _ => True | _ => False end) d.


(** What the claim on Fallback asks of a history: the zones whose
    route was replaced by an instance are exactly those whose public
    subnet holds a running instance. *)
Definition replaces_exactly_matched_zones (azs : list AzConfiguration)
  (rs : list json) (tr : list Event) : Prop :=
  forall z, In z azs ->
    (exists r i, In r rs /\ first_instance r = Some (i, JStr (publicSubnetId z)))
    <-> (exists i, In (route_to_instance (privateRouteTableId z) i) (mutations tr)).

(** ** A deployment with three zones, for the examples *)

Module Example.

Definition zone (letter : string) : AzConfiguration :=
  {| availabilityZone := "eu-west-1" ++ letter;
     publicSubnetId := "subnet-public-" ++ letter;
     natGatewayId := "nat-" ++ letter;
     privateSubnetId := "subnet-private-" ++ letter;
     privateRouteTableId := "rtb-" ++ letter |}%string.

Definition zones : list AzConfiguration := [zone "a"; zone "b"; zone "c"].

(** A reservation of one running instance. *)
Definition reservation (instanceId subnetId : string) : json :=
  JObj [("Instances",
         JArr [JObj [("InstanceId", JStr instanceId);
                     ("SubnetId", JStr subnetId)]])].

Definition healthy : json :=
  JObj [("InstanceStatuses",
         JArr [JObj [("InstanceStatus", JObj [("Status", JStr "ok")]);
                     ("SystemStatus", JObj [("Status", JStr "ok")])]])].

Definition build (status : string) : json :=
  JObj [("ImageSummaryList",
         JArr [JObj [("State", JObj [("Status", JStr status)])]])].

(** Providers that answer every call: one running execution, the
    given running instances, instances healthy at the first poll and
    an image pipeline in the given state. *)
Definition answers (running : list json) (pipeline : string)
  (h : list Event) (c : Call) : Result :=
  match c with
  | AwsSdk _ action _ =>
      if String.eqb action "listExecutions" then
        Ok (JObj [("Executions", JArr [JObj [("Name", JStr "current")]])])
      else if String.eqb action "describeInstances" then
        Ok (JObj [("Reservations", JArr running)])
      else if String.eqb action "runInstances" then
        Ok (JObj [("Instances", JArr [JObj [("InstanceId", JStr "i-new")]])])
      else if String.eqb action "describeInstanceStatus" then Ok healthy
      else if String.eqb action "listImageBuildVersions" then Ok (build pipeline)
      else Ok (JObj [])
  | InvokeLambda _ _ => Ok (JStr "ami-latest")
  end.

Definition world (running : list json) (pipeline : string) (ff : bool) : Env :=
  {| provider := answers running pipeline;
     uuid := fun _ => "token";
     executionId := fun _ => "execution";
     failFast := ff |}.

(** A provider that gives the same answer to every call. *)
Definition constant (r : Result) : Env :=
  {| provider := fun _ _ => r;
     uuid := fun _ => "token";
     executionId := fun _ => "execution";
     failFast := true |}.

(** A provider whose image pipeline is available until a build is
    triggered, and building ever after. *)
Definition started (h : list Event) : bool :=
  existsb (fun c => String.eqb (action_of c) "startImagePipelineExecution")
    (calls h).

Definition stuck_answers (h : list Event) (c : Call) : Result :=
  if String.eqb (action_of c) "listImageBuildVersions" then
    Ok (build (if started h then "BUILDING" else "AVAILABLE"))
  else Ok (JObj []).

Definition stuck : Env :=
  {| provider := stuck_answers;
     uuid := fun _ => "token";
     executionId := fun _ => "execution";
     failFast := true |}.

(** Two running instances, in the public subnets of two zones. *)
Definition two_instances : list json :=
  [reservation "i-1" "subnet-public-a"; reservation "i-2" "subnet-public-b"].

(** A running instance outside every zone, listed before one that is
    in the public subnet of a zone. *)
Definition stray_instances : list json :=
  [reservation "i-x" "subnet-elsewhere"; reservation "i-a" "subnet-public-a"].

(** Six running instances outside every zone, listed before one that
    is in the public subnet of a zone: as many as the items that the
    map of Fallback runs at a time. *)
Definition six_strays_and_one : list json :=
  [reservation "i-1" "subnet-elsewhere"; reservation "i-2" "subnet-elsewhere";
   reservation "i-3" "subnet-elsewhere"; reservation "i-4" "subnet-elsewhere";
   reservation "i-5" "subnet-elsewhere"; reservation "i-6" "subnet-elsewhere";
   reservation "i-a" "subnet-public-a"].

(** A provider as [world], whose route replacements fail. *)
Definition without_routes : Env :=
  {| provider := fun h c =>
       if String.eqb (action_of c) "replaceRoute" then Err "Ec2.Error" "no route"
       else answers [] "AVAILABLE" h c;
     uuid := fun _ => "token";
     executionId := fun _ => "execution";
     failFast := true |}.

End Example.

(** The output of a run that succeeded. *)
Definition output_of (o : Outcome) : json :=
  match o with
  | Succeeded out => out
  | _ => JNull
  end.


(** The calls of the two singleton guards and of the build trigger. *)
Definition list_executions (region account : string) : Call :=
  AwsSdk "sfn" "listExecutions"
    (JObj [("StateMachineArn",
            JStr ("arn:aws:states:" ++ region ++ ":" ++ account
                    ++ ":stateMachine:NATInstanceReplaceInstance")%string);
           ("StatusFilter", JStr "RUNNING")]).

Definition list_builds (region account : string) : Call :=
  AwsSdk "imagebuilder" "listImageBuildVersions"
    (JObj [("ImageVersionArn",
            JStr ("arn:aws:imagebuilder:" ++ region ++ ":" ++ account
                    ++ ":image/natinstance/0.1.0")%string)]).

Definition start_build (imagePipelineArn token : string) : Call :=
  AwsSdk "imagebuilder" "startImagePipelineExecution"
    (JObj [("ClientToken", JStr token);
           ("ImagePipelineArn", JStr imagePipelineArn)]).

(** The Running executions a [listExecutions] answer reports. *)
Definition running_executions (listing : json) : option (list json) :=
  match listing with
  | JObj o =>
      match lookup "Executions" o with
      | Some (JArr es) => Some es
      | _ => None
      end
  | _ => None
  end.

(** The status of the image pipeline a [listImageBuildVersions] answer
    reports: that of the first image summary. *)
Definition pipeline_status (listing : json) : option json :=
  at_path listing [Key "ImageSummaryList"; Idx 0; Key "State"; Key "Status"].

(** The two failures that stand for a singleton conflict. *)
Definition SingletonConflict : Outcome := Failed "AlreadyRunning" "AlreadyRunning".
Definition PipelineAlreadyRunning : Outcome :=
  Failed "AlreadyRunningPipeline" "AlreadyRunningPipeline".

(** A call that triggers a build of the image pipeline, and whether a
    history holds one. *)
Definition is_build (c : Call) : bool :=
  String.eqb (action_of c) "startImagePipelineExecution".

Definition build_started (tr : list Event) : bool := existsb is_build (calls tr).

(** An event of the execution itself: it neither starts nor ends an
    execution. *)
Definition inner (e : Event) : Prop :=
  match e with
  | StateEntered _ _ | TaskCalled _ _ _ _ => True
  | _ => False
  end.


(** ** Reading the graph of ReplaceInstance *)

Definition branches_of (name : string) (g : list (string * State)) : list Graph :=
  match find_state name g with
  | Some (Parallel bs _ _) => bs
  | _ => []
  end.

Definition replaceGraph (region account securityGroupId : string)
  (azs : list AzConfiguration) : list (string * State) :=
  states (definitionBody
            (replaceInstancesStateMachine region account securityGroupId azs)).

(** The two branches of [InstancesReplacement], in the order of the
    [.branch(...)] calls, and the item processors of their maps. *)
Definition terminateOldInstancesBranch (region account securityGroupId : string)
  (azs : list AzConfiguration) : Graph :=
  nth 0 (branches_of "InstancesReplacement"
           (replaceGraph region account securityGroupId azs)) (MkGraph "" []).

Definition createNewInstancesBranch (region account securityGroupId : string)
  (azs : list AzConfiguration) : Graph :=
  nth 1 (branches_of "InstancesReplacement"
           (replaceGraph region account securityGroupId azs)) (MkGraph "" []).

Definition terminateItemProcessor (region account securityGroupId : string)
  (azs : list AzConfiguration) : list (string * State) :=
  processor_of "DisableInstancesTerminationProtection"
    (states (terminateOldInstancesBranch region account securityGroupId azs)).

Definition createItemProcessor (region account securityGroupId : string)
  (azs : list AzConfiguration) : list (string * State) :=
  processor_of "CreateNewInstances"
    (states (createNewInstancesBranch region account securityGroupId azs)).

(** ** The calls of ReplaceInstance *)

Definition unprotect (instanceId : json) : Call :=
  AwsSdk "ec2" "modifyInstanceAttribute"
    (JObj [("InstanceId", instanceId);
           ("DisableApiTermination", JObj [("Value", JBool false)])]).

Definition terminate (instanceId : json) : Call :=
  AwsSdk "ec2" "terminateInstances" (JObj [("InstanceIds", JArr [instanceId])]).

Definition instance_status (instanceId : json) : Call :=
  AwsSdk "ec2" "describeInstanceStatus" (JObj [("InstanceIds", JArr [instanceId])]).

Definition disable_source_dest_check (instanceId : json) : Call :=
  AwsSdk "ec2" "modifyInstanceAttribute"
    (JObj [("InstanceId", instanceId);
           ("SourceDestCheck", JObj [("Value", JBool false)])]).

Definition is_launch (c : Call) : bool := String.eqb (action_of c) "runInstances".

Definition is_terminate (c : Call) : bool :=
  String.eqb (action_of c) "terminateInstances".

Definition is_source_dest (c : Call) : bool :=
  String.eqb (action_of c) "modifyInstanceAttribute"
  && match at_path (parameters_of c) [Key "SourceDestCheck"] with
     | Some _ => true
     | None => false
     end.

(** The id of the instance a reservation stands for. *)
Definition first_id (r : json) : option json :=
  at_path r [Key "Instances"; Idx 0; Key "InstanceId"].

(** What the terminate branch owes to a reservation. *)
Definition termination (r : json) : list Call :=
  match first_id r with
  | Some i => [unprotect i; terminate i]
  | None => []
  end.

(** The reservations a state input carries under [$.NatInstances]. *)
Definition listed (input : json) : list json :=
  match at_path input [Key "NatInstances"; Key "Reservations"] with
  | Some (JArr rs) => rs
  | _ => []
  end.

(** A launch in the public subnet of zone [z], protected against
    termination and without metadata service. *)
Definition launches_in (z : AzConfiguration) (c : Call) : Prop :=
  action_of c = "runInstances"
  /\ at_path (parameters_of c) [Key "NetworkInterfaces"; Idx 0; Key "SubnetId"]
     = Some (JStr (publicSubnetId z))
  /\ at_path (parameters_of c) [Key "DisableApiTermination"] = Some (JBool true)
  /\ at_path (parameters_of c) [Key "MetadataOptions"; Key "HttpEndpoint"]
     = Some (JStr "disabled").

(** Both status checks of a [describeInstanceStatus] answer are ok. *)
Definition healthy (st : json) : Prop :=
  at_path st [Key "InstanceStatuses"; Idx 0; Key "InstanceStatus"; Key "Status"]
  = Some (JStr "ok")
  /\ at_path st [Key "InstanceStatuses"; Idx 0; Key "SystemStatus"; Key "Status"]
     = Some (JStr "ok").

Definition succeeded (o : Outcome) : bool :=
  match o with
  | Succeeded _ => true
  | _ => false
  end.

(** The launches of a history. *)
Definition launches (tr : list Event) : list Call := filter is_launch (calls tr).

(** ** Fan-out, item by item

    [fanned P items d b]: the history [d] is made of the histories of
    the items, taken in order, each related to its item and outcome by
    [P]; [b] tells whether every item was run and succeeded. *)
Inductive fanned {A : Type} (P : A -> list Event -> Outcome -> Prop)
  : list A -> list Event -> bool -> Prop :=
| fanned_nil : fanned P [] [] true
| fanned_cons (a : A) (l : list A) (d : list Event) (o : Outcome)
    (ds : list Event) (b : bool) :
    P a d o -> fanned P l ds b -> fanned P (a :: l) (d ++ ds) (succeeded o && b)
| fanned_cut (a : A) (l : list A) (d : list Event) (o : Outcome) :
    P a d o -> succeeded o = false -> fanned P (a :: l) d false.


(** A run extends the history it is given. *)
Definition grows (tr : list Event) (r : list Event * nat * Outcome) : Prop :=
  exists d, fst (fst r) = tr ++ d.

Definition growing (job : Job) : Prop := forall tr clock, grows tr (job tr clock).


(** ** What the parts of ReplaceInstance leave in a history *)

(** The terminate branch only enters states, lifts the termination
    protection of instances and terminates instances. *)
Definition termination_event (e : Event) : Prop :=
  match e with
  | StateEntered _ _ => True
  | TaskCalled _ _ c _ => exists i, c = unprotect i \/ c = terminate i
  | _ => False
  end.

(** The history [d] of the terminate branch for one reservation: the
    protection of its instance is lifted, then the instance is
    terminated; the item succeeds only when both calls were answered. *)
Definition terminated (r : json) (d : list Event) (o : Outcome) : Prop :=
  Forall termination_event d
  /\ (exists k, calls d = firstn k (termination r))
  /\ (succeeded o = true ->
      calls d = termination r /\ first_id r <> None /\ all_ok d = true).

(** The history of the terminate branch on the reservations [rs]: it
    enters its states and runs the items; it succeeds only when every
    reservation was dealt with. *)
Definition terminate_branch_history (rs : list json) (d : list Event) (o : Outcome)
  : Prop :=
  exists pre rs' dd b,
    d = pre ++ dd
    /\ entered_only pre
    /\ fanned terminated rs' dd b
    /\ (rs' = [] \/ rs' = rs)
    /\ (succeeded o = true -> b = true /\ rs' = rs).

(** The status loop of the instance [i], from [WaitForRun] on: states
    are entered and the status is polled, until the run stops or a poll
    finds both checks ok; only then is the source/destination check of
    [i] disabled, and the outcome is that of this last call. *)
Inductive polled (i : json) : list Event -> Outcome -> Prop :=
| polled_halt (o : Outcome) :
    succeeded o = false -> polled i [] o
| polled_enter (t : nat) (s : string) (d : list Event) (o : Outcome) :
    polled i d o -> polled i (StateEntered t s :: d) o
| polled_status (t : nat) (s : string) (res : Result) (d : list Event)
    (o : Outcome) :
    polled i d o -> polled i (TaskCalled t s (instance_status i) res :: d) o
| polled_ready (t t1 t2 t3 : nat) (s s1 s2 s3 : string) (st : json)
    (res : Result) :
    healthy st ->
    polled i
      [TaskCalled t s (instance_status i) (Ok st);
       StateEntered t1 s1; StateEntered t2 s2;
       TaskCalled t3 s3 (disable_source_dest_check i) res]
      (match res with
       | Ok raw => Succeeded raw
       | Err e c => Failed e c
       end).

(** Entering states and asking the Lambda function for the image. *)
Definition lookup_only (d : list Event) : Prop :=
  Forall (fun e => match e with
                   | StateEntered _ _ => True
                   | TaskCalled _ _ (InvokeLambda _ _) _ => True
                   | _ => False
                   end) d.

(** The history of the create branch for one zone: the image is looked
    up, one instance is launched in the zone, and its status loop runs. *)
Definition created (z : AzConfiguration) (d : list Event) (o : Outcome) : Prop :=
  exists d0 rest,
    d = d0 ++ rest
    /\ lookup_only d0
    /\ ((rest = [] /\ succeeded o = false)
        \/ exists t s c res d1,
            rest = TaskCalled t s c res :: d1
            /\ launches_in z c
            /\ ((d1 = [] /\ succeeded o = false) \/ exists i, polled i d1 o)).

Definition create_branch_history (azs : list AzConfiguration) (d : list Event)
  (o : Outcome) : Prop :=
  exists pre azs' dd b,
    d = pre ++ dd
    /\ entered_only pre
    /\ fanned created azs' dd b
    /\ (azs' = [] \/ azs' = azs)
    /\ (succeeded o = true -> b = true /\ azs' = azs).

Definition is_unprotect (c : Call) : bool :=
  String.eqb (action_of c) "modifyInstanceAttribute"
  && match at_path (parameters_of c) [Key "DisableApiTermination"] with
     | Some _ => true
     | None => false
     end.

(** The calls of a history that lift a termination protection or
    terminate an instance. *)
Definition terminations (tr : list Event) : list Call :=
  filter (fun c => is_unprotect c || is_terminate c) (calls tr).

(** The calls of a history that disable a source/destination check. *)
Definition check_disablings (tr : list Event) : list Call :=
  filter is_source_dest (calls tr).

(** An event that launches nothing, terminates nothing and touches no
    instance attribute. *)
Definition quiet (e : Event) : Prop :=
  match e with
  | TaskCalled _ _ c _ =>
      is_launch c = false /\ is_terminate c = false
      /\ String.eqb (action_of c) "modifyInstanceAttribute" = false
  | _ => True
  end.

Definition reservations_of (listing : json) : list json :=
  match reservations listing with
  | Some rs => rs
  | None => []
  end.

(** The history of the [InstancesReplacement] step on reservations
    [rs]: the terminate branch, then the create branch. *)
Definition branches_history (rs : list json) (azs : list AzConfiguration)
  (d : list Event) (o : Outcome) : Prop :=
  exists pre dA oA dB oB post,
    d = pre ++ dA ++ dB ++ post
    /\ entered_only pre
    /\ entered_only post
    /\ terminate_branch_history rs dA oA
    /\ create_branch_history azs dB oB
    /\ (succeeded o = true -> succeeded oA = true /\ succeeded oB = true).

(** The history of a ReplaceInstance execution: a head up to the
    listing of the instances, the history [d] of the
    [InstancesReplacement] step, and a tail.  Either the execution
    stopped in the head, or Failover succeeded after replacing the
    route of every zone, the instances were listed, and the step ran
    on the listed reservations. *)
Definition replacement_history (E : Env) (azs : list AzConfiguration)
  (tr : list Event) (out : Outcome) : Prop :=
  exists head d tail,
    tr = head ++ d ++ tail
    /\ Forall quiet head
    /\ Forall quiet tail
    /\ ((d = []
         /\ succeeded out = false
         /\ (forall e c, ended "NATInstanceFailover" tr = Some (FAILED e c) ->
             out = Failed "ReplaceInstance" "ReplaceInstance"))
        \/ (exists listing h o st,
              ended "NATInstanceFailover" head = Some (SUCCEEDED st)
              /\ incl (map route_to_gateway azs) (calls head)
              /\ provider E h describe_instances = Ok listing
              /\ branches_history (reservations_of listing) azs d o
              /\ (succeeded out = true -> succeeded o = true))).

(** Every call of [d] that disables a source/destination check comes,
    in [d], after a poll of the same instance that found both checks
    ok. *)
Definition checked_before_disabling (d : list Event) : Prop :=
  forall pre t s c res post,
    d = pre ++ TaskCalled t s c res :: post ->
    is_source_dest c = true ->
    exists i t' s' st,
      c = disable_source_dest_check i
      /\ In (TaskCalled t' s' (instance_status i) (Ok st)) pre
      /\ healthy st.

(** The state that follows [name] in a graph, and the state that
    catches its errors. *)
Definition next_of (name : string) (g : list (string * State)) : option string :=
  match find_state name g with
  | Some (Pass _ _ n) => n
  | Some (Task _ _ _ _ _ n) => n
  | Some (Wait _ n) => n
  | Some (Map _ _ _ _ _ n) => n
  | Some (Parallel _ _ n) => n
  | _ => None
  end.

Definition catch_of (name : string) (g : list (string * State)) : option string :=
  match find_state name g with
  | Some (Task _ _ _ _ c _) => c
  | Some (Map _ _ _ _ c _) => c
  | Some (Parallel _ c _) => c
  | _ => None
  end.

Definition resource_of (name : string) (g : list (string * State))
  : option Resource :=
  match find_state name g with
  | Some (Task r _ _ _ _ _) => Some r
  | _ => None
  end.

(** A provider that answers every call, whose launches name the
    instance they started and whose status polls find both checks ok. *)
Definition cooperative (E : Env) : Prop :=
  (forall h c, exists r, provider E h c = Ok r)
  /\ (forall h c r,
        action_of c = "runInstances" -> provider E h c = Ok r ->
        at_path r [Key "Instances"; Idx 0; Key "InstanceId"] <> None)
  /\ (forall h c r,
        action_of c = "describeInstanceStatus" -> provider E h c = Ok r ->
        healthy r).

(** ** Two concrete runs *)

(** ReplaceInstance with two running instances. *)
Definition replacement_of_two : list Event * nat * Outcome :=
  start_execution 20 (Example.world Example.two_instances "AVAILABLE" true)
    (replaceInstancesStateMachine "eu-west-1" "123456789012" "sg-nat"
       [Example.zone "a"; Example.zone "b"; Example.zone "c"])
    (JObj []) [] 0.

(** Fallback with six instances outside every zone listed before an
    instance of zone a, under either policy of the fan-out. *)
Definition fallback_with_six_strays (ff : bool) : list Event * nat * Outcome :=
  start_execution 20 (Example.world Example.six_strays_and_one "AVAILABLE" ff)
    (fallbackStateMachine Example.zones) (JObj []) [] 0.

(** Fallback with an instance outside every zone. *)
Definition fallback_with_stray : list Event * nat * Outcome :=
  start_execution 20 (Example.world Example.stray_instances "AVAILABLE" true)
    (fallbackStateMachine Example.zones) (JObj []) [] 0.


(** ** The string methods the constructs use

    [split], [join], [toUpperCase], [substring] and [replace] of
    JavaScript strings, on strings of ASCII characters (the names of
    availability zones, the component documents and their scripts);
    separators are single characters, as in the calls of the sources. *)

Module Js.
Import Ascii.

Definition DOLLAR : ascii := "$"%char.
Definition AMPERSAND : ascii := "&"%char.
Definition BACKQUOTE : ascii := "`"%char.
Definition QUOTE : ascii := "'"%char.
Definition DASH : ascii := "-"%char.
Definition SPACE : ascii := " "%char.
(** The line feed. *)
Definition LF : ascii := ascii_of_nat 10.

(** [s.split(sep)] *)
Fixpoint split (sep : Ascii.ascii) (s : string) : list string :=
  match s with
  | EmptyString => [EmptyString]
  | String c s' =>
      if Ascii.eqb c sep then EmptyString :: split sep s'
      else match split sep s' with
           | part :: parts => String c part :: parts
           | [] => [String c EmptyString]
           end
  end.

(** [parts.join(sep)] *)
Fixpoint join (sep : string) (parts : list string) : string :=
  match parts with
  | [] => EmptyString
  | [part] => part
  | part :: parts' => (part ++ sep ++ join sep parts')%string
  end.

(** [c.toUpperCase()] of one ASCII character. *)
Definition toUpperCase (c : Ascii.ascii) : Ascii.ascii :=
  let n := Ascii.nat_of_ascii c in
  if Nat.leb 97 n && Nat.leb n 122 then Ascii.ascii_of_nat (n - 32) else c.

Definition toLowerCase (c : Ascii.ascii) : Ascii.ascii :=
  let n := Ascii.nat_of_ascii c in
  if Nat.leb 65 n && Nat.leb n 90 then Ascii.ascii_of_nat (n + 32) else c.

(** The first occurrence of [pattern] in [s]: what is before it and
    what is after it. *)
Fixpoint drop (n : nat) (s : string) : string :=
  match n, s with
  | S n', String _ s' => drop n' s'
  | _, _ => s
  end.

Fixpoint search (pattern s : string) : option (string * string) :=
  if String.prefix pattern s then Some (EmptyString, drop (String.length pattern) s)
  else match s with
       | EmptyString => None
       | String c s' =>
           match search pattern s' with
           | Some (before, after) => Some (String c before, after)
           | None => None
           end
       end.

(** The replacement text of [s.replace(pattern, template)] for a
    pattern that is a string: in the template, [$$] stands for a
    dollar, [$&] for the matched text, [$`] for what is before the
    match and [$'] for what is after it; with no capture group every
    other dollar stands for itself. *)
Fixpoint getSubstitution (matched before after template : string) : string :=
  match template with
  | EmptyString => EmptyString
  | String d t =>
      if Ascii.eqb d DOLLAR then
        match t with
        | String c rest =>
            if Ascii.eqb c DOLLAR then
              String DOLLAR (getSubstitution matched before after rest)
            else if Ascii.eqb c AMPERSAND then
              (matched ++ getSubstitution matched before after rest)%string
            else if Ascii.eqb c BACKQUOTE then
              (before ++ getSubstitution matched before after rest)%string
            else if Ascii.eqb c QUOTE then
              (after ++ getSubstitution matched before after rest)%string
            else String d (getSubstitution matched before after t)
        | EmptyString => String d EmptyString
        end
      else String d (getSubstitution matched before after t)
  end.

(** [s.replace(pattern, template)]: the first occurrence only. *)
Definition replace (s pattern template : string) : string :=
  match search pattern s with
  | Some (before, after) =>
      (before ++ getSubstitution pattern before after template ++ after)%string
  | None => s
  end.

End Js.

(** ** The Vpc stack ([stacks/Vpc.ts]) *)

Module VpcStack.

(** [part[0].toUpperCase().concat(part.substring(1))]; [part[0]] is
    [undefined] for an empty part, and the call on it throws. *)
Definition capitalize (part : string) : option string :=
  match part with
  | EmptyString => None
  | String c rest => Some (String (Js.toUpperCase c) rest)
  end.

Fixpoint capitalizeAll (parts : list string) : option (list string) :=
  match parts with
  | [] => Some []
  | part :: parts' =>
      match capitalize part, capitalizeAll parts' with
      | Some p, Some ps => Some (p :: ps)
      | _, _ => None
      end
  end.

(** [getCamelCaseAvailabilityZoneName]; [None] when it throws. *)
Definition getCamelCaseAvailabilityZoneName (availabilityZone : string)
  : option string :=
  match capitalizeAll (Js.split Js.DASH availabilityZone) with
  | Some parts => Some (Js.join "" parts)
  | None => None
  end.

End VpcStack.

(** The availability zones of the stack constructor of
    [stacks/NatInstances.ts]: the region followed by one of the first
    [NUMBER_OF_AVAILABILITY_ZONES] letters of ['abcdefghijk']. *)
Definition availabilityZones (region : string) : list string :=
  map (fun index =>
         (region ++ match String.get index "abcdefghijk" with
                    | Some letter => String letter EmptyString
                    | None => "undefined"
                    end)%string)
      (seq 0 NUMBER_OF_AVAILABILITY_ZONES).

(** ** The image pipeline ([constructs/NatInstancesPipeline.ts]) *)

Module NatInstancesPipeline.

Record CfnComponent : Type := {
  name : string;
  platform : string;
  version : string;
  description : string;
  supportedOsVersions : list string;
  data : string
}.

(** Proper indentation is mandatory for components yaml. *)
Definition indentedScriptContent (componentScriptContent : string) : string :=
  Js.join (String Js.LF EmptyString)
    (map (fun line => ("              " ++ line)%string)
         (Js.split Js.LF componentScriptContent)).

Definition componentContent (placeholder componentYamlContent
  componentScriptContent : string) : string :=
  Js.replace componentYamlContent placeholder
    (indentedScriptContent componentScriptContent).

Definition createEnableNatComponent (componentYamlContent
  componentScriptContent : string) : CfnComponent :=
  {| name := "enable-nat";
     platform := "Linux";
     version := "0.1.0";
     description := "Component that enables NAT routing in an instance";
     supportedOsVersions := ["Amazon Linux 2"];
     data := componentContent "{{ENABLE_NAT_SCRIPT}}" componentYamlContent
               componentScriptContent |}.

Definition createHardenNatComponent (componentYamlContent
  componentScriptContent : string) : CfnComponent :=
  {| name := "harden-nat";
     platform := "Linux";
     version := "0.1.0";
     description := "Component that hardens NAT instances image";
     supportedOsVersions := ["Amazon Linux 2"];
     data := componentContent "{{HARDEN_NAT_SCRIPT}}" componentYamlContent
               componentScriptContent |}.

Definition createTestNatComponent (componentYamlContent
  componentScriptContent : string) : CfnComponent :=
  {| name := "test-nat";
     platform := "Linux";
     version := "0.1.0";
     description := "Component that tests NAT routing in an instance";
     supportedOsVersions := ["Amazon Linux 2"];
     data := componentContent "{{TEST_NAT_SCRIPT}}" componentYamlContent
               componentScriptContent |}.

End NatInstancesPipeline.

(** ** Reading strings *)

(** The characters of a string that are not [c]. *)
Fixpoint without (c : Ascii.ascii) (s : string) : string :=
  match s with
  | EmptyString => EmptyString
  | String d s' => if Ascii.eqb d c then without c s' else String d (without c s')
  end.

Fixpoint lowered (s : string) : string :=
  match s with
  | EmptyString => EmptyString
  | String c s' => String (Js.toLowerCase c) (lowered s')
  end.

Fixpoint occurs (c : Ascii.ascii) (s : string) : bool :=
  match s with
  | EmptyString => false
  | String d s' => Ascii.eqb d c || occurs c s'
  end.

(** A replacement template in which every dollar stands for itself:
    no dollar is followed by a dollar, an ampersand, a backquote or a
    quote. *)
Fixpoint plain (template : string) : bool :=
  match template with
  | EmptyString => true
  | String d t =>
      match t with
      | String c _ =>
          negb (Ascii.eqb d Js.DOLLAR
                && (Ascii.eqb c Js.DOLLAR || Ascii.eqb c Js.AMPERSAND || Ascii.eqb c Js.BACKQUOTE
                    || Ascii.eqb c Js.QUOTE))
          && plain t
      | EmptyString => true
      end
  end.

(** [before] and [after] surround the first occurrence of [pattern]
    in [s]. *)
Definition first_occurrence (pattern s before after : string) : Prop :=
  s = (before ++ pattern ++ after)%string
  /\ forall before' after',
       s = (before' ++ pattern ++ after')%string ->
       String.length before <= String.length before'.

(** The three components of the pipeline, each with the placeholder
    of its document. *)
Definition components : list (string * (string -> string -> NatInstancesPipeline.CfnComponent)) :=
  [("{{ENABLE_NAT_SCRIPT}}", NatInstancesPipeline.createEnableNatComponent);
   ("{{HARDEN_NAT_SCRIPT}}", NatInstancesPipeline.createHardenNatComponent);
   ("{{TEST_NAT_SCRIPT}}", NatInstancesPipeline.createTestNatComponent)].

(** A script with the indentation after each of its line feeds. *)
Fixpoint indentedAfterLineFeeds (script : string) : string :=
  match script with
  | EmptyString => EmptyString
  | String c script' =>
      if Ascii.eqb c Js.LF then
        String c ("              " ++ indentedAfterLineFeeds script')%string
      else String c (indentedAfterLineFeeds script')
  end.

Fixpoint endsWith (c : Ascii.ascii) (s : string) : bool :=
  match s with
  | EmptyString => false
  | String d EmptyString => Ascii.eqb d c
  | String _ s' => endsWith c s'
  end.


(** ** What every run keeps

    A history is lawful when each of its events came under the
    conditions the workflows set for it. *)

(** The tags a launch puts on its instance. *)
Definition is_instance_spec (spec : json) : bool :=
  match at_path spec [Key "ResourceType"] with
  | Some r => json_eqb r (JStr "instance")
  | None => false
  end.

Definition instance_tags (c : Call) : list json :=
  match at_path (parameters_of c) [Key "TagSpecifications"] with
  | Some (JArr specs) =>
      match find is_instance_spec specs with
      | Some spec =>
          match at_path spec [Key "Tags"] with
          | Some (JArr tags) => tags
          | _ => []
          end
      | None => []
      end
  | _ => []
  end.

Definition has_tag (k : string) (v : json) (tags : list json) : bool :=
  existsb (fun t => json_eqb t (JObj [("Key", JStr k); ("Value", v)])) tags.

(** An instance with [tags] passes the filter [f] of a
    [describeInstances] call; only the filters on tags are judged. *)
Definition passes (tags : list json) (f : json) : bool :=
  match at_path f [Key "Name"], at_path f [Key "Values"] with
  | Some (JStr n), Some (JArr vs) =>
      if String.prefix "tag:" n
      then existsb (fun v => has_tag (Js.drop 4 n) v tags) vs
      else true
  | _, _ => false
  end.

Definition filters_of (c : Call) : list json :=
  match at_path (parameters_of c) [Key "Filters"] with
  | Some (JArr fs) => fs
  | _ => []
  end.

(** The instance of [launch] is among those [listing] asks for. *)
Definition found_by (listing launch : Call) : bool :=
  forallb (passes (instance_tags launch)) (filters_of listing).

(** The builds of the image pipeline a history triggered. *)
Definition builds (tr : list Event) : list Call := filter is_build (calls tr).

(** The conditions under which a call is made. *)
Definition call_allowed (azs : list AzConfiguration) (tr : list Event) (c : Call)
  : Prop :=
  (is_terminate c = true ->
   exists i pre t1 s1 raw t2 s2,
     c = terminate i
     /\ tr = pre ++ [TaskCalled t1 s1 (unprotect i) (Ok raw); StateEntered t2 s2])
  /\ (is_launch c = true -> found_by describe_instances c = true)
  /\ (action_of c = "replaceRoute" ->
      exists z, In z azs
                /\ (c = route_to_gateway z
                    \/ exists i, c = route_to_instance (privateRouteTableId z) i))
  /\ (is_build c = true -> builds tr = []).

(** The conditions under which a workflow starts another one. *)
Definition start_allowed (tr : list Event) (m : string) : Prop :=
  (m = "NATInstanceReplaceInstance" ->
   exists pre t s c raw t2 s2 t3 s3,
     tr = pre ++ [TaskCalled t s c (Ok raw); StateEntered t2 s2; StateEntered t3 s3]
     /\ action_of c = "listImageBuildVersions"
     /\ pipeline_status raw = Some (JStr "AVAILABLE"))
  /\ (m = "NATInstanceFallback" ->
      exists pre t out t2 s2,
        tr = pre ++ [ExecutionEnded t "NATInstanceReplaceInstance" (SUCCEEDED out);
                     StateEntered t2 s2]).

Inductive lawful (azs : list AzConfiguration) : list Event -> Prop :=
| lawful_first (t : nat) (m : string) : lawful azs [ExecutionStarted t m]
| lawful_entered (tr : list Event) (t : nat) (s : string) :
    lawful azs tr -> lawful azs (tr ++ [StateEntered t s])
| lawful_called (tr : list Event) (t : nat) (s : string) (c : Call) (res : Result) :
    lawful azs tr -> call_allowed azs tr c ->
    lawful azs (tr ++ [TaskCalled t s c res])
| lawful_started (tr : list Event) (t : nat) (m : string) :
    lawful azs tr -> start_allowed tr m ->
    lawful azs (tr ++ [ExecutionStarted t m])
| lawful_ended (tr : list Event) (t : nat) (m : string) (st : Status) :
    lawful azs tr -> lawful azs (tr ++ [ExecutionEnded t m st]).

(** ** The points of the four workflows

    The graphs the workflows run through, and what is known of the
    input and of the history when a run enters a state of one of
    them. *)

Definition failoverGraph (azs : list AzConfiguration) : list (string * State) :=
  states (definitionBody (failoverStateMachine azs)).

Definition failoverItemProcessor (azs : list AzConfiguration)
  : list (string * State) :=
  processor_of "MapOfAZConfigurations" (failoverGraph azs).

Definition fallbackGraph (azs : list AzConfiguration) : list (string * State) :=
  states (definitionBody (fallbackStateMachine azs)).

(** The four state machines of the stack. *)
Definition workflows (region account securityGroupId imagePipelineArn : string)
  (azs : list AzConfiguration) : list StateMachine :=
  [failoverStateMachine azs;
   replaceInstancesStateMachine region account securityGroupId azs;
   fallbackStateMachine azs;
   maintenanceStateMachine region account securityGroupId imagePipelineArn azs].

Definition maintenanceGraph (region account securityGroupId imagePipelineArn : string)
  (azs : list AzConfiguration) : list (string * State) :=
  states (definitionBody
            (maintenanceStateMachine region account securityGroupId
               imagePipelineArn azs)).

(** On entering [Finished?]: the history ends with an answer on the
    image pipeline, and the input carries the status it reports. *)
Definition status_known (input : json) (tr : list Event) : Prop :=
  exists pre t s c raw,
    tr = pre ++ [TaskCalled t s c (Ok raw)]
    /\ action_of c = "listImageBuildVersions"
    /\ at_path input [Key "PipelineStatus"] = pipeline_status raw.

(** On entering [TriggerReplaceInstances]: the last answer on the
    image pipeline reported it available. *)
Definition image_available (tr : list Event) : Prop :=
  exists pre t s c raw t2 s2,
    tr = pre ++ [TaskCalled t s c (Ok raw); StateEntered t2 s2]
    /\ action_of c = "listImageBuildVersions"
    /\ pipeline_status raw = Some (JStr "AVAILABLE").

(** On entering [TriggerFallback]: ReplaceInstance has just succeeded. *)
Definition instances_replaced (tr : list Event) : Prop :=
  exists pre t out,
    tr = pre ++ [ExecutionEnded t "NATInstanceReplaceInstance" (SUCCEEDED out)].

(** On entering [TerminateOldInstanceTask]: the termination protection
    of the instance of the input has just been lifted. *)
Definition protection_lifted (input : json) (tr : list Event) : Prop :=
  exists i pre t s raw,
    first_id input = Some i
    /\ tr = pre ++ [TaskCalled t s (unprotect i) (Ok raw)].

(** On entering [ReplaceInstanceRouteTask]: the route tables to choose
    from are those of zones of the deployment. *)
Definition zones_chosen (azs : list AzConfiguration) (input : json) : Prop :=
  exists i zs,
    input = JObj [("InstanceId", i); ("RouteTable", JArr (map az_json zs))]
    /\ incl zs azs.

(** On entering [GetDesiredRouteTableId]: the input carries the zones
    of the deployment. *)
Definition subnet_known (azs : list AzConfiguration) (input : json) : Prop :=
  exists i s,
    input = JObj [("InstanceId", i); ("PublicSubnetId", s);
                  ("AzConfigurations", JObj [("value", JArr (map az_json azs))])].

(** [at_point ... X g cur input tr]: execution [X] enters state [cur]
    of graph [g], one of the graphs of the four workflows, with
    [input] after the history [tr]. *)
Inductive at_point (region account securityGroupId imagePipelineArn : string)
  (azs : list AzConfiguration)
  : Execution -> list (string * State) -> string -> json -> list Event -> Prop :=
| in_maintenance (X : Execution) (cur : string) (input : json) (tr : list Event) :
    (cur = "GetInitialImagePipelineStatusTask" \/ cur = "AlreadyRunning?"
     \/ cur = "TriggerImagePipelineTask" -> builds tr = []) ->
    (cur = "Finished?" -> status_known input tr) ->
    (cur = "TriggerReplaceInstances" -> image_available tr) ->
    (cur = "TriggerFallback" -> instances_replaced tr) ->
    at_point region account securityGroupId imagePipelineArn azs X
      (maintenanceGraph region account securityGroupId imagePipelineArn azs)
      cur input tr
| in_replace (X : Execution) (cur : string) (input : json) (tr : list Event) :
    machine X = "NATInstanceReplaceInstance" ->
    at_point region account securityGroupId imagePipelineArn azs X
      (replaceGraph region account securityGroupId azs) cur input tr
| in_terminate_branch (X : Execution) (cur : string) (input : json)
    (tr : list Event) :
    at_point region account securityGroupId imagePipelineArn azs X
      (states (terminateOldInstancesBranch region account securityGroupId azs))
      cur input tr
| in_terminate_item (X : Execution) (cur : string) (input : json)
    (tr : list Event) :
    (cur = "TerminateOldInstanceTask" -> protection_lifted input tr) ->
    at_point region account securityGroupId imagePipelineArn azs X
      (terminateItemProcessor region account securityGroupId azs) cur input tr
| in_create_branch (X : Execution) (cur : string) (input : json)
    (tr : list Event) :
    machine X = "NATInstanceReplaceInstance" ->
    at_point region account securityGroupId imagePipelineArn azs X
      (states (createNewInstancesBranch region account securityGroupId azs))
      cur input tr
| in_create_item (X : Execution) (cur : string) (input : json)
    (tr : list Event) :
    machine X = "NATInstanceReplaceInstance" ->
    at_point region account securityGroupId imagePipelineArn azs X
      (createItemProcessor region account securityGroupId azs) cur input tr
| in_failover (X : Execution) (cur : string) (input : json) (tr : list Event) :
    (cur = "MapOfAZConfigurations" -> input = azConfigurationsResult azs) ->
    at_point region account securityGroupId imagePipelineArn azs X
      (failoverGraph azs) cur input tr
| in_failover_item (X : Execution) (cur : string) (z : AzConfiguration)
    (tr : list Event) :
    In z azs ->
    at_point region account securityGroupId imagePipelineArn azs X
      (failoverItemProcessor azs) cur (az_json z) tr
| in_fallback (X : Execution) (cur : string) (input : json) (tr : list Event) :
    at_point region account securityGroupId imagePipelineArn azs X
      (fallbackGraph azs) cur input tr
| in_fallback_item (X : Execution) (cur : string) (input : json)
    (tr : list Event) :
    (cur = "GetDesiredRouteTableId" -> subnet_known azs input) ->
    (cur = "ReplaceInstanceRouteTask" -> zones_chosen azs input) ->
    at_point region account securityGroupId imagePipelineArn azs X
      (fallbackItemProcessor azs) cur input tr.


(** ** A concrete run of Maintenance

    The image is available and two instances are running. *)
Definition maintenance_of_two : list Event * nat * Outcome :=
  start_execution 60 (Example.world Example.two_instances "AVAILABLE" true)
    (maintenanceStateMachine "eu-west-1" "123456789012" "sg-nat" "arn:pipeline"
       Example.zones)
    (JObj []) [] 0.

(** The call of the [k]-th event of a history. *)
Definition call_at (k : nat) (tr : list Event) : Call :=
  match nth_error tr k with
  | Some (TaskCalled _ _ c _) => c
  | _ => AwsSdk "" "" JNull
  end.

(** * Properties *)

Lemma exec_S (f : nat) (E : Env) (X : Execution) (g : list (string * State))
  (cur : string) (input : json) (tr : list Event) (clock : nat) :
  exec (S f) E X g cur input tr clock = step (exec f E) E X g cur input tr clock.
Proof. reflexivity. Qed.

Lemma exec_0 (E : Env) (X : Execution) (g : list (string * State))
  (cur : string) (input : json) (tr : list Event) (clock : nat) :
  exec 0 E X g cur input tr clock = (tr, clock, OutOfFuel).
Proof. reflexivity. Qed.

(** A run is unfolded one step at a time. *)
Arguments exec : simpl never.

Ltac run_step := rewrite exec_S; unfold step; cbn.

(** The same, leaving the paths into a symbolic document alone. *)
Ltac run_step_at := rewrite exec_S; unfold step; cbn -[at_path].

Lemma calls_app (a b : list Event) : calls (a ++ b) = calls a ++ calls b.
Proof.
  induction a as [|e a IH]; simpl; [reflexivity|].
  destruct e; simpl; rewrite IH; reflexivity.
Qed.

Lemma all_ok_app (a b : list Event) : all_ok (a ++ b) = all_ok a && all_ok b.
Proof.
  induction a as [|e a IH]; simpl; [reflexivity|].
  destruct e as [| ? ? ? [|] | |]; simpl; auto.
Qed.

Lemma mutations_app (a b : list Event) :
  mutations (a ++ b) = mutations a ++ mutations b.
Proof. unfold mutations. rewrite calls_app, filter_app. reflexivity. Qed.

(** *** Lanes whose clocks never move *)

Lemma occupy_same (c : nat) (slots : list nat) : occupy c c slots = slots.
Proof.
  induction slots as [|s rest IH]; simpl; [reflexivity|].
  destruct (Nat.eqb_spec s c); congruence.
Qed.

Lemma earliest_repeat (c n : nat) : earliest (repeat c (S n)) = c.
Proof.
  simpl. induction n as [|n IH]; simpl; [reflexivity|].
  rewrite Nat.min_id. exact IH.
Qed.

Lemma list_max_repeat (c n : nat) : list_max (repeat c (S n)) = c.
Proof.
  induction n as [|n IH]; simpl; [lia|].
  simpl in IH. rewrite IH. lia.
Qed.

Lemma lanes_S (m n : nat) : exists k, lanes m n = S k.
Proof.
  unfold lanes. destruct (Nat.max 1 _) eqn:H; [lia|eauto].
Qed.



(** *** Histories only grow *)

Lemma grows_refl (tr : list Event) (clock : nat) (o : Outcome) :
  grows tr (tr, clock, o).
Proof. exists []. simpl. rewrite app_nil_r. reflexivity. Qed.

Lemma grows_app (tr d : list Event) (r : list Event * nat * Outcome) :
  grows (tr ++ d) r -> grows tr r.
Proof. intros (d' & H). exists (d ++ d'). rewrite H, app_assoc. reflexivity. Qed.

Lemma grows_trans (tr : list Event) (r r' : list Event * nat * Outcome) :
  grows tr r -> grows (fst (fst r)) r' -> grows tr r'.
Proof.
  intros (d & H) (d' & H'). exists (d ++ d'). rewrite H', H, app_assoc. reflexivity.
Qed.

Lemma drain_grows (jobs : list Job) :
  Forall growing jobs ->
  forall tr slots clock,
    grows tr (let '(tr', clock') := drain jobs tr slots clock in
              (tr', clock', OutOfFuel)).
Proof.
  induction 1 as [|job jobs Hjob _ IH]; intros tr slots clock; simpl.
  - apply grows_refl.
  - specialize (Hjob tr (earliest slots)).
    destruct (job tr (earliest slots)) as [[tr' finish] o]. destruct Hjob as (d & Hd).
    simpl in Hd. subst tr'.
    destruct o; try (exists d; reflexivity).
    + apply grows_app with (d := d). apply IH.
    + destruct (hold _ _); [exists d; reflexivity|].
      apply grows_app with (d := d). apply IH.
    + destruct (hold _ _); [exists d; reflexivity|].
      apply grows_app with (d := d). apply IH.
Qed.

Lemma join_grows (ff : bool) (jobs : list Job) :
  Forall growing jobs ->
  forall tr slots failure outs,
    grows tr (let '(tr', clock', _) := join ff jobs tr slots failure outs in
              (tr', clock', OutOfFuel)).
Proof.
  induction 1 as [|job jobs Hjob Hjobs IH]; intros tr slots failure outs; simpl.
  - apply grows_refl.
  - specialize (Hjob tr (earliest slots)).
    destruct (job tr (earliest slots)) as [[tr' finish] o]. destruct Hjob as (d & Hd).
    simpl in Hd. subst tr'.
    destruct o; try (exists d; reflexivity).
    + apply grows_app with (d := d). apply IH.
    + destruct ff; [exists d; reflexivity|]. apply grows_app with (d := d). apply IH.
    + destruct ff; [exists d; reflexivity|].
      destruct (hold _ _) as [|s0 free]; [exists d; reflexivity|].
      pose proof (drain_grows jobs Hjobs (tr ++ d) (s0 :: free) finish) as Hd.
      destruct (drain _ _ _ _) as [tr2 clock2].
      apply grows_app with (d := d). exact Hd.
Qed.

Lemma step_grows (self : Run) (E : Env) :
  (forall X g cur input tr clock, grows tr (self X g cur input tr clock)) ->
  forall X g cur input tr clock, grows tr (step self E X g cur input tr clock).
Proof.
  intros Hself X g cur input tr clock. unfold step.
  destruct (expired (deadline X) clock); [apply grows_refl|].
  destruct (find_state cur g) as [s|]; [|apply grows_refl].
  assert (Hgoto : forall next out d clock1,
             grows tr match next with
                      | Some n => self X g n out (tr ++ d) clock1
                      | None => (tr ++ d, clock1, Succeeded out)
                      end).
  { intros [n|] out d clock1; eapply grows_app; [apply Hself|apply grows_refl]. }
  assert (Hraise : forall catch e c d clock1,
             grows tr match catch with
                      | Some h => self X g h (error_output e c) (tr ++ d) clock1
                      | None => (tr ++ d, clock1, Failed e c)
                      end).
  { intros [h|] e c d clock1; eapply grows_app; [apply Hself|apply grows_refl]. }
  assert (Hfinish : forall catch next raw rs rp u d clock1,
             grows tr match task_output (context X cur clock) u input raw rs rp with
                      | Some out =>
                          match next with
                          | Some n => self X g n out (tr ++ d) clock1
                          | None => (tr ++ d, clock1, Succeeded out)
                          end
                      | None =>
                          match selected (context X cur clock) u raw rs with
                          | Some _ =>
                              match catch with
                              | Some h =>
                                  self X g h
                                    (error_output "States.ResultPathMatchFailure" cur)
                                    (tr ++ d) clock1
                              | None =>
                                  (tr ++ d, clock1,
                                   Failed "States.ResultPathMatchFailure" cur)
                              end
                          | None => (tr ++ d, clock1, RuntimeError cur)
                          end
                      end).
  { intros. destruct (task_output _ _ _ _ _ _); [apply Hgoto|].
    destruct (selected _ _ _ _); [apply Hraise|eapply grows_app, grows_refl]. }
  assert (Hjoined : forall catch next jobs mc,
             Forall growing jobs ->
             grows tr
               (let '(tr1, clock1, j) :=
                  fan_out (failFast E) mc jobs (tr ++ [StateEntered clock cur]) clock in
                match j with
                | AllDone outs =>
                    match next with
                    | Some n => self X g n (JArr outs) tr1 clock1
                    | None => (tr1, clock1, Succeeded (JArr outs))
                    end
                | OneFailed e c =>
                    match catch with
                    | Some h => self X g h (error_output e c) tr1 clock1
                    | None => (tr1, clock1, Failed e c)
                    end
                | Stopped o => (tr1, clock1, o)
                end)).
  { intros catch next jobs mc Hjobs. unfold fan_out.
    pose proof (join_grows (failFast E) jobs Hjobs (tr ++ [StateEntered clock cur])
                  (repeat clock (lanes mc (List.length jobs))) None []) as Hj.
    destruct (join _ _ _ _ _ _) as [[tr1 clock1] j].
    destruct Hj as (d & Hd). simpl in Hd. subst tr1. rewrite <- app_assoc.
    destruct j; [apply Hgoto|apply Hraise|eapply grows_app, grows_refl]. }
  destruct s as [result parameters next
                | resource rs rp tt catch next
                | choices other
                | seconds next
                | e c
                | ip itp mc proc catch next
                | branches catch next].
  - destruct (match parameters with Some t => _ | None => _ end);
      [apply Hgoto|eapply grows_app, grows_refl].
  - destruct resource as [service action parameters|fn payload|child].
    + destruct (eval_template _ _ _ _); [|eapply grows_app, grows_refl].
      rewrite <- app_assoc. destruct (provider E _ _); [apply Hfinish|apply Hraise].
    + destruct (eval_template _ _ _ _); [|eapply grows_app, grows_refl].
      rewrite <- app_assoc. destruct (provider E _ _); [apply Hfinish|apply Hraise].
    + rewrite <- app_assoc.
      match goal with
      | |- context [self ?X' ?g' ?s' ?i' ?t' ?c'] =>
          pose proof (Hself X' g' s' i' t' c') as Hc;
          destruct (self X' g' s' i' t' c') as [[tr1 clock1] o]
      end.
      destruct Hc as (d & Hd). simpl in Hd. subst tr1. rewrite <- !app_assoc.
      destruct o; rewrite <- ?app_assoc;
        [apply Hfinish|apply Hraise|apply Hraise|eapply grows_app, grows_refl
        |apply Hraise].
  - induction choices as [|[c n] l IH].
    + eapply grows_app, Hself.
    + destruct (eval_condition input c) as [[|]|];
        [eapply grows_app, Hself|exact IH|eapply grows_app, grows_refl].
  - destruct (deadline X) as [d|]; [destruct (Nat.leb d (clock + seconds))|];
      [eapply grows_app, grows_refl|apply Hgoto|apply Hgoto].
  - eapply grows_app, grows_refl.
  - destruct (match at_path input ip with Some eff => _ | None => _ end) as [[| | | | items |]|];
      try (eapply grows_app, grows_refl).
    apply Hjoined. apply Forall_forall. intros job Hin.
    apply in_map_iff in Hin. destruct Hin as (item & <- & _). intros tr' clock'. apply Hself.
  - apply Hjoined. apply Forall_forall. intros job Hin.
    apply in_map_iff in Hin. destruct Hin as (b & <- & _). intros tr' clock'. apply Hself.
Qed.

Lemma exec_grows (fuel : nat) (E : Env) (X : Execution) (g : list (string * State))
  (cur : string) (input : json) (tr : list Event) (clock : nat) :
  grows tr (exec fuel E X g cur input tr clock).
Proof.
  revert X g cur input tr clock. induction fuel as [|f IH]; intros.
  - apply grows_refl.
  - rewrite exec_S. apply step_grows. exact IH.
Qed.



(** *** Fan-out in general *)

Lemma drain_fanned (A : Type) (P : A -> list Event -> Outcome -> Prop)
  (run : A -> Job) :
  (forall a tr clock, exists d clock' o, run a tr clock = (tr ++ d, clock', o) /\ P a d o) ->
  forall (l : list A) (tr : list Event) (slots : list nat) (clock : nat),
  exists d clock' b,
    drain (map run l) tr slots clock = (tr ++ d, clock') /\ fanned P l d b.
Proof.
  intros Hrun. induction l as [|a l IH]; intros tr slots clock.
  - exists [], clock, true. cbn [map drain]. rewrite app_nil_r.
    split; [reflexivity|constructor].
  - cbn [map drain].
    destruct (Hrun a tr (earliest slots)) as (d & finish & o & Hr & HP). rewrite Hr.
    assert (Hon : forall slots' clock1,
               exists d' clock' b,
                 drain (map run l) (tr ++ d) slots' clock1 = (tr ++ d', clock')
                 /\ fanned P (a :: l) d' b).
    { intros slots' clock1.
      destruct (IH (tr ++ d) slots' clock1) as (ds & clock' & b & Hj & Hf).
      exists (d ++ ds), clock', (succeeded o && b). rewrite Hj, app_assoc.
      split; [reflexivity|constructor; assumption]. }
    destruct o as [out|e c| | |s].
    + apply Hon.
    + destruct (hold _ _) as [|s0 free]; [|apply Hon].
      exists d, (Nat.max clock finish), false.
      split; [reflexivity|apply fanned_cut with (o := Failed e c); auto].
    + exists d, (Nat.max clock finish), false.
      split; [reflexivity|apply fanned_cut with (o := TimedOut); auto].
    + exists d, (Nat.max clock finish), false.
      split; [reflexivity|apply fanned_cut with (o := OutOfFuel); auto].
    + destruct (hold _ _) as [|s0 free]; [|apply Hon].
      exists d, (Nat.max clock finish), false.
      split; [reflexivity|apply fanned_cut with (o := RuntimeError s); auto].
Qed.

Lemma join_fanned (A : Type) (P : A -> list Event -> Outcome -> Prop)
  (run : A -> Job) (ff : bool) :
  (forall a tr clock, exists d clock' o, run a tr clock = (tr ++ d, clock', o) /\ P a d o) ->
  forall (l : list A) (tr : list Event) (slots : list nat)
         (failure : option (string * string)) (outs : list json),
  exists d clock' j b,
    join ff (map run l) tr slots failure outs = (tr ++ d, clock', j)
    /\ fanned P l d b
    /\ match j with
       | AllDone _ => b = true /\ failure = None
       | OneFailed _ _ => True
       | Stopped o => succeeded o = false
       end.
Proof.
  intros Hrun. induction l as [|a l IH]; intros tr slots failure outs.
  - exists [], (list_max slots),
      (match failure with Some (e, c) => OneFailed e c | None => AllDone outs end), true.
    cbn [map join]. rewrite app_nil_r. split; [reflexivity|]. split; [constructor|].
    destruct failure as [[e c]|]; auto.
  - cbn [map join].
    destruct (Hrun a tr (earliest slots)) as (d & finish & o & Hr & HP). rewrite Hr.
    destruct o as [out|e c| | |s].
    + edestruct IH as (ds & clock' & j & b & Hj & Hf & Hres). rewrite Hj.
      exists (d ++ ds), clock', j, (succeeded (Succeeded out) && b).
      rewrite app_assoc. split; [reflexivity|]. split; [constructor; assumption|].
      destruct j; auto.
    + destruct ff.
      * exists d, finish, (OneFailed e c), false.
        split; [reflexivity|]. split; [apply fanned_cut with (o := Failed e c); auto|exact I].
      * edestruct IH as (ds & clock' & j & b & Hj & Hf & Hres). rewrite Hj.
        exists (d ++ ds), clock', j, (succeeded (Failed e c) && b).
        rewrite app_assoc. split; [reflexivity|]. split; [constructor; assumption|].
        destruct j; auto. destruct Hres as (_ & Hfail). destruct failure; discriminate.
    + exists d, finish, (Stopped TimedOut), false.
      split; [reflexivity|]. split; [apply fanned_cut with (o := TimedOut); auto|reflexivity].
    + exists d, finish, (Stopped OutOfFuel), false.
      split; [reflexivity|]. split; [apply fanned_cut with (o := OutOfFuel); auto|reflexivity].
    + assert (Hcut : exists d' clock' j b,
                 (tr ++ d, finish, Stopped (RuntimeError s)) = (tr ++ d', clock', j)
                 /\ fanned P (a :: l) d' b
                 /\ match j with
                    | AllDone _ => b = true /\ failure = None
                    | OneFailed _ _ => True
                    | Stopped o => succeeded o = false
                    end).
      { exists d, finish, (Stopped (RuntimeError s)), false.
        split; [reflexivity|].
        split; [apply fanned_cut with (o := RuntimeError s); auto|reflexivity]. }
      destruct ff; [exact Hcut|].
      destruct (hold _ _) as [|s0 free]; [exact Hcut|].
      destruct (drain_fanned A P run Hrun l (tr ++ d) (s0 :: free) finish)
        as (ds & clock' & b & Hj & Hf).
      rewrite Hj.
      exists (d ++ ds), clock', (Stopped (RuntimeError s)),
        (succeeded (RuntimeError s) && b).
      rewrite app_assoc. split; [reflexivity|].
      split; [constructor; assumption|reflexivity].
Qed.

Lemma fanned_Forall (A : Type) (P : A -> list Event -> Outcome -> Prop)
  (Q : Event -> Prop) (l : list A) (d : list Event) (b : bool) :
  (forall a d' o, In a l -> P a d' o -> Forall Q d') ->
  fanned P l d b -> Forall Q d.
Proof.
  intros HQ H. induction H as [|a l d o ds b HP _ IH|a l d o HP _].
  - constructor.
  - apply Forall_app. split; [eapply HQ; [left; reflexivity|eassumption]|].
    apply IH. intros a' d' o' Hin. apply HQ. right; assumption.
  - eapply HQ; [left; reflexivity|eassumption].
Qed.

(** When every item succeeded, the calls of the fan-out are those of
    the items. *)
Lemma fanned_calls (A : Type) (P : A -> list Event -> Outcome -> Prop)
  (sel : list Event -> list Call) (expect : A -> list Call)
  (l : list A) (d : list Event) :
  (forall a b, sel (a ++ b) = sel a ++ sel b) -> sel [] = [] ->
  (forall a d' o, P a d' o -> succeeded o = true -> sel d' = expect a) ->
  fanned P l d true -> sel d = flat_map expect l.
Proof.
  intros Happ Hnil HP H.
  assert (Hgen : forall b, fanned P l d b -> b = true -> sel d = flat_map expect l).
  { clear H. intros b H.
    induction H as [|a l d o ds b HPa _ IH|a l d o HPa Ho]; intros Hb; try discriminate.
    - exact Hnil.
    - apply andb_true_iff in Hb. destruct Hb as (Ho & ->).
      rewrite Happ. simpl. rewrite (HP a d o HPa Ho), IH; reflexivity. }
  eauto.
Qed.

(** *** JSON paths *)

Lemma get_path_app (root cur : json) (p q : path) :
  get_path root cur (p ++ q)
  = match get_path root cur p with
    | Some v => get_path root v q
    | None => None
    end.
Proof.
  revert cur. induction p as [|s p IH]; intros cur; [reflexivity|].
  destruct s as [k|i|l r]; simpl.
  - destruct cur; try reflexivity. destruct (lookup k o); [apply IH|reflexivity].
  - destruct cur; try reflexivity. destruct (nth_error l i); [apply IH|reflexivity].
  - destruct cur; try reflexivity. apply IH.
Qed.

Lemma lookup_set_key_other (k k' : string) (v : json) (o : list (string * json)) :
  k <> k' -> lookup k (set_key k' v o) = lookup k o.
Proof.
  intros Hk. induction o as [|[k0 v0] o IH]; simpl.
  - destruct (String.eqb_spec k k'); [contradiction|reflexivity].
  - destruct (String.eqb_spec k' k0) as [->|Hk0]; simpl.
    + destruct (String.eqb_spec k k0); [contradiction|reflexivity].
    + destruct (String.eqb k k0); [reflexivity|exact IH].
Qed.


Section Failover.
Variables (E : Env) (X : Execution) (f : nat) (g : list (string * State)).
Hypothesis no_deadline : deadline X = None.
Hypothesis task :
  find_state "ReplaceRouteTask" g
  = Some (snd (StepFunctionsTasks.getReplaceRouteWithNatGatewayTask "ReplaceRouteTask")).

Lemma failover_item (z : AzConfiguration) (tr : list Event) (clock : nat) :
  exec (S f) E X g "ReplaceRouteTask" (az_json z) tr clock =
  let res := provider E (tr ++ [StateEntered clock "ReplaceRouteTask"]) (route_to_gateway z) in
  (tr ++ [StateEntered clock "ReplaceRouteTask";
          TaskCalled clock "ReplaceRouteTask" (route_to_gateway z) res],
   clock,
   match res with Ok raw => Succeeded raw | Err e c => Failed e c end).
Proof.
  rewrite exec_S. unfold step. rewrite no_deadline, task. simpl.
  unfold route_to_gateway.
  destruct (provider E _ _); rewrite <- app_assoc; reflexivity.
Qed.

Lemma failover_items (ff : bool) (clock n : nat) (azs : list AzConfiguration) :
  forall (tr : list Event) (failure : option (string * string)) (outs : list json),
  exists delta j,
    join ff (map (fun item => exec (S f) E X g "ReplaceRouteTask" item) (map az_json azs))
         tr (repeat clock (S n)) failure outs
    = (tr ++ delta, clock, j)
    /\ Forall (route_event E) delta
    /\ match j with
       | AllDone _ =>
           failure = None /\ all_ok delta = true
           /\ calls delta = map route_to_gateway azs
       | OneFailed _ _ => failure <> None \/ all_ok delta = false
       | Stopped _ => False
       end.
Proof.
  induction azs as [|z azs IH]; intros tr failure outs.
  - exists [], (match failure with Some (e, c) => OneFailed e c | None => AllDone outs end).
    cbn [map join]. rewrite list_max_repeat, app_nil_r.
    split; [reflexivity|]. split; [constructor|].
    destruct failure as [[e c]|]; [left; discriminate|auto].
  - cbn [map join]. rewrite earliest_repeat, failover_item. cbv zeta.
    destruct (provider E _ _) as [raw|e c] eqn:P.
    + rewrite occupy_same.
      destruct (IH (tr ++ [StateEntered clock "ReplaceRouteTask";
          TaskCalled clock "ReplaceRouteTask" (route_to_gateway z) (Ok raw)]) failure (outs ++ [raw]))
        as (delta & j & Hj & Hev & Hres).
      eexists (_ :: _ :: delta), j. rewrite Hj, <- app_assoc. split; [reflexivity|].
      split; [repeat constructor; eauto|].
      destruct j; simpl; try assumption.
      destruct Hres as (? & ? & ->). auto.
    + destruct ff.
      * eexists [_; _], _. split; [reflexivity|].
        split; [repeat constructor; eauto|]. right; reflexivity.
      * rewrite occupy_same.
        edestruct IH as (delta & j & Hj & Hev & Hres).
        eexists (_ :: _ :: delta), j. rewrite Hj, <- app_assoc. split; [reflexivity|].
        split; [repeat constructor; eauto|].
        destruct j; simpl; auto.
        destruct Hres as (Hf & _). destruct failure; discriminate.
Qed.
End Failover.

Lemma failover_run (E : Env) (X : Execution) (f : nat) (azs : list AzConfiguration)
  (input : json) (tr : list Event) (clock : nat) :
  deadline X = None ->
  exists delta out,
    exec (S (S (S f))) E X (states (definitionBody (failoverStateMachine azs)))
         "GetAZConfigurations" input tr clock
    = (tr ++ delta, clock, out)
    /\ Forall (route_event E) delta
    /\ match out with
       | Succeeded _ => all_ok delta = true /\ calls delta = map route_to_gateway azs
       | Failed e c => e = "Failover" /\ c = "Failover" /\ all_ok delta = false
       | _ => False
       end.
Proof.
  intros HX.
  rewrite exec_S. unfold step. rewrite HX. simpl.
  rewrite exec_S. unfold step. rewrite HX. simpl.
  unfold fan_out. change (repeat clock (lanes 6 _)) with (repeat clock 6).
  destruct (failover_items E X f
              [StepFunctionsTasks.getReplaceRouteWithNatGatewayTask "ReplaceRouteTask"]
              HX eq_refl (failFast E) clock 5 azs
              ((tr ++ [StateEntered clock "GetAZConfigurations"]) ++
                 [StateEntered clock "MapOfAZConfigurations"]) None [])
    as (delta & j & Hj & Hev & Hres).
  rewrite Hj. rewrite <- !app_assoc. simpl.
  destruct j as [outs|e c|o]; [| |contradiction].
  - eexists _, _. split; [reflexivity|].
    destruct Hres as (_ & Hok & Hcalls).
    split; [repeat constructor; assumption|]. simpl. auto.
  - rewrite exec_S. unfold step. rewrite HX. simpl.
    eexists (_ :: _ :: delta ++ [_]), _. rewrite <- !app_assoc. simpl.
    split; [reflexivity|].
    split; [repeat constructor; apply Forall_app; split; [assumption|repeat constructor]|].
    repeat split. simpl. rewrite all_ok_app.
    destruct Hres as [H|H]; [congruence|rewrite H; reflexivity].
Qed.

Lemma answered_all_ok (E : Env) (P : Event -> Prop) (tr : list Event) :
  (forall h c, exists r, provider E h c = Ok r) ->
  Forall (fun e => match e with
                   | TaskCalled _ _ c r => exists h, r = provider E h c
                   | _ => True
                   end) tr ->
  all_ok tr = true.
Proof.
  intros Hp. induction 1 as [|e tr He _ IH]; [reflexivity|].
  destruct e as [| t s c r | |]; simpl; try assumption.
  destruct He as (h & ->). destruct (Hp h c) as (r & ->). assumption.
Qed.

(** C3.  Failover on any list of zones: a fresh execution, given
    fuel for its three nested steps, ends.  When every call was answered, the
    execution succeeded and its calls are exactly one default-route
    replacement per zone, in order, each pointing the private route
    table of the zone at the standby NAT gateway of the zone.  When
    some call failed, the execution is [Failed].  A provider that
    answers every call makes every call of the run succeed. *)
Theorem failover_routes_every_zone_to_its_gateway
  (f : nat) (E : Env) (azs : list AzConfiguration) (input : json) :
  exists tr clock out,
    start_execution (3 + f) E (failoverStateMachine azs) input [] 0 = (tr, clock, out)
    /\ (all_ok tr = true ->
        (exists o, out = Succeeded o) /\ calls tr = map route_to_gateway azs)
    /\ (all_ok tr = false -> out = Failed "Failover" "Failover")
    /\ ((forall h c, exists r, provider E h c = Ok r) -> all_ok tr = true).
Proof.
  unfold start_execution. simpl timeout. simpl option_map. simpl stateMachineName.
  destruct (failover_run E {| machine := "NATInstanceFailover"; id := executionId E [];
                               deadline := None |} f azs input
              ([] ++ [ExecutionStarted 0 "NATInstanceFailover"]) 0 eq_refl)
    as (delta & out & Hrun & Hev & Hout).
  change (startAt (definitionBody (failoverStateMachine azs))) with "GetAZConfigurations".
  change (3 + f) with (S (S (S f))).
  rewrite Hrun.
  assert (Hprov : (forall h c, exists r, provider E h c = Ok r) -> all_ok delta = true).
  { intros Hp. apply answered_all_ok with (E := E); [exact (fun _ => True)|assumption|].
    eapply Forall_impl; [|exact Hev]. intros [| ? ? ? ? | |]; simpl; tauto. }
  destruct out as [o|e c| | |s]; try contradiction.
  - destruct Hout as (Hok & Hcalls).
    eexists _, _, _. split; [reflexivity|].
    rewrite !all_ok_app, !calls_app. simpl. rewrite Hok, app_nil_r.
    repeat split; eauto. discriminate.
  - destruct Hout as (-> & -> & Hok).
    eexists _, _, _. split; [reflexivity|].
    rewrite !all_ok_app. simpl. rewrite Hok.
    repeat split; try discriminate. intros Hp. rewrite (Hprov Hp) in Hok. discriminate.
Qed.


Lemma lookup_set_key (k : string) (v : json) (o : list (string * json)) :
  lookup k (set_key k v o) = Some v.
Proof.
  induction o as [|[k' v'] o IH]; simpl.
  - rewrite String.eqb_refl. reflexivity.
  - destruct (String.eqb k k') eqn:H; simpl; rewrite ?String.eqb_refl, ?H; auto.
Qed.

Lemma filter_zones (root s : json) (azs : list AzConfiguration) :
  get_keys root ["PublicSubnetId"] = Some s ->
  filter (filter_matches root ["publicSubnetId"] ["PublicSubnetId"]) (map az_json azs)
  = map az_json (filter (in_subnet s) azs).
Proof.
  intros H. induction azs as [|z azs IH]; [reflexivity|].
  cbn [map filter]. rewrite IH.
  replace (filter_matches root ["publicSubnetId"] ["PublicSubnetId"] (az_json z))
    with (in_subnet s z).
  - destruct (in_subnet s z); reflexivity.
  - unfold filter_matches. rewrite H. reflexivity.
Qed.

Section Fallback.
Variables (E : Env) (X : Execution) (f : nat) (azs : list AzConfiguration).
Hypothesis no_deadline : deadline X = None.

Let g := fallbackItemProcessor azs.

Ltac outsides :=
  repeat (apply Forall_cons; [intros ? Hq; discriminate Hq|]); apply Forall_nil.

Lemma fallback_item (r : json) (tr : list Event) (clock : nat) :
  exists d out,
  exec (S (S (S f))) E X g "RawAZConfigurations" r tr clock = (tr ++ d, clock, out) /\
  match fallback_route azs r with
  | Some call =>
      let h := tr ++ [StateEntered clock "RawAZConfigurations";
                       StateEntered clock "GetDesiredRouteTableId";
                       StateEntered clock "ReplaceInstanceRouteTask"] in
      d = [StateEntered clock "RawAZConfigurations";
           StateEntered clock "GetDesiredRouteTableId";
           StateEntered clock "ReplaceInstanceRouteTask";
           TaskCalled clock "ReplaceInstanceRouteTask" call (provider E h call)]
      /\ out = match provider E h call with
               | Ok raw => Succeeded raw
               | Err e c => Failed e c
               end
  | None => entered_only d /\ exists c, out = RuntimeError c
  end
  /\ Forall (outside "Fallback") d.
Proof.
  unfold fallback_route, first_instance.
  rewrite exec_S. unfold step. rewrite no_deadline. simpl.
  destruct (at_path r [Key "Instances"; Idx 0; Key "InstanceId"]) as [i|] eqn:Hi;
    [|eexists [_], _; split; [reflexivity|]; split;
      [split; [repeat constructor|eauto]|outsides]].
  destruct (at_path r [Key "Instances"; Idx 0; Key "SubnetId"]) as [s|] eqn:Hs;
    [|eexists [_], _; split; [reflexivity|]; split;
      [split; [repeat constructor|eauto]|outsides]].
  rewrite exec_S. unfold step. rewrite no_deadline. simpl.
  unfold at_path. simpl. rewrite filter_zones with (s := s) by reflexivity.
  rewrite exec_S. unfold step. rewrite no_deadline. simpl.
  unfold at_path, zone_of. simpl.
  destruct (filter (in_subnet s) azs) as [|z zs] eqn:Hf.
  - simpl.
    assert (find (in_subnet s) azs = None) as ->.
    { clear - Hf. induction azs as [|a l IH]; [reflexivity|]. simpl in *.
      destruct (in_subnet s a); [discriminate|auto]. }
    eexists [_; _; _], _. rewrite <- !app_assoc. split; [reflexivity|].
    split; [split; [repeat constructor|eauto]|outsides].
  - assert (find (in_subnet s) azs = Some z) as ->.
    { clear - Hf. induction azs as [|a l IH]; [discriminate|]. simpl in *.
      destruct (in_subnet s a); [congruence|auto]. }
    simpl. rewrite <- !app_assoc. simpl.
    unfold route_to_instance.
    destruct (provider E _ _) eqn:P; eexists _, _; (split; [reflexivity|]);
      (split; [split; reflexivity|outsides]).
Qed.

Lemma fallback_event_cons (r : json) (rs : list json) (d : list Event) :
  Forall (fallback_event E azs rs) d -> Forall (fallback_event E azs (r :: rs)) d.
Proof.
  apply Forall_impl. intros [| ? ? c res | |]; simpl; auto.
  intros ((r' & Hin & Hr) & Hp). split; [exists r'; auto|assumption].
Qed.

Lemma hold_same (clock n : nat) : hold clock (repeat clock (S n)) = repeat clock n.
Proof. simpl. rewrite Nat.eqb_refl. reflexivity. Qed.

(** The items that run beside one that ended in a runtime error. *)
Lemma fallback_drained (clock : nat) (rs : list json) :
  forall (n : nat) (tr : list Event),
  exists delta,
    drain (map (fun item => exec (S (S (S f))) E X g "RawAZConfigurations" item) rs)
          tr (repeat clock (S n)) clock
    = (tr ++ delta, clock)
    /\ Forall (fallback_event E azs rs) delta
    /\ Forall (outside "Fallback") delta.
Proof.
  induction rs as [|r rs IH]; intros n tr.
  - exists []. cbn [map drain]. rewrite app_nil_r. repeat split; constructor.
  - cbn [map drain]. rewrite earliest_repeat, hold_same.
    destruct (fallback_item r tr clock) as (d & out & Hrun & Hd & Hout). rewrite Hrun.
    rewrite ?occupy_same, ?Nat.max_id.
    assert (Hev : Forall (fallback_event E azs (r :: rs)) d).
    { destruct (fallback_route azs r) as [call|] eqn:Hr.
      - cbv zeta in Hd. destruct Hd as (-> & _).
        repeat constructor; [exists r; simpl; auto|eauto].
      - destruct Hd as (Hcalls & _).
        eapply Forall_impl; [|exact Hcalls]. intros [| | |]; simpl; tauto. }
    assert (Hon : forall m, exists delta,
               drain (map (fun item => exec (S (S (S f))) E X g "RawAZConfigurations" item) rs)
                     (tr ++ d) (repeat clock (S m)) clock
               = (tr ++ delta, clock)
               /\ Forall (fallback_event E azs (r :: rs)) delta
               /\ Forall (outside "Fallback") delta).
    { intros m. destruct (IH m (tr ++ d)) as (delta & Hj & Hevs & Ho).
      exists (d ++ delta). rewrite Hj, app_assoc. split; [reflexivity|].
      split; apply Forall_app; split; auto. apply fallback_event_cons, Hevs. }
    assert (Hcut : exists delta,
               (tr ++ d, clock) = (tr ++ delta, clock)
               /\ Forall (fallback_event E azs (r :: rs)) delta
               /\ Forall (outside "Fallback") delta).
    { exists d. auto. }
    destruct out as [out|e c| | |st].
    + apply Hon.
    + destruct n as [|n]; [exact Hcut|apply Hon].
    + exact Hcut.
    + exact Hcut.
    + destruct n as [|n]; [exact Hcut|apply Hon].
Qed.

(** The items of the map of Fallback: every call is the one owed to
    a listed reservation; a reservation without route ends the step
    with a runtime error. *)
Lemma fallback_items (ff : bool) (clock n : nat) (rs : list json) :
  forall (tr : list Event) (failure : option (string * string)) (outs : list json),
  exists delta j,
    join ff (map (fun item => exec (S (S (S f))) E X g "RawAZConfigurations" item) rs)
         tr (repeat clock (S n)) failure outs
    = (tr ++ delta, clock, j)
    /\ Forall (fallback_event E azs rs) delta
    /\ Forall (outside "Fallback") delta
    /\ match j with
       | AllDone _ =>
           failure = None /\ all_ok delta = true
           /\ map Some (calls delta) = map (fallback_route azs) rs
       | OneFailed _ _ => failure <> None \/ all_ok delta = false
       | Stopped o =>
           (exists c, o = RuntimeError c)
           /\ exists r, In r rs /\ fallback_route azs r = None
       end.
Proof.
  induction rs as [|r rs IH]; intros tr failure outs.
  - exists [], (match failure with Some (e, c) => OneFailed e c | None => AllDone outs end).
    cbn [map join]. rewrite list_max_repeat, app_nil_r.
    split; [reflexivity|]. split; [constructor|]. split; [constructor|].
    destruct failure as [[e c]|]; [left; discriminate|auto].
  - cbn [map join]. rewrite earliest_repeat.
    destruct (fallback_item r tr clock) as (d & out & Hrun & Hd & Hout). rewrite Hrun.
    destruct (fallback_route azs r) as [call|] eqn:Hr.
    + cbv zeta in Hd. destruct Hd as (-> & ->).
      destruct (provider E _ call) as [raw|e c] eqn:P.
      * rewrite occupy_same.
        edestruct IH as (delta & j & Hj & Hev & Ho & Hres). rewrite Hj.
        eexists (_ ++ delta), j. rewrite <- app_assoc. split; [reflexivity|].
        split.
        { simpl. repeat constructor; [exists r; simpl; auto|eauto|].
          apply fallback_event_cons, Hev. }
        split; [apply Forall_app; split; assumption|].
        destruct j; simpl.
        -- destruct Hres as (? & ? & ?). repeat split; auto. congruence.
        -- exact Hres.
        -- destruct Hres as (? & r' & ? & ?). eauto 6.
      * destruct ff.
        -- eexists _, _. split; [reflexivity|]. split.
           { repeat constructor; [exists r; simpl; auto|eauto]. }
           split; [assumption|].
           right. reflexivity.
        -- rewrite occupy_same.
           edestruct IH as (delta & j & Hj & Hev & Ho & Hres). rewrite Hj.
           eexists (_ ++ delta), j. rewrite <- app_assoc. split; [reflexivity|].
           split.
           { simpl. repeat constructor; [exists r; simpl; auto|eauto|].
             apply fallback_event_cons, Hev. }
           split; [apply Forall_app; split; assumption|].
           destruct j; simpl; auto.
           ++ destruct Hres as (Hf & _). destruct failure; discriminate.
           ++ destruct Hres as (? & r' & ? & ?). eauto 6.
    + destruct Hd as (Hcalls & c & ->).
      assert (Hnone : Forall (fallback_event E azs (r :: rs)) d).
      { eapply Forall_impl; [|exact Hcalls]. intros [| | |]; simpl; tauto. }
      assert (Hcut : exists delta j,
                 (tr ++ d, clock, Stopped (RuntimeError c)) = (tr ++ delta, clock, j)
                 /\ Forall (fallback_event E azs (r :: rs)) delta
                 /\ Forall (outside "Fallback") delta
                 /\ match j with
                    | AllDone _ =>
                        failure = None /\ all_ok delta = true
                        /\ map Some (calls delta) = None :: map (fallback_route azs) rs
                    | OneFailed _ _ => failure <> None \/ all_ok delta = false
                    | Stopped o =>
                        (exists c, o = RuntimeError c)
                        /\ exists r', In r' (r :: rs) /\ fallback_route azs r' = None
                    end).
      { eexists d, _. split; [reflexivity|]. split; [assumption|].
        split; [assumption|]. split; [eauto|]. exists r; simpl; auto. }
      destruct ff; [exact Hcut|].
      rewrite hold_same. destruct n as [|n]; [exact Hcut|].
      destruct (fallback_drained clock rs n (tr ++ d)) as (delta & Hj & Hev & Ho).
      change (repeat clock (S n)) with (clock :: repeat clock n) in Hj.
      cbn [repeat]. rewrite Hj.
      exists (d ++ delta), (Stopped (RuntimeError c)). rewrite app_assoc.
      split; [reflexivity|].
      split; [apply Forall_app; split; [assumption|apply fallback_event_cons, Hev]|].
      split; [apply Forall_app; split; assumption|].
      split; [eauto|]. exists r; simpl; auto.
Qed.
End Fallback.

Lemma fallback_run (E : Env) (X : Execution) (f : nat) (azs : list AzConfiguration)
  (o : list (string * json)) (listing : json) (rs : list json)
  (tr : list Event) (clock : nat) :
  deadline X = None ->
  (forall h, provider E h describe_instances = Ok listing) ->
  reservations listing = Some rs ->
  exists d tail out,
    exec (S (S (S (S (S f))))) E X (states (definitionBody (fallbackStateMachine azs)))
         "GetRunningNatInstancesTask" (JObj o) tr clock
    = (tr ++ [StateEntered clock "GetRunningNatInstancesTask";
              TaskCalled clock "GetRunningNatInstancesTask" describe_instances (Ok listing);
              StateEntered clock "Instances"] ++ d ++ tail, clock, out)
    /\ Forall (fallback_event E azs rs) d
    /\ Forall (outside "Fallback") d
    /\ match out with
       | Succeeded _ =>
           tail = [] /\ all_ok d = true
           /\ map Some (calls d) = map (fallback_route azs) rs
       | Failed e c =>
           e = "Fallback" /\ c = "Fallback" /\ tail = [StateEntered clock "Fallback"]
           /\ all_ok d = false
       | RuntimeError _ =>
           tail = [] /\ exists r, In r rs /\ fallback_route azs r = None
       | _ => False
       end.
Proof.
  intros HX Hp Hrs.
  rewrite exec_S. unfold step. rewrite HX. simpl.
  change (AwsSdk _ _ _) with describe_instances. rewrite Hp. simpl.
  rewrite exec_S. unfold step. rewrite HX. simpl.
  unfold at_path. simpl. rewrite lookup_set_key.
  destruct listing as [| | | | |lo]; try discriminate. simpl in Hrs.
  destruct (lookup "Reservations" lo) as [[| | | |rs'|]|]; try discriminate.
  injection Hrs as ->.
  unfold fan_out. change (repeat clock (lanes 6 _)) with (repeat clock 6).
  edestruct (fallback_items E X f azs HX (failFast E) clock 5 rs)
    as (d & j & Hj & Hev & Ho & Hres).
  unfold fallbackItemProcessor, processor_of in Hj. simpl in Hj. rewrite Hj.
  destruct j as [outs|e c|out].
  - exists d, [], (Succeeded (JArr outs)). rewrite app_nil_r, <- !app_assoc. simpl.
    split; [reflexivity|]. split; [assumption|]. split; [assumption|].
    destruct Hres as (_ & ? & ?). auto.
  - rewrite exec_S. unfold step. rewrite HX. simpl.
    eexists d, [_], _. rewrite <- !app_assoc. simpl.
    split; [reflexivity|]. split; [assumption|]. split; [assumption|].
    repeat split. destruct Hres as [?|?]; [congruence|assumption].
  - destruct Hres as ((c & ->) & Hr).
    exists d, [], (RuntimeError c). rewrite app_nil_r, <- !app_assoc. simpl.
    split; [reflexivity|]. split; [assumption|]. split; [assumption|]. auto.
Qed.

Lemma start_fallback (E : Env) (f : nat) (azs : list AzConfiguration)
  (o : list (string * json)) (listing : json) (rs : list json) :
  (forall h, provider E h describe_instances = Ok listing) ->
  reservations listing = Some rs ->
  exists d out,
    start_execution (5 + f) E (fallbackStateMachine azs) (JObj o) [] 0
    = ([ExecutionStarted 0 "NATInstanceFallback";
        StateEntered 0 "GetRunningNatInstancesTask";
        TaskCalled 0 "GetRunningNatInstancesTask" describe_instances (Ok listing);
        StateEntered 0 "Instances"] ++ d ++ fallback_end out, 0, out)
    /\ Forall (fallback_event E azs rs) d
    /\ Forall (outside "Fallback") d
    /\ match out with
       | Succeeded _ =>
           all_ok d = true /\ map Some (calls d) = map (fallback_route azs) rs
       | Failed e c => e = "Fallback" /\ c = "Fallback" /\ all_ok d = false
       | RuntimeError _ => exists r, In r rs /\ fallback_route azs r = None
       | _ => False
       end.
Proof.
  intros Hp Hrs. unfold start_execution.
  change (5 + f) with (S (S (S (S (S f))))).
  edestruct (fallback_run E {| machine := "NATInstanceFallback"; id := executionId E [];
                               deadline := None |} f azs o listing rs
              ([] ++ [ExecutionStarted 0 "NATInstanceFallback"]) 0 eq_refl Hp Hrs)
    as (d & tail & out & Hrun & Hev & Ho & Hout).
  simpl timeout. simpl option_map. simpl stateMachineName.
  change (startAt (definitionBody (fallbackStateMachine azs)))
    with "GetRunningNatInstancesTask".
  rewrite Hrun. exists d, out.
  destruct out as [o'|e c| | |st]; try contradiction.
  - destruct Hout as (-> & ? & ?). rewrite app_nil_r, <- ?app_assoc. simpl.
    repeat split; assumption.
  - destruct Hout as (-> & -> & -> & ?). rewrite <- ?app_assoc. simpl.
    rewrite <- ?app_assoc. simpl. repeat split; assumption.
  - destruct Hout as (-> & ?). rewrite app_nil_r, <- ?app_assoc. simpl.
    repeat split; assumption.
Qed.

Lemma mutations_fallback_prefix (listing : json) (d rest : list Event) :
  mutations ([ExecutionStarted 0 "NATInstanceFallback";
              StateEntered 0 "GetRunningNatInstancesTask";
              TaskCalled 0 "GetRunningNatInstancesTask" describe_instances (Ok listing);
              StateEntered 0 "Instances"] ++ d ++ rest)
  = mutations d ++ mutations rest.
Proof. rewrite !mutations_app. reflexivity. Qed.

Lemma fallback_event_calls (E : Env) (azs : list AzConfiguration) (rs : list json)
  (d : list Event) :
  Forall (fallback_event E azs rs) d ->
  mutations d = calls d
  /\ forall c, In c (calls d) -> exists r, In r rs /\ fallback_route azs r = Some c.
Proof.
  induction 1 as [|e d He _ (IHm & IHc)]; [split; [reflexivity|contradiction]|].
  destruct e as [| t s c res | |]; simpl in He; try contradiction; [auto|].
  destruct He as ((r & Hin & Hr) & _).
  assert (Hm : mutation c = true).
  { unfold fallback_route in Hr. destruct (first_instance r) as [[i su]|]; [|discriminate].
    destruct (zone_of azs su); [|discriminate]. injection Hr as <-. reflexivity. }
  split.
  - unfold mutations in *. simpl. rewrite Hm, IHm. reflexivity.
  - simpl. intros c' [<-|Hc]; eauto.
Qed.

Lemma all_ok_without_calls (d : list Event) : calls d = [] -> all_ok d = true.
Proof.
  induction d as [|e d IH]; [reflexivity|].
  destruct e; simpl; try exact IH. discriminate.
Qed.

Lemma fallback_history (listing : json) (d : list Event) (out : Outcome) :
  mutations d = calls d ->
  let tr := [ExecutionStarted 0 "NATInstanceFallback";
             StateEntered 0 "GetRunningNatInstancesTask";
             TaskCalled 0 "GetRunningNatInstancesTask" describe_instances (Ok listing);
             StateEntered 0 "Instances"] ++ d ++ fallback_end out in
  mutations tr = calls d /\ all_ok tr = all_ok d.
Proof.
  intros Hm tr. unfold tr. split.
  - rewrite mutations_fallback_prefix, Hm. destruct out; simpl; apply app_nil_r.
  - rewrite !all_ok_app. simpl. destruct out; simpl; apply andb_true_r.
Qed.


(** C9, amended.  Fallback with a running instance whose subnet is
    the public subnet of no zone: the equality filter over the zones
    yields the empty list; the item of that instance enters its three
    states and stops at [ReplaceInstanceRouteTask] with a runtime
    error, before any call is made; the execution does not succeed:
    either a call failed before and the catch of the map led to the
    [Fallback] fail state, or the execution fails by the runtime
    error, which no catch handles, and the [Fallback] fail state is not
    entered.  There is no skip-and-continue: the execution does not
    succeed, and each route replacement of the run is the one owed to
    a listed reservation, which the one in no zone is not. *)
Theorem fallback_fails_on_instance_outside_every_zone
  (f : nat) (E : Env) (azs : list AzConfiguration) (o : list (string * json))
  (listing : json) (rs : list json) (r i s : json) :
  (forall h, provider E h describe_instances = Ok listing) ->
  reservations listing = Some rs ->
  In r rs -> first_instance r = Some (i, s) -> zone_of azs s = None ->
  let doc := JObj [("InstanceId", i); ("PublicSubnetId", s);
                   ("AzConfigurations", JObj [("value", JArr (map az_json azs))])] in
  let item := fallbackItemProcessor azs in
  at_path doc [Key "AzConfigurations"; Key "value";
               FilterEq ["publicSubnetId"] ["PublicSubnetId"]] = Some (JArr [])
  /\ (forall X tr clock, deadline X = None ->
      exec 3 E X item "RawAZConfigurations" r tr clock
      = (tr ++ [StateEntered clock "RawAZConfigurations";
                StateEntered clock "GetDesiredRouteTableId";
                StateEntered clock "ReplaceInstanceRouteTask"], clock,
         RuntimeError "ReplaceInstanceRouteTask"))
  /\ exists tr clock out,
      start_execution (5 + f) E (fallbackStateMachine azs) (JObj o) [] 0
      = (tr, clock, out)
      /\ ((out = Failed "Fallback" "Fallback" /\ all_ok tr = false)
          \/ ((exists state, out = RuntimeError state)
              /\ forall t, ~ In (StateEntered t "Fallback") tr))
      /\ (forall o', out <> Succeeded o')
      /\ fallback_route azs r = None
      /\ forall c, In c (mutations tr) ->
         exists r', In r' rs /\ r' <> r /\ fallback_route azs r' = Some c.
Proof.
  intros Hp Hrs Hin Hfirst Hzone doc item.
  assert (Hfilter : filter (in_subnet s) azs = []).
  { clear - Hzone. unfold zone_of in Hzone. induction azs as [|a l IH]; [reflexivity|].
    simpl in *. destruct (in_subnet s a); [discriminate|auto]. }
  split; [|split].
  - unfold at_path, doc. simpl. rewrite filter_zones with (s := s) by reflexivity.
    rewrite Hfilter. reflexivity.
  - intros X tr clock HX. unfold first_instance in Hfirst.
    destruct (at_path r [Key "Instances"; Idx 0; Key "InstanceId"]) as [i'|] eqn:Hi;
      [|discriminate].
    destruct (at_path r [Key "Instances"; Idx 0; Key "SubnetId"]) as [s'|] eqn:Hs;
      [|discriminate].
    injection Hfirst as -> ->.
    rewrite exec_S. unfold step. rewrite HX. simpl. rewrite Hi, Hs.
    rewrite exec_S. unfold step. rewrite HX. simpl.
    unfold at_path. simpl. rewrite filter_zones with (s := s) by reflexivity.
    rewrite Hfilter.
    rewrite exec_S. unfold step. rewrite HX. simpl.
    rewrite <- !app_assoc. reflexivity.
  - destruct (start_fallback E f azs o listing rs Hp Hrs)
      as (d & out & Hrun & Hev & Ho & Hout).
    destruct (fallback_event_calls E azs rs d Hev) as (Hm & Hc).
    destruct (fallback_history listing d out Hm) as (Hmut & Hok).
    assert (Hr : fallback_route azs r = None).
    { unfold fallback_route. rewrite Hfirst, Hzone. reflexivity. }
    assert (Hns : forall o', out <> Succeeded o').
    { intros o' ->. destruct Hout as (_ & Hcalls).
      clear - Hcalls Hin Hr. revert Hcalls. generalize (calls d).
      induction rs as [|r' rs' IH]; [contradiction|].
      intros [|c l] H; [discriminate|]. simpl in H. injection H as H1 H2.
      destruct Hin as [->|Hin]; [congruence|eauto]. }
    eexists _, _, out. split; [exact Hrun|].
    rewrite Hmut, Hok. split.
    + destruct out as [o'|e c| | |st]; try contradiction.
      * destruct (Hns o' eq_refl).
      * left. destruct Hout as (-> & -> & Hbad). auto.
      * right. split; [eauto|]. intros t Ht.
        apply in_app_or in Ht. destruct Ht as [Ht|Ht].
        { simpl in Ht. destruct Ht as [Ht|[Ht|[Ht|[Ht|[]]]]]; discriminate Ht. }
        apply in_app_or in Ht. destruct Ht as [Ht|Ht].
        { rewrite Forall_forall in Ho. exact (Ho _ Ht t eq_refl). }
        simpl in Ht. destruct Ht as [Ht|[]]. discriminate Ht.
    + split; [exact Hns|]. split; [exact Hr|].
      intros c Hin'. destruct (Hc c Hin') as (r' & Hr' & Hroute).
      exists r'. repeat split; [assumption| |assumption].
      intros ->. congruence.
Qed.



(** C2.  ReplaceInstance started while the listing of the running
    executions reports more than one execution: the run fails with
    [SingletonConflict] at time 0, its only call is that listing, and
    it performs no provider mutation. *)
Theorem replacement_fails_when_another_is_running
  (f : nat) (E : Env) (region account securityGroupId : string)
  (azs : list AzConfiguration) (input listing : json) (es : list json) :
  (forall h, provider E h (list_executions region account) = Ok listing) ->
  running_executions listing = Some es ->
  1 < List.length es ->
  exists tr,
    start_execution (3 + f) E
      (replaceInstancesStateMachine region account securityGroupId azs) input [] 0
    = (tr, 0, SingletonConflict)
    /\ calls tr = [list_executions region account]
    /\ mutations tr = [].
Proof.
  intros Hp Hes Hlen. unfold start_execution.
  change (3 + f) with (S (S (S f))). cbn.
  run_step.
  change (AwsSdk _ _ _) with (list_executions region account). rewrite Hp. cbn.
  run_step.
  destruct listing as [| | | | |lo]; try discriminate. simpl in Hes.
  unfold at_path. cbn.
  destruct (lookup "Executions" lo) as [[| | | |es'|]|]; try discriminate.
  injection Hes as ->.
  destruct es as [|e0 [|e1 es]]; simpl in Hlen; try lia. cbn.
  run_step.
  eexists. split; [reflexivity|]. split; reflexivity.
Qed.

Lemma calls_grown (tr : list Event) (r : list Event * nat * Outcome) :
  grows tr r -> exists rest, calls (fst (fst r)) = calls tr ++ rest.
Proof. intros (d & ->). exists (calls d). apply calls_app. Qed.

(** C7.  The guard of Maintenance follows the status of the image
    pipeline reported by the first listing of the builds: when the
    status is neither AVAILABLE nor FAILED the execution fails with
    [PipelineAlreadyRunning], having made no other call and no
    mutation; when it is AVAILABLE or FAILED the next call of the run
    starts a build of the pipeline. *)
Theorem maintenance_guard_follows_pipeline_status
  (f : nat) (E : Env) (region account securityGroupId imagePipelineArn : string)
  (azs : list AzConfiguration) (input listing : json) (status : string) :
  (forall h, provider E h (list_builds region account) = Ok listing) ->
  pipeline_status listing = Some (JStr status) ->
  exists tr clock out,
    start_execution (4 + f) E
      (maintenanceStateMachine region account securityGroupId imagePipelineArn azs)
      input [] 0
    = (tr, clock, out)
    /\ (status <> "AVAILABLE" -> status <> "FAILED" ->
        out = PipelineAlreadyRunning
        /\ calls tr = [list_builds region account]
        /\ mutations tr = [])
    /\ (status = "AVAILABLE" \/ status = "FAILED" ->
        exists token rest,
          calls tr
          = list_builds region account :: start_build imagePipelineArn token :: rest).
Proof.
  intros Hp Hst. unfold start_execution.
  change (4 + f) with (S (S (S (S f)))). cbn.
  run_step.
  change (AwsSdk _ _ _) with (list_builds region account). rewrite Hp.
  unfold task_output. cbn -[at_path].
  unfold pipeline_status in Hst. rewrite Hst. cbn.
  run_step. unfold at_path. cbn.
  destruct (String.eqb_spec status "AVAILABLE") as [Ha|Ha];
    [|destruct (String.eqb_spec status "FAILED") as [Hf|Hf]]; cbn.
  3: { run_step.
       eexists _, _, _. split; [reflexivity|]. split.
       - intros _ _. repeat split.
       - intros [?|?]; contradiction. }
  all: run_step;
    change (AwsSdk _ _ _) with (start_build imagePipelineArn (uuid E
      [ExecutionStarted 0 "NATMaintenanceStateMachine";
       StateEntered 0 "GetInitialImagePipelineStatusTask";
       TaskCalled 0 "GetInitialImagePipelineStatusTask"
         (list_builds region account) (Ok listing);
       StateEntered 0 "AlreadyRunning?"]));
    destruct (provider E _ (start_build _ _)) as [raw|e c]; cbn;
    match goal with
    | |- context [exec ?n ?E' ?X ?g ?st ?i ?t ?c'] =>
        pose proof (calls_grown t _ (exec_grows n E' X g st i t c')) as (rest & Hg);
        destruct (exec n E' X g st i t c') as [[tr1 clock1] o1]
    end;
    simpl in Hg;
    (destruct o1; eexists _, _, _; (split; [reflexivity|]);
     (split;
      [intros; congruence
      |intros _; rewrite ?calls_app, Hg; simpl; rewrite ?app_nil_r; eauto])).
Qed.


(** *** The terminate branch *)

Section TerminateBranch.
Variables (E : Env) (X : Execution).
Variables (region account securityGroupId : string) (azs : list AzConfiguration).

Let g := terminateItemProcessor region account securityGroupId azs.

Lemma path_in_object (r : json) (k : string) (p : path) (v : json) :
  at_path r (Key k :: p) = Some v -> exists o, r = JObj o.
Proof. destruct r; try discriminate. eauto. Qed.

Ltac stopped k :=
  split; [repeat constructor; cbn; eauto|split; [exists k; reflexivity|discriminate]].

Lemma first_id_kept (raw : json) (o : list (string * json)) :
  at_path (JObj (set_key "DisableTerminationProtection" raw o))
    [Key "Instances"; Idx 0; Key "InstanceId"]
  = at_path (JObj o) [Key "Instances"; Idx 0; Key "InstanceId"].
Proof.
  unfold at_path. cbn. rewrite lookup_set_key_other by discriminate. reflexivity.
Qed.

Lemma terminate_item (n : nat) (r : json) (tr : list Event) (clock : nat) :
  exists d clock' o,
    exec n E X g "DisableTerminationProtectionTask" r tr clock = (tr ++ d, clock', o)
    /\ terminated r d o.
Proof.
  unfold terminated, termination, first_id.
  destruct n as [|n].
  { exists [], clock, OutOfFuel. rewrite exec_0, app_nil_r.
    split; [reflexivity|]. stopped 0. }
  run_step_at. destruct (expired (deadline X) clock) eqn:Hexp.
  { exists [], clock, TimedOut. rewrite app_nil_r.
    split; [reflexivity|]. stopped 0. }
  destruct (at_path r [Key "Instances"; Idx 0; Key "InstanceId"]) as [i|] eqn:Hi.
  2: { eexists [_], _, _. split; [reflexivity|]. stopped 0. }
  destruct (path_in_object _ _ _ _ Hi) as (o & ->).
  change (AwsSdk _ _ _) with (unprotect i).
  destruct (provider E _ (unprotect i)) as [raw|e c] eqn:P1; cbn -[at_path].
  2: { eexists [_; _], _, _. rewrite <- app_assoc. split; [reflexivity|]. stopped 1. }
  destruct n as [|n].
  { eexists [_; _], _, _. rewrite exec_0, <- app_assoc. split; [reflexivity|]. stopped 1. }
  run_step_at. rewrite Hexp, first_id_kept, Hi. change (AwsSdk _ _ _) with (terminate i).
  destruct (provider E _ (terminate i)) as [raw2|e c] eqn:P2; cbn;
    eexists [_; _; _; _], _, _; rewrite <- !app_assoc;
    (split; [reflexivity|]);
    (split; [repeat constructor; cbn; eauto|split; [exists 2; reflexivity|]]);
    [intros _; repeat split; discriminate|discriminate].
Qed.

Lemma at_path_root (doc : json) : at_path doc [] = Some doc.
Proof. reflexivity. Qed.

Lemma terminate_branch (n : nat) (input : json) (tr : list Event) (clock : nat) :
  exists d clock' o,
    exec n E X (states (terminateOldInstancesBranch region account securityGroupId azs))
         "AnyInstance?" input tr clock
    = (tr ++ d, clock', o)
    /\ terminate_branch_history (listed input) d o.
Proof.
  unfold terminate_branch_history.
  assert (Hstop : forall (pre : list Event) (clock' : nat) (o : Outcome),
             entered_only pre -> succeeded o = false ->
             exists (d : list Event) (clock'0 : nat) (o0 : Outcome),
               (tr ++ pre, clock', o) = (tr ++ d, clock'0, o0)
               /\ exists pre0 rs' dd b,
                   d = pre0 ++ dd /\ entered_only pre0 /\ fanned terminated rs' dd b
                   /\ (rs' = [] \/ rs' = listed input)
                   /\ (succeeded o0 = true -> b = true /\ rs' = listed input)).
  { intros pre clock' o Hpre Ho. exists pre, clock', o. split; [reflexivity|].
    exists pre, [], [], true. rewrite app_nil_r.
    repeat split; auto; try constructor; congruence. }
  destruct n as [|n].
  { rewrite exec_0. pose proof (Hstop [] clock OutOfFuel) as H.
    rewrite app_nil_r in H. apply H; [constructor|reflexivity]. }
  run_step_at. destruct (expired (deadline X) clock) eqn:Hexp.
  { pose proof (Hstop [] clock TimedOut) as H.
    rewrite app_nil_r in H. apply H; [constructor|reflexivity]. }
  destruct (at_path input [Key "NatInstances"; Key "Reservations"; Idx 0]) as [r0|] eqn:H0.
  - destruct n as [|n].
    { rewrite exec_0. apply Hstop; [repeat constructor|reflexivity]. }
    run_step_at. rewrite Hexp, at_path_root.
    assert (Hrs : exists rs, at_path input [Key "NatInstances"; Key "Reservations"]
                             = Some (JArr rs)).
    { unfold at_path in *.
      change [Key "NatInstances"; Key "Reservations"; Idx 0]
        with ([Key "NatInstances"; Key "Reservations"] ++ [Idx 0]) in H0.
      rewrite get_path_app in H0.
      destruct (get_path input input [Key "NatInstances"; Key "Reservations"])
        as [[| | | |rs|]|]; try discriminate. eauto. }
    destruct Hrs as (rs & Hrs). rewrite Hrs.
    unfold listed. rewrite Hrs. unfold fan_out.
    match goal with
    | |- context [join ?ff (map ?run ?l) ?t ?sl ?fl ?outs] =>
        destruct (join_fanned json terminated run ff
                    (fun a t' c' => terminate_item n a t' c') l t sl fl outs)
          as (dd & clock' & j & b & Hj & Hf & Hres);
        replace (join ff (map run l) t sl fl outs) with (t ++ dd, clock', j)
          by (symmetry; exact Hj)
    end.
    rewrite <- !app_assoc.
    destruct j as [outs|e c|o].
    + eexists _, _, _. split; [reflexivity|].
      exists [StateEntered clock "AnyInstance?";
              StateEntered clock "DisableInstancesTerminationProtection"], rs, dd, b.
      repeat split; auto; try (repeat constructor); tauto.
    + eexists _, _, _. split; [reflexivity|].
      exists [StateEntered clock "AnyInstance?";
              StateEntered clock "DisableInstancesTerminationProtection"], rs, dd, b.
      repeat split; auto; try (repeat constructor); discriminate.
    + eexists _, _, _. split; [reflexivity|].
      exists [StateEntered clock "AnyInstance?";
              StateEntered clock "DisableInstancesTerminationProtection"], rs, dd, b.
      repeat split; auto; try (repeat constructor); cbn in *; congruence.
  - assert (Hnone : listed input = []).
    { unfold listed, at_path in *.
      change [Key "NatInstances"; Key "Reservations"; Idx 0]
        with ([Key "NatInstances"; Key "Reservations"] ++ [Idx 0]) in H0.
      rewrite get_path_app in H0.
      destruct (get_path input input [Key "NatInstances"; Key "Reservations"])
        as [[| | | |[|r rs]|]|]; try reflexivity. discriminate. }
    destruct n as [|n].
    { rewrite exec_0. apply Hstop; [repeat constructor|reflexivity]. }
    run_step_at. rewrite Hexp. rewrite <- app_assoc.
    eexists _, _, _. split; [reflexivity|].
    exists [StateEntered clock "AnyInstance?"; StateEntered clock "NoOp"], [], [], true.
    rewrite Hnone. repeat split; auto; repeat constructor.
Qed.
End TerminateBranch.



(** *** The create branch *)

Section CreateBranch.
Variables (E : Env) (X : Execution).
Variables (region account securityGroupId : string) (azs : list AzConfiguration).

Let g := createItemProcessor region account securityGroupId azs.

Lemma status_path (i st : json) (p : path) :
  p = [Key "InstanceStatuses"; Idx 0]
  \/ p = [Key "InstanceStatuses"; Idx 0; Key "InstanceStatus"; Key "Status"]
  \/ p = [Key "InstanceStatuses"; Idx 0; Key "SystemStatus"; Key "Status"] ->
  at_path (JObj [("InstanceId", i); ("Instance", st)]) (Key "Instance" :: p)
  = at_path st p.
Proof. intros [->|[->| ->]]; reflexivity. Qed.

Lemma prefixed (P Q : list Event -> Outcome -> Prop) (tr pre : list Event)
  (r : list Event * nat * Outcome) :
  (exists d c o, r = ((tr ++ pre) ++ d, c, o) /\ P d o) ->
  (forall d o, P d o -> Q (pre ++ d) o) ->
  exists d c o, r = (tr ++ d, c, o) /\ Q d o.
Proof.
  intros (d & c & o & -> & H) HQ. exists (pre ++ d), c, o.
  rewrite app_assoc. auto.
Qed.

Lemma halted (Q : list Event -> Outcome -> Prop) (tr pre : list Event)
  (c : nat) (o : Outcome) :
  Q pre o -> exists d c' o', (tr ++ pre, c, o) = (tr ++ d, c', o') /\ Q d o'.
Proof. intros H. exists pre, c, o. auto. Qed.

Lemma halted_nil (Q : list Event -> Outcome -> Prop) (tr : list Event)
  (c : nat) (o : Outcome) :
  Q [] o -> exists d c' o', (tr, c, o) = (tr ++ d, c', o') /\ Q d o'.
Proof. intros H. exists [], c, o. rewrite app_nil_r. auto. Qed.

Ltac halt := first [apply halted_nil | rewrite <- ?app_assoc; apply halted];
             repeat constructor.

Lemma poll_loop (i : json) :
  forall (n : nat) (doc : json) (tr : list Event) (clock : nat),
    doc = JObj [("InstanceId", i)]
    \/ (exists st, doc = JObj [("InstanceId", i); ("Instance", st)]) ->
    exists d clock' o,
      exec n E X g "WaitForRun" doc tr clock = (tr ++ d, clock', o)
      /\ polled i d o.
Proof.
  induction n as [n IH] using lt_wf_ind. intros doc tr clock Hdoc.
  assert (Hready : forall (n2 : nat) (st : json) (tr2 : list Event) (c2 : nat),
             n2 < n -> healthy st ->
             exists d c o,
               exec n2 E X g "DisableSourceDestCheckTask"
                 (JObj [("InstanceId", i); ("Instance", st)])
                 (tr2 ++ [TaskCalled c2 "GetInstanceStateTask" (instance_status i) (Ok st);
                          StateEntered c2 "IsInstanceReady?"]) c2
               = (tr2 ++ d, c, o) /\ polled i d o).
  { intros n2 st tr2 c2 Hn2 Hst.
    destruct n2 as [|n2]; [rewrite exec_0; halt|].
    run_step. destruct (expired (deadline X) c2); [halt|].
    change (AwsSdk _ _ _) with (disable_source_dest_check i).
    destruct (provider E _ (disable_source_dest_check i)) as [raw|e c] eqn:P;
      rewrite <- !app_assoc; cbn.
    - eexists _, _, _. split; [reflexivity|].
      apply (polled_ready i c2 c2 c2 c2 _ _ _ _ st (Ok raw) Hst).
    - eexists _, _, _. split; [reflexivity|].
      apply (polled_ready i c2 c2 c2 c2 _ _ _ _ st (Err e c) Hst). }
  assert (Hchoice : forall (n2 : nat) (st : json) (tr2 : list Event) (c2 : nat),
             n2 < n ->
             exists d c o,
               exec n2 E X g "IsInstanceReady?"
                 (JObj [("InstanceId", i); ("Instance", st)])
                 (tr2 ++ [TaskCalled c2 "GetInstanceStateTask" (instance_status i) (Ok st)])
                 c2
               = (tr2 ++ d, c, o) /\ polled i d o).
  { intros n2 st tr2 c2 Hn2.
    destruct n2 as [|n2]; [rewrite exec_0; halt|].
    assert (Hagain : exists d c o,
               exec n2 E X g "WaitForRun"
                 (JObj [("InstanceId", i); ("Instance", st)])
                 ((tr2 ++ [TaskCalled c2 "GetInstanceStateTask" (instance_status i) (Ok st)])
                    ++ [StateEntered c2 "IsInstanceReady?"]) c2
               = (tr2 ++ d, c, o) /\ polled i d o).
    { rewrite <- app_assoc.
      eapply prefixed; [apply IH; [lia|right; eauto]|].
      intros d o H. cbn. repeat constructor. exact H. }
    run_step_at. destruct (expired (deadline X) c2); [halt|].
    rewrite !status_path by auto.
    destruct (at_path st [Key "InstanceStatuses"; Idx 0]); [|exact Hagain].
    destruct (at_path st [Key "InstanceStatuses"; Idx 0; Key "InstanceStatus";
                           Key "Status"]) as [s1|] eqn:H1; [|cbn; halt].
    assert (Hs1 : forall b, (match s1 with JStr s => Some (String.eqb s "ok")
                                       | _ => Some false end) = Some b ->
                            b = true -> s1 = JStr "ok").
    { intros b Hb ->. destruct s1; try discriminate.
      injection Hb as Hb. apply String.eqb_eq in Hb. congruence. }
    destruct s1 as [| | |s1| |]; cbn -[at_path]; try exact Hagain.
    destruct (String.eqb_spec s1 "ok") as [->|]; cbn -[at_path]; [|exact Hagain].
    destruct (at_path st [Key "InstanceStatuses"; Idx 0; Key "SystemStatus";
                           Key "Status"]) as [s2|] eqn:H2;
      [|cbn; halt].
    destruct s2 as [| | |s2| |]; cbn; try exact Hagain.
    destruct (String.eqb_spec s2 "ok") as [->|]; cbn; [|exact Hagain].
    rewrite <- app_assoc. apply Hready; [lia|split; assumption]. }
  assert (Hget : forall (n1 : nat) (tr1 : list Event) (c1 : nat),
             n1 < n ->
             exists d c o,
               exec n1 E X g "GetInstanceStateTask" doc tr1 c1 = (tr1 ++ d, c, o)
               /\ polled i d o).
  { intros n1 tr1 c1 Hn1.
    destruct n1 as [|n1]; [rewrite exec_0; halt|].
    destruct Hdoc as [->|(st0 & ->)].
    - run_step. destruct (expired (deadline X) c1); [halt|].
      change (AwsSdk _ _ _) with (instance_status i).
      destruct (provider E _ (instance_status i)) as [st|e c] eqn:P; cbn.
      + eapply prefixed; [apply Hchoice; lia|].
        intros d o H; cbn; repeat constructor; exact H.
      + halt.
    - run_step. destruct (expired (deadline X) c1); [halt|].
      change (AwsSdk _ _ _) with (instance_status i).
      destruct (provider E _ (instance_status i)) as [st|e c] eqn:P; cbn.
      + eapply prefixed; [apply Hchoice; lia|].
        intros d o H; cbn; repeat constructor; exact H.
      + halt. }
  destruct n as [|n]; [rewrite exec_0; halt|].
  run_step_at. destruct (expired (deadline X) clock) eqn:Hexp; [halt|].
  destruct (deadline X) as [D|]; [destruct (Nat.leb D (clock + 10)); [halt|]|];
    (eapply prefixed; [apply Hget; lia|];
     intros d o H; cbn; repeat constructor; exact H).
Qed.

Local Arguments at_path : simpl nomatch.

Lemma launched_output (ctx : json) (u : string) (input raw : json) :
  task_output ctx u input raw
    (Some (TObj [("InstanceId", TPath [Key "Instances"; Idx 0; Key "InstanceId"])]))
    None
  = match at_path raw [Key "Instances"; Idx 0; Key "InstanceId"] with
    | Some i => Some (JObj [("InstanceId", i)])
    | None => None
    end.
Proof.
  unfold task_output. cbn [eval_template].
  destruct (at_path raw [Key "Instances"; Idx 0; Key "InstanceId"]); reflexivity.
Qed.

Lemma create_item (n : nat) (z : AzConfiguration) (tr : list Event) (clock : nat) :
  exists d clock' o,
    exec n E X g "GetNatInstanceImageTask" (az_json z) tr clock = (tr ++ d, clock', o)
    /\ created z d o.
Proof.
  assert (Hlookup : forall (d0 : list Event) (o : Outcome),
             lookup_only d0 -> succeeded o = false -> created z d0 o).
  { intros d0 o Hd0 Ho. exists d0, []. rewrite app_nil_r. auto. }
  destruct n as [|n].
  { rewrite exec_0. apply halted_nil. apply Hlookup; [constructor|reflexivity]. }
  run_step. destruct (expired (deadline X) clock) eqn:Hexp.
  { apply halted_nil. apply Hlookup; [constructor|reflexivity]. }
  destruct (provider E _ (InvokeLambda _ _)) as [ami|e c] eqn:P; cbn.
  2: { rewrite <- app_assoc. apply halted.
       apply Hlookup; [repeat constructor|reflexivity]. }
  destruct n as [|n].
  { rewrite exec_0, <- app_assoc. apply halted.
    apply Hlookup; [repeat constructor|reflexivity]. }
  run_step. rewrite Hexp.
  match goal with
  | |- context [provider E ?h (AwsSdk ?s "runInstances" ?p)] =>
      set (c := AwsSdk s "runInstances" p);
      assert (Hc : launches_in z c) by (repeat split; reflexivity);
      clearbody c
  end.
  destruct (provider E _ c) as [raw|e c0] eqn:P2; [rewrite launched_output|].
  2: { rewrite <- !app_assoc. apply halted.
       eexists [_; _; _], [_]. split; [reflexivity|]. split; [repeat constructor|].
       right. eexists _, _, _, _, []. split; [reflexivity|]. split; [exact Hc|].
       left. split; reflexivity. }
  destruct (at_path raw [Key "Instances"; Idx 0; Key "InstanceId"]) as [i|] eqn:Hi.
  2: { rewrite <- !app_assoc. apply halted.
       eexists [_; _; _], [_]. split; [reflexivity|]. split; [repeat constructor|].
       right. eexists _, _, _, _, []. split; [reflexivity|]. split; [exact Hc|].
       left. split; reflexivity. }
  rewrite <- !app_assoc.
  eapply prefixed; [apply (poll_loop i); left; reflexivity|].
  intros d o H. cbn.
  eexists [_; _; _], (_ :: d). split; [reflexivity|]. split; [repeat constructor|].
  right. eexists _, _, _, _, d. split; [reflexivity|]. split; [exact Hc|].
  right. exists i. exact H.
Qed.

Lemma create_branch (n : nat) (input : json) (tr : list Event) (clock : nat) :
  exists d clock' o,
    exec n E X (states (createNewInstancesBranch region account securityGroupId azs))
         "GetSubnets" input tr clock
    = (tr ++ d, clock', o)
    /\ create_branch_history azs d o.
Proof.
  assert (Hstop : forall (pre : list Event) (o : Outcome),
             entered_only pre -> succeeded o = false ->
             create_branch_history azs pre o).
  { intros pre o Hpre Ho. exists pre, [], [], true. rewrite app_nil_r.
    repeat split; auto; try constructor; congruence. }
  destruct n as [|n].
  { rewrite exec_0. apply halted_nil. apply Hstop; [constructor|reflexivity]. }
  run_step. destruct (expired (deadline X) clock) eqn:Hexp.
  { apply halted_nil. apply Hstop; [constructor|reflexivity]. }
  destruct n as [|n].
  { rewrite exec_0. apply halted. apply Hstop; [repeat constructor|reflexivity]. }
  run_step. rewrite Hexp. unfold fan_out.
  match goal with
  | |- context [join ?ff (map ?run (map az_json azs)) ?t ?sl ?fl ?outs] =>
      destruct (join_fanned AzConfiguration created (fun z => run (az_json z)) ff
                  (fun a t' c' => create_item n a t' c') azs t sl fl outs)
        as (dd & clock' & j & b & Hj & Hf & Hres);
      replace (join ff (map run (map az_json azs)) t sl fl outs)
        with (t ++ dd, clock', j)
        by (rewrite map_map; symmetry; exact Hj)
  end.
  rewrite <- !app_assoc.
  destruct j as [outs|e c|o]; (eexists _, _, _; split; [reflexivity|]);
    exists [StateEntered clock "GetSubnets"; StateEntered clock "CreateNewInstances"],
      azs, dd, b;
    (repeat split; auto; try (repeat constructor); cbn in *; try tauto;
     try congruence).
Qed.
End CreateBranch.


(** *** The parallel step of ReplaceInstance *)

Section Replacement.
Variables (E : Env) (X : Execution).
Variables (region account securityGroupId : string) (azs : list AzConfiguration).

Let g := replaceGraph region account securityGroupId azs.

Lemma history_of_nothing_terminated (rs : list json) :
  terminate_branch_history rs [] OutOfFuel.
Proof.
  exists [], [], [], true. repeat split; auto; try constructor; discriminate.
Qed.

Lemma history_of_nothing_created : create_branch_history azs [] OutOfFuel.
Proof.
  exists [], [], [], true. repeat split; auto; try constructor; discriminate.
Qed.

Lemma replacement_branches (n : nat) (input : json) (tr : list Event) (clock : nat) :
  exists d clock' o,
    exec n E X g "InstancesReplacement" input tr clock = (tr ++ d, clock', o)
    /\ branches_history (listed input) azs d o.
Proof.
  assert (Hstop : forall (pre : list Event) (o : Outcome),
             entered_only pre -> succeeded o = false ->
             branches_history (listed input) azs pre o).
  { intros pre o Hpre Ho. exists pre, [], OutOfFuel, [], OutOfFuel, [].
    rewrite !app_nil_r. repeat split; auto using history_of_nothing_terminated,
      history_of_nothing_created; try constructor; congruence. }
  destruct n as [|n].
  { rewrite exec_0. apply halted_nil. apply Hstop; [constructor|reflexivity]. }
  run_step_at. destruct (expired (deadline X) clock) eqn:Hexp.
  { apply halted_nil. apply Hstop; [constructor|reflexivity]. }
  unfold fan_out. cbn [map join lanes Nat.eqb List.length Nat.max repeat].
  match goal with
  | |- context [exec n E X ?gA "AnyInstance?" input ?t ?c] =>
      destruct (terminate_branch E X region account securityGroupId azs n input t c)
        as (dA & cA & oA & HA & HhA);
      replace (exec n E X gA "AnyInstance?" input t c) with (t ++ dA, cA, oA)
        by (symmetry; exact HA)
  end.
  assert (Hdone : forall (dB post : list Event) (oB o : Outcome) (c' : nat),
             create_branch_history azs dB oB -> entered_only post ->
             (succeeded o = true -> succeeded oA = true /\ succeeded oB = true) ->
             exists d clock' o',
               ((((tr ++ [StateEntered clock "InstancesReplacement"]) ++ dA) ++ dB) ++ post,
                c', o)
               = (tr ++ d, clock', o')
               /\ branches_history (listed input) azs d o').
  { intros dB post oB o c' HB Hpost Ho. eexists _, _, _.
    rewrite <- !app_assoc. split; [reflexivity|].
    exists [StateEntered clock "InstancesReplacement"], dA, oA, dB, oB, post.
    repeat split; auto; try (repeat constructor); tauto. }
  assert (Hfail : forall (dB : list Event) (oB : Outcome) (c' : nat) (e c : string),
             create_branch_history azs dB oB ->
             exists d clock' o',
               exec n E X g "ReplaceInstance" (error_output e c)
                 (((tr ++ [StateEntered clock "InstancesReplacement"]) ++ dA) ++ dB) c'
               = (tr ++ d, clock', o')
               /\ branches_history (listed input) azs d o').
  { intros dB oB c' e c HB.
    destruct n as [|n']; [rewrite exec_0|run_step; destruct (expired (deadline X) c')].
    - rewrite <- (app_nil_r (((tr ++ _) ++ dA) ++ dB)).
      apply Hdone with (oB := oB); [assumption|constructor|discriminate].
    - rewrite <- (app_nil_r (((tr ++ _) ++ dA) ++ dB)).
      apply Hdone with (oB := oB); [assumption|constructor|discriminate].
    - apply Hdone with (oB := oB); [assumption|repeat constructor|discriminate]. }
  assert (HB : forall (t : list Event) (c : nat),
             exists dB cB oB,
               exec n E X (states (createNewInstancesBranch region account
                                     securityGroupId azs)) "GetSubnets" input t c
               = (t ++ dB, cB, oB)
               /\ create_branch_history azs dB oB).
  { intros t c. apply create_branch. }
  assert (Hdone0 : forall (o : Outcome) (c' : nat),
             succeeded o = false ->
             exists d clock' o',
               ((tr ++ [StateEntered clock "InstancesReplacement"]) ++ dA, c', o)
               = (tr ++ d, clock', o')
               /\ branches_history (listed input) azs d o').
  { intros o c' Ho.
    pose proof (Hdone [] [] OutOfFuel o c' history_of_nothing_created) as H.
    rewrite !app_nil_r in H. apply H; [constructor|congruence]. }
  destruct oA as [outA|eA cA'| | |sA].
  - match goal with
    | |- context [exec n E X ?gB "GetSubnets" input ?t ?c] =>
        destruct (HB t c) as (dB & cB & oB & HBe & HhB);
        replace (exec n E X gB "GetSubnets" input t c) with (t ++ dB, cB, oB)
          by (symmetry; exact HBe)
    end.
    destruct oB as [outB|eB cB'| | |sB].
    + rewrite <- (app_nil_r (((tr ++ _) ++ dA) ++ dB)).
      apply Hdone with (oB := Succeeded outB); [assumption|constructor|auto].
    + destruct (failFast E); apply Hfail with (oB := Failed eB cB'); assumption.
    + rewrite <- (app_nil_r (((tr ++ _) ++ dA) ++ dB)).
      apply Hdone with (oB := TimedOut); [assumption|constructor|discriminate].
    + rewrite <- (app_nil_r (((tr ++ _) ++ dA) ++ dB)).
      apply Hdone with (oB := OutOfFuel); [assumption|constructor|discriminate].
    + destruct (failFast E); [|destruct (hold _ _); cbn [drain]; cbv beta iota zeta];
        rewrite <- (app_nil_r (((tr ++ _) ++ dA) ++ dB));
        (apply Hdone with (oB := RuntimeError sB);
         [assumption|constructor|discriminate]).
  - destruct (failFast E).
    + rewrite <- (app_nil_r ((tr ++ _) ++ dA)).
      apply Hfail with (oB := OutOfFuel). apply history_of_nothing_created.
    + match goal with
      | |- context [exec n E X ?gB "GetSubnets" input ?t ?c] =>
          destruct (HB t c) as (dB & cB & oB & HBe & HhB);
          replace (exec n E X gB "GetSubnets" input t c) with (t ++ dB, cB, oB)
            by (symmetry; exact HBe)
      end.
      destruct oB as [outB|eB cB'| | |sB].
      * apply Hfail with (oB := Succeeded outB); assumption.
      * apply Hfail with (oB := Failed eB cB'); assumption.
      * rewrite <- (app_nil_r (((tr ++ _) ++ dA) ++ dB)).
        apply Hdone with (oB := TimedOut); [assumption|constructor|discriminate].
      * rewrite <- (app_nil_r (((tr ++ _) ++ dA) ++ dB)).
        apply Hdone with (oB := OutOfFuel); [assumption|constructor|discriminate].
      * destruct (hold _ _); cbn [drain]; cbv beta iota zeta;
          rewrite <- (app_nil_r (((tr ++ _) ++ dA) ++ dB));
          (apply Hdone with (oB := RuntimeError sB);
           [assumption|constructor|discriminate]).
  - apply Hdone0; reflexivity.
  - apply Hdone0; reflexivity.
  - destruct (failFast E); [apply Hdone0; reflexivity|].
    rewrite ?Nat.min_id, ?Nat.eqb_refl. cbv beta iota.
    match goal with
    | |- context [exec n E X ?gB "GetSubnets" input ?t ?c] =>
        destruct (HB t c) as (dB & cB & oB & HBe & HhB);
        replace (exec n E X gB "GetSubnets" input t c) with (t ++ dB, cB, oB)
          by (symmetry; exact HBe)
    end.
    destruct oB as [outB|eB cB'| | |sB]; cbv beta iota zeta;
      rewrite ?Nat.min_id, ?Nat.eqb_refl; cbv beta iota zeta;
      rewrite <- (app_nil_r (((tr ++ _) ++ dA) ++ dB));
      (eapply Hdone; [eassumption|constructor|discriminate]).
Qed.
End Replacement.

Lemma route_events_quiet (E : Env) (d : list Event) :
  Forall (route_event E) d -> Forall quiet d.
Proof.
  apply Forall_impl. intros [t s|t s c r|t m|t m st]; cbn; auto.
  intros [H _]. unfold is_launch, is_terminate. rewrite H. repeat split.
Qed.

Lemma ended_route_events (E : Env) (name : string) (d rest : list Event) :
  Forall (route_event E) d -> ended name (d ++ rest) = ended name rest.
Proof.
  induction 1 as [|[t s|t s c r|t m|t m st] d He Hd IH]; cbn in *;
    auto; contradiction.
Qed.

Lemma replacement_run (f : nat) (E : Env) (region account securityGroupId : string)
  (azs : list AzConfiguration) (input : json) :
  exists tr clock out,
    start_execution (6 + f) E
      (replaceInstancesStateMachine region account securityGroupId azs) input [] 0
    = (tr, clock, out)
    /\ replacement_history E azs tr out.
Proof.
  unfold start_execution.
  change (6 + f) with (S (S (S (S (S (S f)))))). cbn.
  run_step.
  change (AwsSdk _ _ _) with (list_executions region account).
  destruct (provider E _ (list_executions region account)) as [l1|e c]; cbn.
  2: { run_step. eexists _, _, _. split; [reflexivity|].
       eexists _, [], []. rewrite !app_nil_r. split; [reflexivity|].
       split; [repeat constructor|]. split; [constructor|].
       left. repeat split. }
  run_step_at.
  destruct (at_path l1 [Key "Executions"; Idx 1]) as [e1|].
  { run_step. eexists _, _, _. split; [reflexivity|].
    eexists _, [], []. rewrite !app_nil_r. split; [reflexivity|].
    split; [repeat constructor|]. split; [constructor|].
    left. split; [reflexivity|]. split; [reflexivity|].
    intros e' c' H. cbn in H. discriminate. }
  run_step_at.
  match goal with
  | |- context [exec (S (S (S f))) E ?X' ?g "GetAZConfigurations" ?i ?t ?c] =>
      destruct (failover_run E X' f azs i t c eq_refl) as (delta & o & Hrun & Hev & Ho);
      replace (exec (S (S (S f))) E X' g "GetAZConfigurations" i t c)
        with (t ++ delta, c, o) by (symmetry; exact Hrun)
  end.
  destruct o as [st|e c| | |sF]; try contradiction.
  2: { run_step. eexists _, _, _. split; [reflexivity|].
       eexists _, [], []. rewrite !app_nil_r. split; [reflexivity|].
       split.
       { repeat (constructor; [cbn; auto|]).
         repeat (apply Forall_app; split); try (repeat constructor).
         apply (route_events_quiet E); assumption. }
       split; [constructor|].
       left. repeat split. }
  cbn. run_step_at.
  change (AwsSdk _ _ _) with describe_instances.
  match goal with
  | |- context [provider E ?h describe_instances] =>
      destruct (provider E h describe_instances) as [listing|e c] eqn:Hlist
  end.
  2: { cbn. run_step. eexists _, _, _. split; [reflexivity|].
       eexists _, [], []. rewrite !app_nil_r. split; [reflexivity|].
       split.
       { repeat (constructor; [cbn; auto|]).
         repeat (apply Forall_app; split); try (repeat constructor).
         apply (route_events_quiet E); assumption. }
       split; [constructor|].
       left. split; [reflexivity|]. split; [reflexivity|].
       intros; reflexivity. }
  cbn.
  match goal with
  | |- context [exec (S (S f)) E ?X ?g "InstancesReplacement" ?i ?t ?c] =>
      destruct (replacement_branches E X region account securityGroupId azs
                  (S (S f)) i t c) as (d & clock' & o & Hrun' & Hd);
      replace (exec (S (S f)) E X g "InstancesReplacement" i t c)
        with (t ++ d, clock', o) by (symmetry; exact Hrun')
  end.
  match type of Hd with
  | branches_history ?l _ _ _ =>
      assert (Hl : l = reservations_of listing)
  end.
  { unfold listed, reservations_of, reservations, at_path. cbn.
    destruct listing as [| | | | |lo]; try reflexivity.
    cbn. destruct (lookup "Reservations" lo) as [[| | | | |]|]; reflexivity. }
  rewrite Hl in Hd. clear Hl Hrun Hrun'.
  destruct Ho as [_ Hcalls].
  match goal with
  | |- context [(?hd ++ d, clock', OutOfFuel)] => set (head := hd)
  end.
  assert (Hq : Forall quiet head).
  { subst head. repeat (constructor; [cbn; auto|]).
    repeat (apply Forall_app; split); try (repeat constructor).
    apply (route_events_quiet E); assumption. }
  assert (Hend : ended "NATInstanceFailover" head = Some (SUCCEEDED st)).
  { subst head. cbn. rewrite <- !app_assoc.
    rewrite (ended_route_events E) by assumption. reflexivity. }
  assert (Hincl : incl (map route_to_gateway azs) (calls head)).
  { subst head. cbn. rewrite !calls_app, Hcalls. cbn.
    intros c Hc. right. apply in_or_app. left. apply in_or_app. left.
    rewrite app_nil_r. exact Hc. }
  clearbody head.
  assert (Hhist : forall tail out,
             Forall quiet tail -> (succeeded out = true -> succeeded o = true) ->
             replacement_history E azs (head ++ d ++ tail) out).
  { intros tail out Ht Hs. exists head, d, tail. repeat split; auto.
    right. eexists listing, _, o, st. repeat split; eauto. }
  destruct o as [out0|e c| | |sR]; eexists _, _, _;
    (split; [reflexivity|]); rewrite <- ?app_assoc.
  4: rewrite <- (app_nil_r d).
  all: apply Hhist; repeat constructor; try discriminate.
Qed.


(** ** Reading the calls of the parts of a history *)

Lemma launches_app (a b : list Event) : launches (a ++ b) = launches a ++ launches b.
Proof. unfold launches. rewrite calls_app. apply filter_app. Qed.

Lemma terminations_app (a b : list Event) :
  terminations (a ++ b) = terminations a ++ terminations b.
Proof. unfold terminations. rewrite calls_app. apply filter_app. Qed.

Lemma check_disablings_app (a b : list Event) :
  check_disablings (a ++ b) = check_disablings a ++ check_disablings b.
Proof. unfold check_disablings. rewrite calls_app. apply filter_app. Qed.

Lemma quiet_calls (l : list Event) :
  Forall quiet l ->
  terminations l = [] /\ launches l = [] /\ check_disablings l = [].
Proof.
  induction 1 as [|[t s|t s c r|t m|t m st] l He Hl IH]; cbn in *; auto.
  destruct He as (H1 & H2 & H3). destruct IH as (I1 & I2 & I3).
  unfold terminations, launches, check_disablings in *. cbn.
  unfold is_unprotect, is_source_dest. rewrite H1, H2, H3. cbn. auto.
Qed.

Lemma entered_only_quiet (l : list Event) : entered_only l -> Forall quiet l.
Proof.
  apply Forall_impl. intros [t s|t s c r|t m|t m st]; cbn; auto; contradiction.
Qed.

Lemma split_after (Q : Event -> Prop) (head rest pre : list Event) (e : Event)
  (post : list Event) :
  head ++ rest = pre ++ e :: post -> Forall Q head -> ~ Q e ->
  exists pre', pre = head ++ pre' /\ rest = pre' ++ e :: post.
Proof.
  revert pre. induction head as [|a head IH]; intros pre Heq HQ He.
  - exists pre. auto.
  - inversion HQ as [|? ? Ha Hh]; subst.
    destruct pre as [|b pre]; cbn in Heq; injection Heq as <- Heq.
    + contradiction.
    + destruct (IH pre Heq Hh He) as (pre' & -> & ->). exists pre'. auto.
Qed.

Lemma app_eq_cases (a b pre : list Event) (e : Event) (post : list Event) :
  a ++ b = pre ++ e :: post ->
  (exists q, a = pre ++ e :: q /\ post = q ++ b)
  \/ (exists q, pre = a ++ q /\ b = q ++ e :: post).
Proof.
  revert pre. induction a as [|x a IH]; intros pre Heq.
  - right. exists pre. auto.
  - destruct pre as [|y pre]; cbn in Heq; injection Heq as <- Heq.
    + left. exists a. auto.
    + destruct (IH pre Heq) as [(q & -> & ->)|(q & -> & ->)].
      * left. exists q. auto.
      * right. exists q. auto.
Qed.

Lemma ended_app_some (name : string) (a b : list Event) (s : Status) :
  ended name a = Some s -> ended name (a ++ b) = Some s.
Proof.
  induction a as [|[t x|t x c r|t m|t m st] a IH]; cbn; auto; try discriminate.
  destruct (String.eqb m name); auto.
Qed.

Lemma ended_In (name : string) (l : list Event) (s : Status) :
  ended name l = Some s -> exists t, In (ExecutionEnded t name s) l.
Proof.
  induction l as [|[t x|t x c r|t m|t m st] l IH]; cbn; try discriminate;
    try (intros H; destruct (IH H) as (t' & Ht'); eauto).
  destruct (String.eqb_spec m name) as [->|Hm].
  - intros [= ->]. eauto.
  - intros H; destruct (IH H) as (t' & Ht'); eauto.
Qed.

(** *** The terminate branch *)

Lemma termination_events_calls (d : list Event) :
  Forall termination_event d -> launches d = [] /\ check_disablings d = [].
Proof.
  induction 1 as [|[t s|t s c r|t m|t m st] l He Hl IH]; cbn in *; auto;
    try contradiction.
  destruct IH as (I1 & I2). unfold launches, check_disablings in *. cbn.
  destruct He as (i & [->| ->]); cbn; auto.
Qed.

Lemma termination_kept (r : json) :
  filter (fun c => is_unprotect c || is_terminate c) (termination r) = termination r.
Proof. unfold termination. destruct (first_id r); reflexivity. Qed.

Lemma fanned_terminated (rs : list json) (dd : list Event) (b : bool) :
  fanned terminated rs dd b ->
  launches dd = [] /\ check_disablings dd = []
  /\ (b = true ->
      terminations dd = flat_map termination rs
      /\ Forall (fun r => first_id r <> None) rs).
Proof.
  induction 1 as [|r rs d o ds b (Hev & _ & Hs) _ (I1 & I2 & I3)
                  |r rs d o (Hev & _ & _) Ho].
  - repeat split; auto.
  - destruct (termination_events_calls d Hev) as (L & C).
    rewrite launches_app, check_disablings_app, L, C, I1, I2.
    repeat split; auto; apply andb_prop in H as (Ho & ->);
      destruct (Hs Ho) as (Hc & Hid & _); destruct (I3 eq_refl) as (J1 & J2).
    + rewrite terminations_app, J1. cbn. f_equal.
      unfold terminations. rewrite Hc. apply termination_kept.
    + constructor; assumption.
  - destruct (termination_events_calls d Hev) as (L & C).
    repeat split; auto; discriminate.
Qed.

Lemma terminate_branch_calls (rs : list json) (d : list Event) (o : Outcome) :
  terminate_branch_history rs d o ->
  launches d = [] /\ check_disablings d = []
  /\ (rs = [] -> terminations d = [])
  /\ (succeeded o = true ->
      terminations d = flat_map termination rs
      /\ Forall (fun r => first_id r <> None) rs).
Proof.
  intros (pre & rs' & dd & b & -> & Hpre & Hf & Hrs & Hs).
  destruct (quiet_calls pre (entered_only_quiet pre Hpre)) as (Q1 & Q2 & Q3).
  destruct (fanned_terminated rs' dd b Hf) as (F1 & F2 & F3).
  rewrite launches_app, check_disablings_app, terminations_app, Q1, Q2, Q3, F1, F2.
  repeat split; auto.
  - intros ->. assert (rs' = []) as -> by (destruct Hrs; auto).
    inversion Hf; subst. reflexivity.
  - destruct (Hs H) as (-> & ->). apply (F3 eq_refl).
  - destruct (Hs H) as (-> & ->). apply (F3 eq_refl).
Qed.

(** *** The create branch *)

Lemma lookup_only_calls (d : list Event) :
  lookup_only d ->
  terminations d = [] /\ launches d = [] /\ check_disablings d = [].
Proof.
  intros H. apply quiet_calls. revert H. apply Forall_impl.
  intros [t s|t s [sv a p|fn p] r|t m|t m st]; cbn; auto; contradiction.
Qed.

Lemma polled_calls (i : json) (d : list Event) (o : Outcome) :
  polled i d o -> terminations d = [] /\ launches d = [].
Proof.
  induction 1 as [o Ho|t s d o _ IH|t s res d o _ IH|t t1 t2 t3 s s1 s2 s3 st res Hst];
    auto.
Qed.

Lemma launch_calls (t : nat) (s : string) (c : Call) (res : Result)
  (z : AzConfiguration) :
  launches_in z c ->
  terminations [TaskCalled t s c res] = []
  /\ launches [TaskCalled t s c res] = [c]
  /\ check_disablings [TaskCalled t s c res] = [].
Proof.
  intros (Ha & _). unfold terminations, launches, check_disablings. cbn.
  unfold is_unprotect, is_terminate, is_launch, is_source_dest. rewrite Ha.
  cbn. auto.
Qed.

Lemma created_calls (z : AzConfiguration) (d : list Event) (o : Outcome) :
  created z d o ->
  terminations d = []
  /\ (forall c, In c (launches d) -> launches_in z c)
  /\ (succeeded o = true -> exists c, launches d = [c] /\ launches_in z c).
Proof.
  intros (d0 & rest & -> & H0 & Hrest).
  destruct (lookup_only_calls d0 H0) as (T0 & L0 & _).
  rewrite terminations_app, launches_app, T0, L0. cbn.
  destruct Hrest as [(-> & Ho)|(t & s & c & res & d1 & -> & Hc & Hd1)].
  - split; [reflexivity|]. split; [intros c []|congruence].
  - destruct (launch_calls t s c res z Hc) as (T & L & _).
    change (TaskCalled t s c res :: d1) with ([TaskCalled t s c res] ++ d1).
    rewrite terminations_app, launches_app, T, L. cbn.
    assert (Hd : terminations d1 = [] /\ launches d1 = []).
    { destruct Hd1 as [(-> & _)|(i & Hp)]; [auto|exact (polled_calls i d1 o Hp)]. }
    destruct Hd as (-> & ->).
    split; [reflexivity|]. split.
    + intros c' [<-|[]]. assumption.
    + intros _. eauto.
Qed.

Lemma fanned_created (azs : list AzConfiguration) (dd : list Event) (b : bool) :
  fanned created azs dd b ->
  terminations dd = []
  /\ (forall c, In c (launches dd) -> exists z, In z azs /\ launches_in z c)
  /\ (b = true -> Forall2 launches_in azs (launches dd)).
Proof.
  induction 1 as [|z azs d o ds b Hz _ (I1 & I2 & I3)|z azs d o Hz Ho].
  - split; [reflexivity|]. split; [intros c []|constructor].
  - destruct (created_calls z d o Hz) as (T & L & S).
    rewrite terminations_app, launches_app, T, I1.
    split; [reflexivity|]. split.
    + intros c Hc. apply in_app_or in Hc as [Hc|Hc].
      * exists z. split; [left; reflexivity|auto].
      * destruct (I2 c Hc) as (z' & Hz' & Hl). exists z'. split; [right|]; auto.
    + intros Hb. apply andb_prop in Hb as (Ho & ->).
      destruct (S Ho) as (c & -> & Hc). constructor; auto.
  - destruct (created_calls z d o Hz) as (T & L & S).
    split; [assumption|]. split.
    + intros c Hc. exists z. split; [left; reflexivity|auto].
    + discriminate.
Qed.

Lemma create_branch_calls (azs : list AzConfiguration) (d : list Event)
  (o : Outcome) :
  create_branch_history azs d o ->
  terminations d = []
  /\ (forall c, In c (launches d) -> exists z, In z azs /\ launches_in z c)
  /\ (succeeded o = true -> Forall2 launches_in azs (launches d)).
Proof.
  intros (pre & azs' & dd & b & -> & Hpre & Hf & Hazs & Hs).
  destruct (quiet_calls pre (entered_only_quiet pre Hpre)) as (Q1 & Q2 & Q3).
  destruct (fanned_created azs' dd b Hf) as (F1 & F2 & F3).
  rewrite terminations_app, launches_app, Q1, Q2, F1. cbn.
  split; [reflexivity|]. split.
  - intros c Hc. destruct (F2 c Hc) as (z & Hz & Hl). exists z. split; auto.
    destruct Hazs as [->| ->]; [contradiction|assumption].
  - intros Ho. destruct (Hs Ho) as (-> & ->). auto.
Qed.

(** *** A check is disabled only after a healthy poll *)

Lemma checked_nothing (d : list Event) :
  check_disablings d = [] -> checked_before_disabling d.
Proof.
  intros H pre t s c res post -> Hc. exfalso.
  rewrite check_disablings_app in H. apply app_eq_nil in H as (_ & H).
  unfold check_disablings in H. cbn in H. rewrite Hc in H. discriminate.
Qed.

Lemma checked_app (a b : list Event) :
  checked_before_disabling a -> checked_before_disabling b ->
  checked_before_disabling (a ++ b).
Proof.
  intros Ha Hb pre t s c res post Heq Hc.
  apply app_eq_cases in Heq as [(q & -> & ->)|(q & -> & ->)].
  - exact (Ha pre t s c res q eq_refl Hc).
  - destruct (Hb q t s c res post eq_refl Hc) as (i & t' & s' & st & -> & Hin & Hst).
    exists i, t', s', st. repeat split; try apply Hst.
    apply in_or_app. right. exact Hin.
Qed.

Lemma polled_checked (i : json) (d : list Event) (o : Outcome) :
  polled i d o -> checked_before_disabling d.
Proof.
  induction 1 as [o Ho|t s d o _ IH|t s res d o _ IH|t t1 t2 t3 s s1 s2 s3 st res Hst].
  - apply checked_nothing. reflexivity.
  - apply (checked_app [StateEntered t s] d); [apply checked_nothing; reflexivity|exact IH].
  - apply (checked_app [TaskCalled t s (instance_status i) res] d);
      [apply checked_nothing; reflexivity|exact IH].
  - intros pre t' s' c res' post Heq Hc.
    destruct pre as [|e0 [|e1 [|e2 [|e3 pre]]]]; cbn in Heq.
    + injection Heq as _ _ <- _ _. discriminate.
    + injection Heq as _ Heq. discriminate.
    + injection Heq as _ _ Heq. discriminate.
    + injection Heq as <- <- <- _ _ <- _ _.
      exists i, t, s, st. repeat split; try apply Hst. left. reflexivity.
    + injection Heq as _ _ _ _ Heq. destruct pre; discriminate.
Qed.

Lemma created_checked (z : AzConfiguration) (d : list Event) (o : Outcome) :
  created z d o -> checked_before_disabling d.
Proof.
  intros (d0 & rest & -> & H0 & Hrest).
  apply checked_app.
  - apply checked_nothing. apply (lookup_only_calls d0 H0).
  - destruct Hrest as [(-> & Ho)|(t & s & c & res & d1 & -> & Hc & Hd1)].
    + apply checked_nothing. reflexivity.
    + apply (checked_app [TaskCalled t s c res] d1).
      * apply checked_nothing. apply (launch_calls t s c res z Hc).
      * destruct Hd1 as [(-> & _)|(i & Hp)];
          [apply checked_nothing; reflexivity|exact (polled_checked i d1 o Hp)].
Qed.

Lemma fanned_created_checked (azs : list AzConfiguration) (dd : list Event)
  (b : bool) :
  fanned created azs dd b -> checked_before_disabling dd.
Proof.
  induction 1 as [|z azs d o ds b Hz _ IH|z azs d o Hz Ho].
  - apply checked_nothing. reflexivity.
  - apply checked_app; [exact (created_checked z d o Hz)|exact IH].
  - exact (created_checked z d o Hz).
Qed.

Lemma create_branch_checked (azs : list AzConfiguration) (d : list Event)
  (o : Outcome) :
  create_branch_history azs d o -> checked_before_disabling d.
Proof.
  intros (pre & azs' & dd & b & -> & Hpre & Hf & _).
  apply checked_app.
  - apply checked_nothing. apply (quiet_calls pre (entered_only_quiet pre Hpre)).
  - exact (fanned_created_checked azs' dd b Hf).
Qed.

(** *** The whole [InstancesReplacement] step, and the whole run *)

Lemma branches_calls (rs : list json) (azs : list AzConfiguration)
  (d : list Event) (o : Outcome) :
  branches_history rs azs d o ->
  (rs = [] -> terminations d = [])
  /\ (forall c, In c (launches d) -> exists z, In z azs /\ launches_in z c)
  /\ checked_before_disabling d
  /\ (succeeded o = true ->
      terminations d = flat_map termination rs
      /\ Forall (fun r => first_id r <> None) rs
      /\ Forall2 launches_in azs (launches d)).
Proof.
  intros (pre & dA & oA & dB & oB & post & -> & Hpre & Hpost & HA & HB & Hs).
  destruct (quiet_calls pre (entered_only_quiet pre Hpre)) as (P1 & P2 & P3).
  destruct (quiet_calls post (entered_only_quiet post Hpost)) as (Q1 & Q2 & Q3).
  destruct (terminate_branch_calls rs dA oA HA) as (A1 & A2 & A3 & A4).
  destruct (create_branch_calls azs dB oB HB) as (B1 & B2 & B3).
  rewrite !terminations_app, !launches_app, P1, P2, Q1, Q2, A1, B1, !app_nil_r.
  cbn. split; [exact A3|]. split; [exact B2|]. split.
  - apply checked_app; [apply checked_nothing; exact P3|].
    apply checked_app; [apply checked_nothing; exact A2|].
    apply checked_app; [exact (create_branch_checked azs dB oB HB)|].
    apply checked_nothing; exact Q3.
  - intros Ho. destruct (Hs Ho) as (HoA & HoB).
    destruct (A4 HoA) as (T & F). auto.
Qed.

Lemma replacement_calls (E : Env) (azs : list AzConfiguration) (tr : list Event)
  (out : Outcome) :
  replacement_history E azs tr out ->
  (forall c, In c (launches tr) -> exists z, In z azs /\ launches_in z c)
  /\ checked_before_disabling tr
  /\ (forall listing,
        (forall h, provider E h describe_instances = Ok listing) ->
        (reservations_of listing = [] -> terminations tr = [])
        /\ (succeeded out = true ->
            terminations tr = flat_map termination (reservations_of listing)
            /\ Forall (fun r => first_id r <> None) (reservations_of listing)
            /\ Forall2 launches_in azs (launches tr))).
Proof.
  intros (head & d & tail & -> & Hh & Ht & Hd).
  destruct (quiet_calls head Hh) as (P1 & P2 & P3).
  destruct (quiet_calls tail Ht) as (Q1 & Q2 & Q3).
  rewrite !terminations_app, !launches_app, P1, P2, Q1, Q2, !app_nil_r. cbn.
  destruct Hd as [(-> & Ho & _)|(listing & h & o & st & _ & _ & Hl & Hb & Hs)].
  - split; [intros c []|]. split.
    + apply checked_app; [apply checked_nothing; exact P3|].
      apply checked_nothing; exact Q3.
    + intros listing _. split; [reflexivity|congruence].
  - destruct (branches_calls _ azs d o Hb) as (B1 & B2 & B3 & B4).
    split; [exact B2|]. split.
    + apply checked_app; [apply checked_nothing; exact P3|].
      apply checked_app; [exact B3|apply checked_nothing; exact Q3].
    + intros listing' Hp. rewrite Hp in Hl. injection Hl as ->.
      split; [exact B1|]. intros Ho. apply B4. auto.
Qed.


(** ** Runs with a cooperative provider *)


Section Cooperative.
Variables (E : Env) (X : Execution) (dl : nat).
Variables (region account securityGroupId : string) (azs : list AzConfiguration).
Hypothesis Hdl : deadline X = Some dl.
Hypothesis Hcoop : cooperative E.

Let g := createItemProcessor region account securityGroupId azs.

Lemma healthy_present (st : json) :
  healthy st -> at_path st [Key "InstanceStatuses"; Idx 0] <> None.
Proof.
  intros (H & _) Hn. unfold at_path in *.
  change [Key "InstanceStatuses"; Idx 0; Key "InstanceStatus"; Key "Status"]
    with ([Key "InstanceStatuses"; Idx 0] ++ [Key "InstanceStatus"; Key "Status"]) in H.
  rewrite get_path_app, Hn in H. discriminate.
Qed.

Lemma create_item_outcome (n : nat) (z : AzConfiguration) (tr : list Event)
  (clock : nat) :
  clock + 10 < dl ->
  exists tr' o,
    exec (6 + n) E X g "GetNatInstanceImageTask" (az_json z) tr clock
    = (tr', clock + 10, Succeeded o).
Proof.
  intros Hclock. destruct Hcoop as (Hall & Hrun & Hst).
  assert (Hexp : expired (deadline X) clock = false).
  { rewrite Hdl. cbn. apply Nat.leb_gt. lia. }
  assert (Hexp' : expired (deadline X) (clock + 10) = false).
  { rewrite Hdl. cbn. apply Nat.leb_gt. lia. }
  change (6 + n) with (S (S (S (S (S (S n)))))).
  run_step. rewrite Hexp.
  match goal with
  | |- context [provider E ?h ?c] => destruct (Hall h c) as (ami & ->)
  end.
  cbn. run_step. rewrite Hexp.
  match goal with
  | |- context [provider E ?h ?c] =>
      destruct (Hall h c) as (raw & Hraw);
      pose proof (Hrun h c raw eq_refl Hraw) as Hid; rewrite Hraw
  end.
  rewrite launched_output.
  destruct (at_path raw [Key "Instances"; Idx 0; Key "InstanceId"]) as [i|];
    [clear Hid|congruence].
  run_step. rewrite Hexp, Hdl.
  assert (Hle : Nat.leb dl (clock + 10) = false) by (apply Nat.leb_gt; lia).
  rewrite Hle. run_step. rewrite Hexp'.
  match goal with
  | |- context [provider E ?h ?c] =>
      destruct (Hall h c) as (st & Hstat);
      pose proof (Hst h c st eq_refl Hstat) as Hok; rewrite Hstat
  end.
  cbn. run_step_at. rewrite Hexp'.
  rewrite !status_path by auto.
  pose proof (healthy_present st Hok) as Hpres. destruct Hok as (H1 & H2).
  destruct (at_path st [Key "InstanceStatuses"; Idx 0]); [|congruence].
  rewrite H1, H2. cbn.
  run_step. rewrite Hexp'.
  match goal with
  | |- context [provider E ?h ?c] => destruct (Hall h c) as (r & ->)
  end.
  cbn. eauto.
Qed.

Lemma create_item_succeeds (n : nat) (z : AzConfiguration) (tr : list Event)
  (clock : nat) :
  clock + 10 < dl ->
  exists d o,
    exec (6 + n) E X g "GetNatInstanceImageTask" (az_json z) tr clock
    = (tr ++ d, clock + 10, Succeeded o).
Proof.
  intros Hclock.
  destruct (create_item_outcome n z tr clock Hclock) as (tr' & o & H).
  destruct (exec_grows (6 + n) E X g "GetNatInstanceImageTask" (az_json z) tr clock)
    as (d & Hd).
  rewrite H in Hd. cbn in Hd. subst tr'. eauto.
Qed.
End Cooperative.

Ltac hunt :=
  match goal with
  | |- In ?x (?x :: _) => left; reflexivity
  | |- In _ (_ :: _) => right; hunt
  | |- In _ (_ ++ _) => apply in_or_app; first [left; hunt | right; hunt]
  end.

Lemma failover_succeeds (E : Env) (X : Execution) (f : nat)
  (azs : list AzConfiguration) (input : json) (tr : list Event) (clock : nat) :
  deadline X = None ->
  (forall h c, exists r, provider E h c = Ok r) ->
  exists delta out,
    exec (S (S (S f))) E X (states (definitionBody (failoverStateMachine azs)))
      "GetAZConfigurations" input tr clock
    = (tr ++ delta, clock, Succeeded out).
Proof.
  intros HX Hall.
  destruct (failover_run E X f azs input tr clock HX) as (delta & out & Hrun & Hev & Ho).
  assert (Hok : all_ok delta = true).
  { apply answered_all_ok with (E := E); [exact (fun _ => True)|assumption|].
    eapply Forall_impl; [|exact Hev]. intros [| ? ? ? ? | |]; simpl; tauto. }
  destruct out as [o|e c| | |s]; try contradiction.
  - eauto.
  - destruct Ho as (_ & _ & Ho). congruence.
Qed.

Ltac item_succeeds E region account securityGroupId azs Hcoop z :=
  match goal with
  | |- context [exec (S (S (S (S (S (S ?n)))))) E ?X ?g "GetNatInstanceImageTask"
                  ?i ?t ?c] =>
      let tr1 := fresh "d" in
      let o1 := fresh "o" in
      let H1 := fresh "H" in
      destruct (create_item_succeeds E X 300 region account securityGroupId azs
                  eq_refl Hcoop n z t c ltac:(cbn; lia)) as (tr1 & o1 & H1);
      replace (exec (S (S (S (S (S (S n)))))) E X g "GetNatInstanceImageTask" i t c)
        with (t ++ tr1, c + 10, Succeeded o1) by (symmetry; exact H1);
      cbn [occupy Nat.eqb earliest fold_left Nat.min Nat.add]
  end.

Lemma replacement_succeeds (f : nat) (E : Env)
  (region account securityGroupId : string) (z1 z2 z3 : AzConfiguration)
  (input listing : json) :
  cooperative E ->
  (forall h l, provider E h (list_executions region account) = Ok l ->
               at_path l [Key "Executions"; Idx 1] = None) ->
  (forall h, provider E h describe_instances = Ok listing) ->
  reservations listing = Some [] ->
  exists tr o,
    start_execution (13 + f) E
      (replaceInstancesStateMachine region account securityGroupId [z1; z2; z3])
      input [] 0
    = (tr, 10, Succeeded o)
    /\ In (StateEntered 0 "NoOp") tr.
Proof.
  intros Hcoop Hone Hlist Hrs. pose proof Hcoop as (Hall & _).
  unfold start_execution.
  change (13 + f) with (S (S (S (S (S (S (S (S (S (S (S (S (S f))))))))))))).
  cbn.
  run_step.
  change (AwsSdk _ _ _) with (list_executions region account).
  match goal with
  | |- context [provider E ?h ?c] =>
      destruct (Hall h c) as (l1 & Hl1); pose proof (Hone h l1 Hl1) as Hex;
      rewrite Hl1
  end.
  cbn. run_step_at. rewrite Hex.
  run_step_at.
  match goal with
  | |- context [exec (S (S (S ?n))) E ?X' ?g "GetAZConfigurations" ?i ?t ?c] =>
      destruct (failover_succeeds E X' n [z1; z2; z3] i t c eq_refl Hall)
        as (delta & st & Hrun);
      replace (exec (S (S (S n))) E X' g "GetAZConfigurations" i t c)
        with (t ++ delta, c, Succeeded st) by (symmetry; exact Hrun)
  end.
  cbn. run_step_at.
  change (AwsSdk _ _ _) with describe_instances. rewrite Hlist.
  destruct listing as [| | | | |lo]; try discriminate. cbn in Hrs.
  destruct (lookup "Reservations" lo) as [[| | | |rs|]|] eqn:Hlo; try discriminate.
  injection Hrs as ->.
  cbn.
  run_step_at. unfold fan_out. cbn [map join lanes Nat.eqb List.length Nat.max repeat].
  cbn [earliest fold_left Nat.min].
  run_step. rewrite Hlo. cbn.
  run_step.
  cbn [occupy Nat.eqb earliest fold_left Nat.min].
  run_step.
  run_step.
  unfold fan_out. cbn [map join lanes Nat.eqb List.length Nat.max repeat].
  cbn [earliest fold_left Nat.min].
  item_succeeds E region account securityGroupId [z1; z2; z3] Hcoop z1.
  item_succeeds E region account securityGroupId [z1; z2; z3] Hcoop z2.
  item_succeeds E region account securityGroupId [z1; z2; z3] Hcoop z3.
  eexists _, _. split; [cbn; reflexivity|]. hunt.
Qed.



(** C1.  In the graph of ReplaceInstance, [TriggerFailover] runs the
    Failover state machine, is caught by the [ReplaceInstance] fail
    state and is followed by the listing of the instances, which is
    followed by the parallel step.  In every run, every call that
    lifts a termination protection or terminates an instance comes
    after the end of a succeeded Failover execution and after the
    route of every zone was replaced by its gateway; and a run whose
    Failover execution failed is [Failed] in the [ReplaceInstance]
    state without any such call. *)
Theorem replacement_terminates_only_after_failover
  (f : nat) (E : Env) (region account securityGroupId : string)
  (azs : list AzConfiguration) (input : json) :
  (resource_of "TriggerFailover" (replaceGraph region account securityGroupId azs)
   = Some (StepFunctionsStartExecution (failoverStateMachine azs))
   /\ catch_of "TriggerFailover" (replaceGraph region account securityGroupId azs)
      = Some "ReplaceInstance"
   /\ next_of "TriggerFailover" (replaceGraph region account securityGroupId azs)
      = Some "GetNatInstancesTask"
   /\ next_of "GetNatInstancesTask" (replaceGraph region account securityGroupId azs)
      = Some "InstancesReplacement")
  /\ exists tr clock out,
      start_execution (6 + f) E
        (replaceInstancesStateMachine region account securityGroupId azs) input [] 0
      = (tr, clock, out)
      /\ (forall pre t s c res post,
            tr = pre ++ TaskCalled t s c res :: post ->
            is_unprotect c || is_terminate c = true ->
            (exists t' st,
                In (ExecutionEnded t' "NATInstanceFailover" (SUCCEEDED st)) pre)
            /\ incl (map route_to_gateway azs) (calls pre))
      /\ (forall e c,
            ended "NATInstanceFailover" tr = Some (FAILED e c) ->
            out = Failed "ReplaceInstance" "ReplaceInstance"
            /\ terminations tr = []).
Proof.
  split; [repeat split|].
  destruct (replacement_run f E region account securityGroupId azs input)
    as (tr & clock & out & Hrun & head & d & tail & -> & Hh & Ht & Hd).
  exists (head ++ d ++ tail), clock, out. split; [exact Hrun|].
  assert (Hnq : forall t s c res,
             is_unprotect c || is_terminate c = true ->
             ~ quiet (TaskCalled t s c res)).
  { intros t s c res Hc (_ & H2 & H3). unfold is_unprotect in Hc.
    rewrite H2, H3 in Hc. discriminate. }
  destruct Hd as [(-> & Ho & Hf)|(listing & h & o & st & He & Hi & _)].
  - split.
    + intros pre t s c res post Heq Hc. exfalso.
      apply (Hnq t s c res Hc).
      assert (Hall : Forall quiet (head ++ [] ++ tail))
        by (apply Forall_app; split; assumption).
      rewrite Heq in Hall. apply Forall_app in Hall as (_ & Hall).
      inversion Hall; assumption.
    + intros e c Hfail. split; [exact (Hf e c Hfail)|].
      rewrite !terminations_app.
      destruct (quiet_calls head Hh) as (-> & _).
      destruct (quiet_calls tail Ht) as (-> & _). reflexivity.
  - split.
    + intros pre t s c res post Heq Hc.
      destruct (split_after quiet head (d ++ tail) pre _ post Heq Hh
                  (Hnq t s c res Hc)) as (pre' & -> & _).
      split.
      * destruct (ended_In _ _ _ He) as (t' & Hin). exists t', st.
        apply in_or_app. left. exact Hin.
      * intros x Hx. rewrite calls_app. apply in_or_app. left. exact (Hi x Hx).
    + intros e c Hfail. rewrite (ended_app_some _ _ _ _ He) in Hfail. discriminate.
Qed.


(** C5.  In every run of ReplaceInstance, every launch is in the
    public subnet of one of the zones, with termination protection
    enabled and the metadata service disabled, and every call that
    disables a source/destination check comes after a poll of the
    status of the same instance whose answer has both checks ok.
    [WaitForRun] waits 10 seconds before the next poll, and a poll
    without [$.Instance.InstanceStatuses[0]] goes from
    [IsInstanceReady?] back to [WaitForRun]. *)
Theorem new_instances_are_protected_and_checked_once_healthy
  (f : nat) (E : Env) (region account securityGroupId : string)
  (azs : list AzConfiguration) (input : json) :
  (exists tr clock out,
      start_execution (6 + f) E
        (replaceInstancesStateMachine region account securityGroupId azs) input [] 0
      = (tr, clock, out)
      /\ (forall c, In c (launches tr) -> exists z, In z azs /\ launches_in z c)
      /\ checked_before_disabling tr)
  /\ find_state "WaitForRun" (createItemProcessor region account securityGroupId azs)
     = Some (Wait 10 (Some "GetInstanceStateTask"))
  /\ (forall (X : Execution) (n : nat) (doc : json) (h : list Event) (clock : nat),
        expired (deadline X) clock = false ->
        at_path doc [Key "Instance"; Key "InstanceStatuses"; Idx 0] = None ->
        exec (S n) E X (createItemProcessor region account securityGroupId azs)
          "IsInstanceReady?" doc h clock
        = exec n E X (createItemProcessor region account securityGroupId azs)
            "WaitForRun" doc (h ++ [StateEntered clock "IsInstanceReady?"]) clock).
Proof.
  split; [|split].
  - destruct (replacement_run f E region account securityGroupId azs input)
      as (tr & clock & out & Hrun & Hh).
    destruct (replacement_calls E _ tr _ Hh) as (Hl & Hc & _).
    exists tr, clock, out. auto.
  - reflexivity.
  - intros X n doc h clock Hexp Hdoc.
    run_step_at. rewrite Hexp, Hdoc. reflexivity.
Qed.



Lemma world_cooperative (running : list json) (pipeline : string) (ff : bool) :
  cooperative (Example.world running pipeline ff).
Proof.
  split; [|split].
  - intros h [s a p|fn p]; cbn; [|eauto].
    repeat match goal with
           | |- context [if ?b then _ else _] => destruct b
           end; eauto.
  - intros h [s a p|fn p] r; cbn; [|discriminate].
    intros -> [= <-]. discriminate.
  - intros h [s a p|fn p] r; cbn; [|discriminate].
    intros -> [= <-]. split; reflexivity.
Qed.


(** C8, against a timeout of 30 minutes.  The timeout of the
    Maintenance state machine is 60 minutes, not 30.  With a pipeline
    that keeps building, the run is still polling the status at minute
    32, and it ends, timed out, at minute 60. *)
Theorem maintenance_still_polls_after_thirty_minutes :
  (forall region account securityGroupId imagePipelineArn azs,
      timeout (maintenanceStateMachine region account securityGroupId
                 imagePipelineArn azs) = Some (60 * 60))
  /\ exists tr,
      start_execution 100 Example.stuck
        (maintenanceStateMachine "eu-west-1" "123456789012" "sg-nat"
           "arn:aws:imagebuilder:pipeline" Example.zones) (JObj []) [] 0
      = (tr, 60 * 60, TimedOut)
      /\ In (TaskCalled (32 * 60) "GetImagePipelineStatusTask"
               (list_builds "eu-west-1" "123456789012")
               (Ok (Example.build "BUILDING"))) tr
      /\ ended "NATMaintenanceStateMachine" tr = Some TIMED_OUT
      /\ In (ExecutionEnded (60 * 60) "NATMaintenanceStateMachine" TIMED_OUT) tr.
Proof.
  split; [reflexivity|].
  eexists. split; [vm_compute; reflexivity|].
  split; [vm_compute; tauto|]. split; [vm_compute; reflexivity|].
  vm_compute; tauto.
Qed.

(** *** The polling loop of Maintenance *)

Lemma build_started_app (a b : list Event) :
  build_started (a ++ b) = build_started a || build_started b.
Proof. unfold build_started. rewrite calls_app, existsb_app. reflexivity. Qed.

Section Polling.
Variables (E : Env) (X : Execution).
Variables (region account securityGroupId imagePipelineArn : string).
Variable azs : list AzConfiguration.
Variable limit : nat.
Hypothesis deadline_X : deadline X = Some limit.
Hypothesis building :
  forall h, build_started h = true ->
    exists raw status,
      provider E h (list_builds region account) = Ok raw
      /\ pipeline_status raw = Some (JStr status)
      /\ status <> "AVAILABLE" /\ status <> "FAILED".

Let g :=
  states (definitionBody
            (maintenanceStateMachine region account securityGroupId
               imagePipelineArn azs)).

(** From a poll on, [k + 1] rounds of poll, choice and wait of two
    minutes bring the run to its deadline. *)
Lemma polling_times_out (f k : nat) :
  forall (input : json) (tr : list Event) (clock : nat),
    clock + 120 * S k = limit -> build_started tr = true ->
    exists d,
      exec (3 * S k + f) E X g "GetImagePipelineStatusTask" input tr clock
      = (tr ++ d, limit, TimedOut)
      /\ Forall inner d.
Proof.
  induction k as [|k IH]; intros input tr clock Hclock Hbuilt.
  1: change (3 * 1 + f) with (S (S (S f))).
  2: replace (3 * S (S k) + f) with (S (S (S (3 * S k + f)))) by lia.
  all: rewrite exec_S; unfold step; rewrite deadline_X; unfold expired;
    destruct (Nat.leb_spec limit clock) as [Hle|_]; [lia|];
    cbn -[Nat.leb Nat.add Nat.mul at_path task_output];
    change (AwsSdk _ _ _) with (list_builds region account);
    match goal with
    | |- context [provider E ?h (list_builds region account)] =>
        destruct (building h) as (raw & status & -> & Hst & Ha & Hf);
        [rewrite build_started_app, Hbuilt; reflexivity|]
    end;
    unfold task_output; cbn -[Nat.leb Nat.add Nat.mul at_path];
    unfold pipeline_status in Hst; rewrite Hst.
  all: cbn -[Nat.leb Nat.add Nat.mul at_path].
  all:
    rewrite exec_S; unfold step; rewrite deadline_X; unfold expired;
    destruct (Nat.leb_spec limit clock) as [Hle|_]; [lia|];
    cbn -[Nat.leb Nat.add Nat.mul];
    destruct (String.eqb_spec status "FAILED") as [?|_]; [contradiction|];
    destruct (String.eqb_spec status "AVAILABLE") as [?|_]; [contradiction|];
    cbn -[Nat.leb Nat.add Nat.mul];
    rewrite exec_S; unfold step; rewrite deadline_X; unfold expired;
    destruct (Nat.leb_spec limit clock) as [Hle|_]; [lia|];
    cbn -[Nat.leb Nat.add Nat.mul]; change (2 * 60) with 120.
  - destruct (Nat.leb_spec limit (clock + 120)) as [_|Hlt]; [|lia].
    eexists [_; _; _; _]. rewrite <- !app_assoc. split; [reflexivity|].
    repeat constructor.
  - destruct (Nat.leb_spec limit (clock + 120)) as [Hle|_]; [lia|].
    match goal with
    | |- context [exec ?n E X ?g' "GetImagePipelineStatusTask" ?i ?t (clock + 120)] =>
        destruct (IH i t (clock + 120)) as (d & Hrun & Hd);
        [lia|rewrite !build_started_app, Hbuilt; reflexivity|];
        replace (exec n E X g' "GetImagePipelineStatusTask" i t (clock + 120))
          with (t ++ d, limit, TimedOut) by (symmetry; exact Hrun)
    end.
    eexists (_ :: _ :: _ :: _ :: d).
    rewrite <- !app_assoc. split; [reflexivity|]. repeat constructor. exact Hd.
Qed.
End Polling.

(** C8, amended.  The polling loop of Maintenance is bounded by the
    timeout of the state machine, which is 60 minutes.  When the guard
    lets the execution trigger a build and every later poll reports a
    status that is neither AVAILABLE nor FAILED, the execution, given
    fuel for its steps, ends timed out at minute 60: it went on
    polling and waiting, and started no other execution. *)
Theorem maintenance_polling_times_out_after_sixty_minutes
  (f : nat) (E : Env) (region account securityGroupId imagePipelineArn : string)
  (azs : list AzConfiguration) (input : json) :
  (forall h, build_started h = false ->
     exists raw,
       provider E h (list_builds region account) = Ok raw
       /\ (pipeline_status raw = Some (JStr "AVAILABLE")
           \/ pipeline_status raw = Some (JStr "FAILED"))) ->
  (forall h token, exists raw,
       provider E h (start_build imagePipelineArn token) = Ok raw) ->
  (forall h, build_started h = true ->
     exists raw status,
       provider E h (list_builds region account) = Ok raw
       /\ pipeline_status raw = Some (JStr status)
       /\ status <> "AVAILABLE" /\ status <> "FAILED") ->
  timeout (maintenanceStateMachine region account securityGroupId
             imagePipelineArn azs) = Some (60 * 60)
  /\ exists d,
      start_execution (79 + f) E
        (maintenanceStateMachine region account securityGroupId imagePipelineArn azs)
        input [] 0
      = (ExecutionStarted 0 "NATMaintenanceStateMachine"
           :: d ++ [ExecutionEnded (60 * 60) "NATMaintenanceStateMachine" TIMED_OUT],
         60 * 60, TimedOut)
      /\ Forall inner d.
Proof.
  intros Hguard Htrigger Hbuilding. split; [reflexivity|].
  unfold start_execution.
  change (79 + f) with (S (S (S (S (3 * S 24 + f))))).
  cbn -[Nat.mul Nat.add at_path task_output].
  rewrite exec_S; unfold step; cbn -[Nat.mul Nat.add at_path task_output].
  change (AwsSdk _ _ _) with (list_builds region account).
  match goal with
  | |- context [provider E ?h (list_builds region account)] =>
      destruct (Hguard h eq_refl) as (raw0 & -> & Hs)
  end.
  unfold task_output. cbn -[Nat.mul Nat.add at_path].
  unfold pipeline_status in Hs.
  assert (Hgo : exists status,
             at_path raw0 [Key "ImageSummaryList"; Idx 0; Key "State"; Key "Status"]
             = Some (JStr status)
             /\ (String.eqb status "AVAILABLE" || String.eqb status "FAILED" = true)).
  { destruct Hs as [Hs|Hs]; eexists; (split; [exact Hs|reflexivity]). }
  clear Hs. destruct Hgo as (status & -> & Hs).
  cbn -[Nat.mul Nat.add Nat.leb].
  rewrite exec_S; unfold step; cbn -[Nat.mul Nat.add Nat.leb].
  change (0 + 60 * 60 <=? 0) with false. cbv iota.
  assert (Hchoice : (if negb (String.eqb status "AVAILABLE")
                     then if negb (String.eqb status "FAILED")
                          then Some true else Some false
                     else Some false) = Some false).
  { destruct (String.eqb status "AVAILABLE"); [reflexivity|].
    cbn in Hs. rewrite Hs. reflexivity. }
  rewrite Hchoice. clear Hchoice Hs.
  rewrite exec_S; unfold step; cbn -[Nat.mul Nat.add Nat.leb].
  change (0 + 60 * 60 <=? 0) with false. cbv iota.
  match goal with
  | |- context [provider E ?h (AwsSdk ?s ?a (JObj [("ClientToken", JStr ?u); ?arn]))] =>
      change (AwsSdk s a (JObj [("ClientToken", JStr u); arn]))
        with (start_build imagePipelineArn u);
      destruct (Htrigger h u) as (raw1 & ->)
  end.
  cbn -[Nat.mul Nat.add Nat.leb].
  rewrite exec_S; unfold step; cbn -[Nat.mul Nat.add Nat.leb].
  change (0 + 60 * 60 <=? 0) with false. cbv iota.
  change (0 + 60 * 60 <=? 0 + 10 * 60) with false. cbv iota.
  match goal with
  | |- context [exec ?n E ?X ?g "GetImagePipelineStatusTask" ?i ?t ?c] =>
      destruct (polling_times_out E X region account securityGroupId imagePipelineArn
                  azs (60 * 60) eq_refl Hbuilding f 24 i t c eq_refl eq_refl)
        as (d & Hrun & Hd);
      replace (exec n E X g "GetImagePipelineStatusTask" i t c)
        with (t ++ d, 60 * 60, TimedOut) by (symmetry; exact Hrun)
  end.
  eexists (_ :: _ :: _ :: _ :: _ :: _ :: d). split.
  - cbn -[Nat.mul Nat.add]. rewrite <- ?app_assoc. reflexivity.
  - repeat constructor. exact Hd.
Qed.

(** A pipeline that is available at the guard and building at every
    poll after the build was triggered. *)
Lemma maintenance_polling_times_out_after_sixty_minutes_witness :
  timeout (maintenanceStateMachine "eu-west-1" "123456789012" "sg-nat"
             "arn:aws:imagebuilder:pipeline" Example.zones) = Some (60 * 60)
  /\ exists d,
      start_execution (79 + 0) Example.stuck
        (maintenanceStateMachine "eu-west-1" "123456789012" "sg-nat"
           "arn:aws:imagebuilder:pipeline" Example.zones) (JObj []) [] 0
      = (ExecutionStarted 0 "NATMaintenanceStateMachine"
           :: d ++ [ExecutionEnded (60 * 60) "NATMaintenanceStateMachine" TIMED_OUT],
         60 * 60, TimedOut)
      /\ Forall inner d.
Proof.
  apply (maintenance_polling_times_out_after_sixty_minutes 0 Example.stuck
           "eu-west-1" "123456789012" "sg-nat" "arn:aws:imagebuilder:pipeline"
           Example.zones (JObj [])).
  - intros h Hh. exists (Example.build "AVAILABLE"). split; [|left; reflexivity].
    cbn. unfold Example.stuck_answers. cbn.
    change (Example.started h) with (build_started h). rewrite Hh. reflexivity.
  - intros h token. eexists. reflexivity.
  - intros h Hh. exists (Example.build "BUILDING"), "BUILDING".
    split; [|split; [reflexivity|split; discriminate]].
    cbn. unfold Example.stuck_answers. cbn.
    change (Example.started h) with (build_started h). rewrite Hh. reflexivity.
Defined.


(** ** Concrete runs

    The statements above, at concrete zones, instances and providers. *)

(** Two running executions are listed. *)
Lemma replacement_fails_when_another_is_running_witness :
  exists tr,
    start_execution 3
      (Example.constant
         (Ok (JObj [("Executions",
                     JArr [JObj [("Name", JStr "current")];
                           JObj [("Name", JStr "other")]])])))
      (replaceInstancesStateMachine "eu-west-1" "123456789012" "sg-nat"
         Example.zones) (JObj []) [] 0
    = (tr, 0, SingletonConflict)
    /\ calls tr = [list_executions "eu-west-1" "123456789012"]
    /\ mutations tr = [].
Proof.
  apply (replacement_fails_when_another_is_running 0
           (Example.constant
              (Ok (JObj [("Executions",
                          JArr [JObj [("Name", JStr "current")];
                                JObj [("Name", JStr "other")]])])))
           "eu-west-1" "123456789012" "sg-nat" Example.zones (JObj [])
           (JObj [("Executions",
                   JArr [JObj [("Name", JStr "current")];
                         JObj [("Name", JStr "other")]])])
           [JObj [("Name", JStr "current")]; JObj [("Name", JStr "other")]]).
  - intros h. reflexivity.
  - reflexivity.
  - simpl. lia.
Defined.




(** A pipeline that is building. *)
Lemma maintenance_guard_follows_pipeline_status_witness :
  exists tr clock out,
    start_execution 4 (Example.constant (Ok (Example.build "BUILDING")))
      (maintenanceStateMachine "eu-west-1" "123456789012" "sg-nat"
         "arn:aws:imagebuilder:pipeline" Example.zones) (JObj []) [] 0
    = (tr, clock, out)
    /\ ("BUILDING" <> "AVAILABLE" -> "BUILDING" <> "FAILED" ->
        out = PipelineAlreadyRunning
        /\ calls tr = [list_builds "eu-west-1" "123456789012"]
        /\ mutations tr = [])
    /\ ("BUILDING" = "AVAILABLE" \/ "BUILDING" = "FAILED" ->
        exists token rest,
          calls tr
          = list_builds "eu-west-1" "123456789012"
              :: start_build "arn:aws:imagebuilder:pipeline" token :: rest).
Proof.
  apply (maintenance_guard_follows_pipeline_status 0
           (Example.constant (Ok (Example.build "BUILDING")))
           "eu-west-1" "123456789012" "sg-nat" "arn:aws:imagebuilder:pipeline"
           Example.zones (JObj []) (Example.build "BUILDING") "BUILDING").
  - intros h. reflexivity.
  - reflexivity.
Defined.

(** The instance [i-x] is in no public subnet of the zones. *)
Lemma fallback_fails_on_instance_outside_every_zone_witness :
  let doc := JObj [("InstanceId", JStr "i-x");
                   ("PublicSubnetId", JStr "subnet-elsewhere");
                   ("AzConfigurations",
                    JObj [("value", JArr (map az_json Example.zones))])] in
  let item := fallbackItemProcessor Example.zones in
  at_path doc [Key "AzConfigurations"; Key "value";
               FilterEq ["publicSubnetId"] ["PublicSubnetId"]] = Some (JArr [])
  /\ (forall X tr clock, deadline X = None ->
      exec 3 (Example.world Example.stray_instances "AVAILABLE" true) X item
        "RawAZConfigurations" (Example.reservation "i-x" "subnet-elsewhere") tr clock
      = (tr ++ [StateEntered clock "RawAZConfigurations";
                StateEntered clock "GetDesiredRouteTableId";
                StateEntered clock "ReplaceInstanceRouteTask"], clock,
         RuntimeError "ReplaceInstanceRouteTask"))
  /\ exists tr clock out,
      start_execution 5 (Example.world Example.stray_instances "AVAILABLE" true)
        (fallbackStateMachine Example.zones) (JObj []) [] 0
      = (tr, clock, out)
      /\ ((out = Failed "Fallback" "Fallback" /\ all_ok tr = false)
          \/ ((exists state, out = RuntimeError state)
              /\ forall t, ~ In (StateEntered t "Fallback") tr))
      /\ (forall o', out <> Succeeded o')
      /\ fallback_route Example.zones (Example.reservation "i-x" "subnet-elsewhere")
         = None
      /\ forall c, In c (mutations tr) ->
         exists r', In r' Example.stray_instances
                    /\ r' <> Example.reservation "i-x" "subnet-elsewhere"
                    /\ fallback_route Example.zones r' = Some c.
Proof.
  apply (fallback_fails_on_instance_outside_every_zone 0
           (Example.world Example.stray_instances "AVAILABLE" true) Example.zones []
           (JObj [("Reservations", JArr Example.stray_instances)]) Example.stray_instances
           (Example.reservation "i-x" "subnet-elsewhere")
           (JStr "i-x") (JStr "subnet-elsewhere")).
  - intros h. reflexivity.
  - reflexivity.
  - left. reflexivity.
  - reflexivity.
  - reflexivity.
Defined.

(** C9, against the catch of the map.  An instance outside every zone
    is listed before an instance of zone a, every call is answered,
    and the execution fails by the runtime error of
    [ReplaceInstanceRouteTask] under either policy of the fan-out:
    the [Fallback] fail state is not entered, and the history ends
    with the failure of the execution.  Whether the route of zone a
    was replaced by then depends on the schedule. *)
Lemma fallback_fails_without_entering_the_fail_state :
  zone_of Example.zones (JStr "subnet-elsewhere") = None
  /\ (let run :=
        start_execution 20 (Example.world Example.stray_instances "AVAILABLE" true)
          (fallbackStateMachine Example.zones) (JObj []) [] 0 in
      snd run = RuntimeError "ReplaceInstanceRouteTask"
      /\ existsb (fun e => match e with
                           | StateEntered _ "Fallback" => true
                           | _ => false
                           end) (fst (fst run)) = false
      /\ ended "NATInstanceFallback" (fst (fst run))
         = Some (FAILED "States.Runtime" "ReplaceInstanceRouteTask")
      /\ mutations (fst (fst run)) = [])
  /\ (let run :=
        start_execution 20 (Example.world Example.stray_instances "AVAILABLE" false)
          (fallbackStateMachine Example.zones) (JObj []) [] 0 in
      snd run = RuntimeError "ReplaceInstanceRouteTask"
      /\ existsb (fun e => match e with
                           | StateEntered _ "Fallback" => true
                           | _ => false
                           end) (fst (fst run)) = false
      /\ ended "NATInstanceFallback" (fst (fst run))
         = Some (FAILED "States.Runtime" "ReplaceInstanceRouteTask")
      /\ mutations (fst (fst run)) = [route_to_instance "rtb-a" (JStr "i-a")]).
Proof. vm_compute. repeat split. Qed.

(** A run of ReplaceInstance whose Failover execution fails: no
    instance is listed, launched or terminated. *)
Example replacement_stops_when_failover_fails :
  let r := start_execution 20 Example.without_routes
             (replaceInstancesStateMachine "eu-west-1" "123456789012" "sg-nat"
                Example.zones) (JObj []) [] 0 in
  ended "NATInstanceFailover" (fst (fst r)) = Some (FAILED "Failover" "Failover")
  /\ snd r = Failed "ReplaceInstance" "ReplaceInstance"
  /\ mutations (fst (fst r)) = map route_to_gateway [Example.zone "a"].
Proof. vm_compute. repeat split. Qed.


(** ** Strings *)

Lemma append_assoc (a b c : string) : ((a ++ b) ++ c = a ++ (b ++ c))%string.
Proof. induction a as [|x a IH]; cbn; [reflexivity|now rewrite IH]. Qed.

Lemma append_nil_r (a : string) : (a ++ "" = a)%string.
Proof. induction a as [|x a IH]; cbn; [reflexivity|now rewrite IH]. Qed.

Lemma length_append (a b : string) :
  String.length (a ++ b) = String.length a + String.length b.
Proof. induction a as [|x a IH]; cbn; [reflexivity|now rewrite IH]. Qed.

Lemma append_inv_head (a b c : string) : (a ++ b = a ++ c)%string -> b = c.
Proof. induction a as [|x a IH]; cbn; [auto|]. intros [= H]. auto. Qed.

Lemma split_not_nil (sep : Ascii.ascii) (s : string) : Js.split sep s <> [].
Proof.
  destruct s as [|c s]; cbn; [discriminate|].
  destruct (Ascii.eqb c sep); [discriminate|].
  destruct (Js.split sep s); discriminate.
Qed.

Lemma split_cons (sep c : Ascii.ascii) (s : string) :
  Ascii.eqb c sep = false ->
  exists part parts,
    Js.split sep s = part :: parts
    /\ Js.split sep (String c s) = String c part :: parts.
Proof.
  intros Hc. cbn. rewrite Hc.
  destruct (Js.split sep s) as [|part parts] eqn:Hs.
  - destruct (split_not_nil sep s Hs).
  - eauto.
Qed.

(** Joining the parts with the separator gives the string back. *)
Lemma join_split (sep : Ascii.ascii) (s : string) :
  Js.join (String sep "") (Js.split sep s) = s.
Proof.
  induction s as [|c s IH]; [reflexivity|].
  destruct (Ascii.eqb c sep) eqn:Hc.
  - cbn [Js.split]. rewrite Hc. apply Ascii.eqb_eq in Hc as ->.
    cbn [Js.join]. destruct (Js.split sep s) as [|p ps] eqn:Hs.
    + destruct (split_not_nil sep s Hs).
    + cbn. now rewrite <- IH.
  - destruct (split_cons sep c s Hc) as (part & parts & Hs & ->).
    rewrite Hs in IH. rewrite <- IH. destruct parts; reflexivity.
Qed.

Lemma split_parts (sep : Ascii.ascii) (s : string) :
  Forall (fun part => occurs sep part = false) (Js.split sep s).
Proof.
  induction s as [|c s IH]; [repeat constructor|].
  destruct (Ascii.eqb c sep) eqn:Hc.
  - cbn [Js.split]. rewrite Hc. constructor; [reflexivity|exact IH].
  - destruct (split_cons sep c s Hc) as (part & parts & Hs & ->).
    rewrite Hs in IH. inversion IH; subst. constructor; [|assumption].
    cbn. rewrite Hc. assumption.
Qed.

(** Splitting distributes over a separator. *)
Lemma split_app (sep : Ascii.ascii) (a b : string) :
  Js.split sep (a ++ String sep b) = Js.split sep a ++ Js.split sep b.
Proof.
  induction a as [|c a IH].
  - cbn. rewrite Ascii.eqb_refl. reflexivity.
  - destruct (Ascii.eqb c sep) eqn:Hc.
    + cbn. rewrite Hc, IH. reflexivity.
    + cbn. rewrite Hc, IH.
      destruct (Js.split sep a) as [|p ps] eqn:Hs; [destruct (split_not_nil sep a Hs)|].
      reflexivity.
Qed.

Lemma split_whole (sep : Ascii.ascii) (s : string) :
  occurs sep s = false -> Js.split sep s = [s].
Proof.
  induction s as [|c s IH]; [reflexivity|]. cbn.
  destruct (Ascii.eqb c sep); [discriminate|]. cbn. intros H.
  rewrite (IH H). reflexivity.
Qed.

(** Splitting what was joined gives the parts back. *)
Lemma split_join (sep : Ascii.ascii) (parts : list string) :
  parts <> [] ->
  Forall (fun part => occurs sep part = false) parts ->
  Js.split sep (Js.join (String sep "") parts) = parts.
Proof.
  induction parts as [|p parts IH]; [congruence|]. intros _ H.
  inversion H as [|? ? Hp Hparts]; subst.
  destruct parts as [|q parts].
  - cbn. apply split_whole. assumption.
  - change (Js.join (String sep "") (p :: q :: parts))
      with (p ++ String sep (Js.join (String sep "") (q :: parts)))%string.
    rewrite split_app, IH by (congruence || assumption).
    rewrite (split_whole sep p Hp). reflexivity.
Qed.

Lemma join_app (sep : string) (l1 l2 : list string) :
  l1 <> [] -> l2 <> [] ->
  Js.join sep (l1 ++ l2) = (Js.join sep l1 ++ sep ++ Js.join sep l2)%string.
Proof.
  induction l1 as [|p l1 IH]; [congruence|]. intros _ H2.
  destruct l1 as [|q l1].
  - destruct l2; [congruence|reflexivity].
  - change (Js.join sep ((p :: q :: l1) ++ l2))
      with (p ++ sep ++ Js.join sep ((q :: l1) ++ l2))%string.
    rewrite IH by (congruence || assumption).
    cbn [Js.join]. rewrite !append_assoc. reflexivity.
Qed.

(** ** The camel case name of an availability zone *)

Lemma capitalizeAll_none (parts : list string) :
  VpcStack.capitalizeAll parts = None <-> In "" parts.
Proof.
  induction parts as [|p parts IH]; cbn; [split; [discriminate|tauto]|].
  destruct p as [|c p]; cbn.
  - split; auto.
  - destruct (VpcStack.capitalizeAll parts).
    + split; [discriminate|]. intros [H|H]; [discriminate|]. apply IH in H. discriminate.
    + split; auto. intros _. right. apply IH. reflexivity.
Qed.

Lemma in_split_empty (sep : Ascii.ascii) (s : string) :
  In "" (Js.split sep s)
  <-> s = ""
      \/ (exists t, s = String sep t)
      \/ (exists t, s = (t ++ String sep "")%string)
      \/ (exists a b, s = (a ++ String sep (String sep b))%string).
Proof.
  split.
  - intros H. apply in_split in H as (l1 & l2 & Hl).
    pose proof (join_split sep s) as Hs. rewrite Hl in Hs.
    destruct l1 as [|p l1], l2 as [|q l2].
    + left. now rewrite <- Hs.
    + right. left. exists (Js.join (String sep "") (q :: l2)). now rewrite <- Hs.
    + right. right. left. exists (Js.join (String sep "") (p :: l1)).
      rewrite <- Hs, join_app by discriminate. reflexivity.
    + right. right. right.
      exists (Js.join (String sep "") (p :: l1)), (Js.join (String sep "") (q :: l2)).
      rewrite <- Hs, join_app by discriminate. reflexivity.
  - intros [->|[(t & ->)|[(t & ->)|(a & b & ->)]]].
    + left. reflexivity.
    + cbn. rewrite Ascii.eqb_refl. left. reflexivity.
    + rewrite split_app. apply in_or_app. right. left. reflexivity.
    + rewrite split_app. apply in_or_app. right. cbn. rewrite Ascii.eqb_refl.
      left. reflexivity.
Qed.

(** X1.  [getCamelCaseAvailabilityZoneName] throws exactly on a name
    with an empty part: the empty name, a name that starts or ends
    with a dash, and a name with two dashes in a row. *)
Theorem camel_case_name_throws_on_an_empty_part (availabilityZone : string) :
  VpcStack.getCamelCaseAvailabilityZoneName availabilityZone = None
  <-> availabilityZone = ""
      \/ (exists t, availabilityZone = ("-" ++ t)%string)
      \/ (exists t, availabilityZone = (t ++ "-")%string)
      \/ (exists a b, availabilityZone = (a ++ "--" ++ b)%string).
Proof.
  unfold VpcStack.getCamelCaseAvailabilityZoneName.
  rewrite <- (in_split_empty Js.DASH), <- capitalizeAll_none.
  destruct (VpcStack.capitalizeAll _); split; congruence.
Qed.

Lemma lower_upper (c : Ascii.ascii) :
  Js.toLowerCase (Js.toUpperCase c) = Js.toLowerCase c.
Proof. destruct c as [[] [] [] [] [] [] [] []]; reflexivity. Qed.

Lemma upper_dash (c : Ascii.ascii) :
  Ascii.eqb (Js.toUpperCase c) Js.DASH = Ascii.eqb c Js.DASH.
Proof. destruct c as [[] [] [] [] [] [] [] []]; reflexivity. Qed.

Lemma join_nothing (parts : list string) :
  Js.join "" parts = fold_right String.append "" parts.
Proof.
  induction parts as [|p parts IH]; [reflexivity|].
  destruct parts as [|q parts]; [cbn; now rewrite append_nil_r|].
  change (Js.join "" (p :: q :: parts)) with (p ++ "" ++ Js.join "" (q :: parts))%string.
  rewrite IH. reflexivity.
Qed.

Lemma without_append (c : Ascii.ascii) (a b : string) :
  without c (a ++ b) = (without c a ++ without c b)%string.
Proof.
  induction a as [|x a IH]; [reflexivity|]. cbn.
  destruct (Ascii.eqb x c); cbn; now rewrite IH.
Qed.

Lemma lowered_append (a b : string) :
  lowered (a ++ b) = (lowered a ++ lowered b)%string.
Proof. induction a as [|x a IH]; cbn; [reflexivity|now rewrite IH]. Qed.

Lemma occurs_append (c : Ascii.ascii) (a b : string) :
  occurs c (a ++ b) = occurs c a || occurs c b.
Proof.
  induction a as [|x a IH]; [reflexivity|]. cbn. now rewrite IH, orb_assoc.
Qed.

Lemma without_absent (c : Ascii.ascii) (s : string) :
  occurs c s = false -> without c s = s.
Proof.
  induction s as [|x s IH]; [reflexivity|]. cbn.
  destruct (Ascii.eqb x c); [discriminate|]. cbn. intros H. now rewrite IH.
Qed.

(** The parts of a string, put together, are the string without the
    separators. *)
Lemma split_without (sep : Ascii.ascii) (s : string) :
  fold_right String.append "" (Js.split sep s) = without sep s.
Proof.
  induction s as [|c s IH]; [reflexivity|].
  destruct (Ascii.eqb c sep) eqn:Hc.
  - cbn. rewrite Hc. cbn. exact IH.
  - destruct (split_cons sep c s Hc) as (part & parts & Hs & ->).
    cbn. rewrite Hc. rewrite Hs in IH. cbn in IH. now rewrite IH.
Qed.

Lemma capitalized (parts caps : list string) :
  VpcStack.capitalizeAll parts = Some caps ->
  Forall (fun part => occurs Js.DASH part = false) parts ->
  occurs Js.DASH (fold_right String.append "" caps) = false
  /\ lowered (fold_right String.append "" caps)
     = lowered (fold_right String.append "" parts).
Proof.
  revert caps. induction parts as [|p parts IH]; intros caps; cbn.
  - intros [= <-] _. split; reflexivity.
  - destruct p as [|c p]; [discriminate|]. cbn.
    destruct (VpcStack.capitalizeAll parts) as [ps|]; [|discriminate].
    intros [= <-] H. inversion H as [|? ? Hp Hparts]; subst.
    destruct (IH ps eq_refl Hparts) as (Ho & Hl). cbn in *.
    rewrite upper_dash, lower_upper, !occurs_append, !lowered_append, Ho, Hl.
    split; [|reflexivity].
    destruct (Ascii.eqb c Js.DASH); [discriminate|]. cbn in *. now rewrite Hp.
Qed.

Lemma camel_case_lowered (availabilityZone name : string) :
  VpcStack.getCamelCaseAvailabilityZoneName availabilityZone = Some name ->
  lowered name = lowered (without Js.DASH availabilityZone).
Proof.
  unfold VpcStack.getCamelCaseAvailabilityZoneName.
  destruct (VpcStack.capitalizeAll _) as [caps|] eqn:Hc; [|discriminate].
  intros [= <-]. rewrite join_nothing.
  destruct (capitalized _ caps Hc (split_parts _ _)) as (_ & Hl).
  rewrite split_without in Hl. exact Hl.
Qed.

(** X2.  When [getCamelCaseAvailabilityZoneName] returns a name, the
    name has no dash, and up to the case of the letters it is the
    zone name without its dashes. *)
Theorem camel_case_name_drops_dashes_and_keeps_letters
  (availabilityZone name : string) :
  VpcStack.getCamelCaseAvailabilityZoneName availabilityZone = Some name ->
  occurs Js.DASH name = false
  /\ lowered name = lowered (without Js.DASH availabilityZone).
Proof.
  unfold VpcStack.getCamelCaseAvailabilityZoneName.
  destruct (VpcStack.capitalizeAll _) as [caps|] eqn:Hc; [|discriminate].
  intros [= <-]. rewrite join_nothing.
  destruct (capitalized _ caps Hc (split_parts _ _)) as (Ho & Hl).
  rewrite split_without in Hl. split; [exact Ho|exact Hl].
Qed.

Lemma camel_case_name_drops_dashes_and_keeps_letters_witness :
  occurs Js.DASH "EuWest1a" = false
  /\ lowered "EuWest1a" = lowered (without Js.DASH "eu-west-1a").
Proof.
  apply (camel_case_name_drops_dashes_and_keeps_letters "eu-west-1a" "EuWest1a").
  reflexivity.
Defined.

Lemma append_inj_last (a : string) (x y : Ascii.ascii) :
  (a ++ String x "" = a ++ String y "")%string -> x = y.
Proof. intros H. apply append_inv_head in H. congruence. Qed.

(** X3.  Two different availability zones of the region of the
    NatInstances stack never get the same camel case name, so the
    construct ids the Vpc stack derives from them do not clash. *)
Theorem camel_case_names_of_a_region_are_distinct
  (region zone1 zone2 name1 name2 : string) :
  In zone1 (availabilityZones region) -> In zone2 (availabilityZones region) ->
  zone1 <> zone2 ->
  VpcStack.getCamelCaseAvailabilityZoneName zone1 = Some name1 ->
  VpcStack.getCamelCaseAvailabilityZoneName zone2 = Some name2 ->
  name1 <> name2.
Proof.
  intros H1 H2 Hd N1 N2 <-.
  apply camel_case_lowered in N1 as L1.
  apply camel_case_lowered in N2 as L2.
  rewrite L1 in L2. clear L1.
  cbn in H1, H2.
  destruct H1 as [<-|[<-|[<-|[]]]]; destruct H2 as [<-|[<-|[<-|[]]]];
    try (now apply Hd);
    rewrite !without_append, !lowered_append in L2;
    apply append_inv_head in L2; discriminate.
Qed.

Lemma camel_case_names_of_a_region_are_distinct_witness : "EuWest1a" <> "EuWest1b".
Proof.
  apply (camel_case_names_of_a_region_are_distinct "eu-west-1"
           "eu-west-1a" "eu-west-1b" "EuWest1a" "EuWest1b").
  - left. reflexivity.
  - right. left. reflexivity.
  - discriminate.
  - reflexivity.
  - reflexivity.
Defined.


(** ** The documents of the image builder components *)

Lemma occurs_indented_line (line : string) :
  occurs Js.LF line = false -> occurs Js.LF ("              " ++ line) = false.
Proof. intros H. rewrite occurs_append, H. reflexivity. Qed.

(** X4.  The indented script of a component has the lines of the
    script, in order and as many, each behind 14 spaces. *)
Theorem indented_script_keeps_the_lines (componentScriptContent : string) :
  Js.split Js.LF (NatInstancesPipeline.indentedScriptContent componentScriptContent)
  = map (fun line => ("              " ++ line)%string)
        (Js.split Js.LF componentScriptContent).
Proof.
  unfold NatInstancesPipeline.indentedScriptContent. apply split_join.
  - intros H. apply map_eq_nil in H. exact (split_not_nil _ _ H).
  - apply Forall_map. eapply Forall_impl; [|apply split_parts].
    intros line. apply occurs_indented_line.
Qed.

(** *** The first occurrence of a pattern *)

Lemma prefix_append (p s : string) :
  String.prefix p s = true <-> exists a, s = (p ++ a)%string.
Proof.
  revert s. induction p as [|c p IH]; intros s.
  - split; [intros _; exists s; reflexivity|intros _; destruct s; reflexivity].
  - destruct s as [|d s]; [split; [discriminate|intros (a & H); discriminate]|].
    change (String.prefix (String c p) (String d s))
      with (if Ascii.ascii_dec c d then String.prefix p s else false).
    destruct (Ascii.ascii_dec c d) as [->|Hn].
    + rewrite IH. split; intros (a & H); exists a; cbn in *; congruence.
    + split; [discriminate|]. intros (a & [= H _]). congruence.
Qed.

Lemma drop_append (p a : string) : Js.drop (String.length p) (p ++ a) = a.
Proof. induction p as [|c p IH]; cbn; [destruct a; reflexivity|exact IH]. Qed.

Lemma search_eq (pattern s : string) :
  Js.search pattern s
  = if String.prefix pattern s then Some ("", Js.drop (String.length pattern) s)
    else match s with
         | EmptyString => None
         | String c s' =>
             match Js.search pattern s' with
             | Some (before, after) => Some (String c before, after)
             | None => None
             end
         end.
Proof. destruct s; reflexivity. Qed.

Lemma search_sound (pattern s before after : string) :
  Js.search pattern s = Some (before, after) ->
  first_occurrence pattern s before after.
Proof.
  revert before. induction s as [|c s IH]; intros before; rewrite search_eq;
    destruct (String.prefix pattern _) eqn:Hp.
  - apply prefix_append in Hp as (a & Ha).
    destruct pattern; [|discriminate]. destruct a; [|discriminate].
    intros [= <- <-]. split; [reflexivity|]. intros; cbn; lia.
  - discriminate.
  - apply prefix_append in Hp as (a & Ha). rewrite Ha, drop_append.
    intros [= <- <-]. split; [reflexivity|]. intros; cbn; lia.
  - destruct (Js.search pattern s) as [[b a]|]; [|discriminate].
    intros [= <- <-]. destruct (IH b eq_refl) as (Hb & Hmin).
    split; [cbn; congruence|].
    intros [|d b'] a' H'.
    + exfalso. assert (String.prefix pattern (String c s) = true)
        by (apply prefix_append; eauto). congruence.
    + cbn in H'. injection H' as _ H'. cbn. apply le_n_S. eauto.
Qed.

Lemma search_complete (pattern s before after : string) :
  first_occurrence pattern s before after ->
  Js.search pattern s = Some (before, after).
Proof.
  revert s. induction before as [|c b IH]; intros s (Hs & Hmin); rewrite search_eq.
  - cbn in Hs. subst s.
    assert (Hp : String.prefix pattern (pattern ++ after) = true)
      by (apply prefix_append; eauto).
    rewrite Hp, drop_append. reflexivity.
  - destruct (String.prefix pattern s) eqn:Hp.
    + apply prefix_append in Hp as (a & Ha).
      specialize (Hmin "" a Ha). cbn in Hmin. lia.
    + subst s. cbn. rewrite (IH (b ++ pattern ++ after)%string); [reflexivity|].
      split; [reflexivity|]. intros b' a' H'.
      specialize (Hmin (String c b') a'). cbn in Hmin.
      apply le_S_n, Hmin. congruence.
Qed.

Lemma search_none (pattern s : string) :
  Js.search pattern s = None <-> forall b a, s <> (b ++ pattern ++ a)%string.
Proof.
  split.
  - intros Hn b. revert s Hn. induction b as [|c b IH]; intros s Hn a Hs.
    + rewrite search_eq in Hn.
      destruct (String.prefix pattern s) eqn:Hp; [discriminate|].
      assert (String.prefix pattern s = true) by (apply prefix_append; eauto).
      congruence.
    + destruct s as [|d s]; [discriminate|]. cbn in Hs. injection Hs as -> Hs.
      rewrite search_eq in Hn. destruct (String.prefix pattern _); [discriminate|].
      destruct (Js.search pattern s) as [[? ?]|] eqn:Hs'; [discriminate|].
      exact (IH s Hs' a Hs).
  - intros H. destruct (Js.search pattern s) as [[b a]|] eqn:Hs; [|reflexivity].
    apply search_sound in Hs as (Hs & _). destruct (H b a Hs).
Qed.

(** *** The replacement text *)

Lemma plain_cons (d : Ascii.ascii) (t : string) :
  Ascii.eqb d Js.DOLLAR = false -> plain (String d t) = plain t.
Proof. intros H. destruct t; cbn; [reflexivity|]. now rewrite H. Qed.

Lemma getSubstitution_step (matched before after : string) (d c : Ascii.ascii)
  (rest : string) :
  Js.getSubstitution matched before after (String d (String c rest))
  = if Ascii.eqb d Js.DOLLAR then
      if Ascii.eqb c Js.DOLLAR then
        String Js.DOLLAR (Js.getSubstitution matched before after rest)
      else if Ascii.eqb c Js.AMPERSAND then
        (matched ++ Js.getSubstitution matched before after rest)%string
      else if Ascii.eqb c Js.BACKQUOTE then
        (before ++ Js.getSubstitution matched before after rest)%string
      else if Ascii.eqb c Js.QUOTE then
        (after ++ Js.getSubstitution matched before after rest)%string
      else String d (Js.getSubstitution matched before after (String c rest))
    else String d (Js.getSubstitution matched before after (String c rest)).
Proof. reflexivity. Qed.

Lemma getSubstitution_plain (matched before after template : string) :
  plain template = true ->
  Js.getSubstitution matched before after template = template.
Proof.
  induction template as [|d t IH]; [reflexivity|]. intros H.
  destruct t as [|c rest].
  - cbn. destruct (Ascii.eqb d Js.DOLLAR); reflexivity.
  - rewrite getSubstitution_step.
    cbn [plain] in H. apply andb_prop in H as (Hd & Ht).
    rewrite (IH Ht).
    destruct (Ascii.eqb d Js.DOLLAR); [|reflexivity]. cbn in Hd.
    destruct (Ascii.eqb c Js.DOLLAR); [discriminate|].
    destruct (Ascii.eqb c Js.AMPERSAND); [discriminate|].
    destruct (Ascii.eqb c Js.BACKQUOTE); [discriminate|].
    destruct (Ascii.eqb c Js.QUOTE); [discriminate|]. reflexivity.
Qed.

Lemma join_cons (sep p : string) (ps : list string) :
  Js.join sep (p :: ps)
  = (p ++ match ps with [] => "" | _ => sep ++ Js.join sep ps end)%string.
Proof. destruct ps; cbn; [now rewrite append_nil_r|reflexivity]. Qed.

(** The indented script, character by character. *)
Lemma indented_characters (script : string) :
  NatInstancesPipeline.indentedScriptContent script
  = ("              " ++ indentedAfterLineFeeds script)%string.
Proof.
  unfold NatInstancesPipeline.indentedScriptContent.
  induction script as [|c s IH]; [reflexivity|].
  cbn [indentedAfterLineFeeds]. destruct (Ascii.eqb c Js.LF) eqn:Hc.
  - cbn [Js.split]. rewrite Hc. cbn [map]. rewrite join_cons.
    destruct (Js.split Js.LF s) as [|p ps] eqn:Hs; [destruct (split_not_nil _ _ Hs)|].
    cbn [map]. change (map _ (p :: ps))
      with (map (fun line => ("              " ++ line)%string) (p :: ps)) in IH.
    cbn [map] in IH. rewrite IH.
    apply Ascii.eqb_eq in Hc as ->. reflexivity.
  - destruct (split_cons Js.LF c s Hc) as (p & ps & Hs & ->).
    rewrite Hs in IH. cbn [map] in *. rewrite join_cons in *.
    rewrite append_assoc in IH. apply append_inv_head in IH.
    rewrite append_assoc. cbn. now rewrite <- IH.
Qed.

Lemma plain_step (d c : Ascii.ascii) (t : string) :
  plain (String d (String c t))
  = negb (Ascii.eqb d Js.DOLLAR
          && (Ascii.eqb c Js.DOLLAR || Ascii.eqb c Js.AMPERSAND
              || Ascii.eqb c Js.BACKQUOTE || Ascii.eqb c Js.QUOTE))
    && plain (String c t).
Proof. reflexivity. Qed.

Lemma plain_indented_after (script : string) :
  forall d, plain (String d script) = true ->
            plain (String d (indentedAfterLineFeeds script)) = true.
Proof.
  induction script as [|c s IH]; intros d H; [reflexivity|].
  cbn [indentedAfterLineFeeds]. rewrite plain_step in H.
  apply andb_prop in H as (Hd & Hs).
  destruct (Ascii.eqb c Js.LF) eqn:Hc.
  - rewrite plain_step, Hd. cbn [andb String.append].
    apply Ascii.eqb_eq in Hc. subst c.
    do 14 rewrite plain_cons by reflexivity.
    apply (IH Js.SPACE). rewrite plain_cons by reflexivity.
    rewrite plain_cons in Hs by reflexivity. exact Hs.
  - rewrite plain_step, Hd. cbn [andb]. exact (IH c Hs).
Qed.

Lemma plain_indented (script : string) :
  plain script = true ->
  plain (NatInstancesPipeline.indentedScriptContent script) = true.
Proof.
  intros H. rewrite indented_characters. cbn [String.append].
  do 13 rewrite plain_cons by reflexivity.
  apply plain_indented_after. now rewrite plain_cons.
Qed.

Lemma component_data (placeholder : string)
  (create : string -> string -> NatInstancesPipeline.CfnComponent) :
  In (placeholder, create) components ->
  forall yaml script,
    NatInstancesPipeline.data (create yaml script)
    = NatInstancesPipeline.componentContent placeholder yaml script.
Proof.
  intros [[= <- <-]|[[= <- <-]|[[= <- <-]|[]]]]; reflexivity.
Qed.

(** X5.  For each of the three components: when the placeholder
    occurs in the document and no dollar of the script is followed by
    a dollar, an ampersand, a backquote or a quote, the data of the
    component is the document with the first occurrence of the
    placeholder replaced by the indented script. *)
Theorem component_document_embeds_the_indented_script
  (placeholder : string)
  (create : string -> string -> NatInstancesPipeline.CfnComponent)
  (componentYamlContent componentScriptContent before after : string) :
  In (placeholder, create) components ->
  first_occurrence placeholder componentYamlContent before after ->
  plain componentScriptContent = true ->
  NatInstancesPipeline.data (create componentYamlContent componentScriptContent)
  = (before ++ NatInstancesPipeline.indentedScriptContent componentScriptContent
       ++ after)%string.
Proof.
  intros Hin Hfirst Hplain. rewrite (component_data _ _ Hin).
  unfold NatInstancesPipeline.componentContent, Js.replace.
  rewrite (search_complete _ _ _ _ Hfirst).
  rewrite getSubstitution_plain by (apply plain_indented; exact Hplain).
  reflexivity.
Qed.

(** X6.  For each of the three components: when the placeholder does
    not occur in the document, the data of the component is the
    document as it is, and the script is dropped without an error. *)
Theorem component_document_without_placeholder_drops_the_script
  (placeholder : string)
  (create : string -> string -> NatInstancesPipeline.CfnComponent)
  (componentYamlContent componentScriptContent : string) :
  In (placeholder, create) components ->
  (forall before after,
      componentYamlContent <> (before ++ placeholder ++ after)%string) ->
  NatInstancesPipeline.data (create componentYamlContent componentScriptContent)
  = componentYamlContent.
Proof.
  intros Hin Hnone. rewrite (component_data _ _ Hin).
  unfold NatInstancesPipeline.componentContent, Js.replace.
  apply search_none in Hnone. rewrite Hnone. reflexivity.
Qed.

(** *** A doubled dollar *)

Lemma endsWith_cons (c d : Ascii.ascii) (s : string) :
  s <> "" -> endsWith c (String d s) = endsWith c s.
Proof. destruct s; [congruence|reflexivity]. Qed.

Lemma endsWith_append (c : Ascii.ascii) (u v : string) :
  endsWith c u = false -> endsWith c v = false -> endsWith c (u ++ v) = false.
Proof.
  induction u as [|d u IH]; intros Hu Hv; [exact Hv|].
  destruct u as [|e u].
  - destruct v as [|e v]; [exact Hu|]. cbn [String.append].
    rewrite endsWith_cons by discriminate. exact Hv.
  - rewrite endsWith_cons in Hu by discriminate.
    cbn [String.append] in *. rewrite endsWith_cons by discriminate. auto.
Qed.

Lemma indented_cons (c : Ascii.ascii) (t : string) :
  indentedAfterLineFeeds (String c t)
  = if Ascii.eqb c Js.LF
    then String c ("              " ++ indentedAfterLineFeeds t)
    else String c (indentedAfterLineFeeds t).
Proof. reflexivity. Qed.

Lemma indented_not_empty (c : Ascii.ascii) (t : string) :
  indentedAfterLineFeeds (String c t) <> "".
Proof. rewrite indented_cons. destruct (Ascii.eqb c Js.LF); discriminate. Qed.

Lemma endsWith_indented (t : string) :
  endsWith Js.DOLLAR t = false ->
  endsWith Js.DOLLAR (indentedAfterLineFeeds t) = false.
Proof.
  induction t as [|d t IH]; intros H; [reflexivity|].
  rewrite indented_cons. destruct t as [|e t].
  - destruct (Ascii.eqb d Js.LF); [reflexivity|exact H].
  - rewrite endsWith_cons in H by discriminate. specialize (IH H).
    pose proof (indented_not_empty e t) as Hne.
    destruct (Ascii.eqb d Js.LF).
    + rewrite endsWith_cons by discriminate.
      apply endsWith_append; [reflexivity|exact IH].
    + rewrite endsWith_cons by exact Hne. exact IH.
Qed.

Lemma indented_append (u v : string) :
  indentedAfterLineFeeds (u ++ v)
  = (indentedAfterLineFeeds u ++ indentedAfterLineFeeds v)%string.
Proof.
  induction u as [|d u IH]; [reflexivity|]. cbn [String.append].
  rewrite !indented_cons, IH.
  destruct (Ascii.eqb d Js.LF); reflexivity.
Qed.

Lemma getSubstitution_double (matched before after u v : string) :
  plain u = true -> endsWith Js.DOLLAR u = false ->
  Js.getSubstitution matched before after (u ++ String Js.DOLLAR (String Js.DOLLAR v))
  = (u ++ String Js.DOLLAR (Js.getSubstitution matched before after v))%string.
Proof.
  induction u as [|d u IH]; intros Hp He; [reflexivity|].
  destruct u as [|c u].
  - cbn [String.append]. rewrite getSubstitution_step.
    cbn [endsWith] in He. rewrite He. reflexivity.
  - rewrite plain_step in Hp. apply andb_prop in Hp as (Hd & Hp).
    rewrite endsWith_cons in He by discriminate.
    cbn [String.append] in *. rewrite getSubstitution_step, (IH Hp He).
    destruct (Ascii.eqb d Js.DOLLAR); [|reflexivity]. cbn in Hd.
    destruct (Ascii.eqb c Js.DOLLAR); [discriminate|].
    destruct (Ascii.eqb c Js.AMPERSAND); [discriminate|].
    destruct (Ascii.eqb c Js.BACKQUOTE); [discriminate|].
    destruct (Ascii.eqb c Js.QUOTE); [discriminate|]. reflexivity.
Qed.

(** X7.  For each of the three components: a doubled dollar of the
    script, the process id of the shell, reaches the data of the
    component as a single dollar; the script is otherwise plain and
    the text before the doubled dollar does not end with a dollar. *)
Theorem component_document_halves_a_doubled_dollar
  (placeholder : string)
  (create : string -> string -> NatInstancesPipeline.CfnComponent)
  (componentYamlContent before after script1 script2 : string) :
  In (placeholder, create) components ->
  first_occurrence placeholder componentYamlContent before after ->
  plain script1 = true -> endsWith Js.DOLLAR script1 = false ->
  plain script2 = true ->
  NatInstancesPipeline.data
    (create componentYamlContent (script1 ++ "$$" ++ script2)%string)
  = (before
       ++ NatInstancesPipeline.indentedScriptContent (script1 ++ "$" ++ script2)
       ++ after)%string.
Proof.
  intros Hin Hfirst H1 He H2. rewrite (component_data _ _ Hin).
  unfold NatInstancesPipeline.componentContent, Js.replace.
  rewrite (search_complete _ _ _ _ Hfirst). do 2 f_equal.
  rewrite !indented_characters.
  rewrite (indented_append script1 ("$$" ++ script2)).
  rewrite (indented_append script1 ("$" ++ script2)).
  change (indentedAfterLineFeeds ("$$" ++ script2))
    with (String Js.DOLLAR (String Js.DOLLAR (indentedAfterLineFeeds script2))).
  change (indentedAfterLineFeeds ("$" ++ script2))
    with (String Js.DOLLAR (indentedAfterLineFeeds script2)).
  rewrite <- !append_assoc.
  rewrite getSubstitution_double.
  - rewrite getSubstitution_plain; [reflexivity|].
    assert (H' : plain (String Js.SPACE script2) = true) by now rewrite plain_cons.
    apply plain_indented_after in H'. now rewrite plain_cons in H'.
  - rewrite <- indented_characters. apply plain_indented. exact H1.
  - apply endsWith_append; [reflexivity|]. apply endsWith_indented. exact He.
Qed.

Lemma component_document_embeds_the_indented_script_witness :
  NatInstancesPipeline.data
    (NatInstancesPipeline.createEnableNatComponent
       "commands: {{ENABLE_NAT_SCRIPT}} # end"
       "sudo sysctl -w net.ipv4.ip_forward=1 || panic $1")
  = ("commands: "
       ++ NatInstancesPipeline.indentedScriptContent
            "sudo sysctl -w net.ipv4.ip_forward=1 || panic $1"
       ++ " # end")%string.
Proof.
  apply (component_document_embeds_the_indented_script "{{ENABLE_NAT_SCRIPT}}"
           NatInstancesPipeline.createEnableNatComponent
           "commands: {{ENABLE_NAT_SCRIPT}} # end"
           "sudo sysctl -w net.ipv4.ip_forward=1 || panic $1"
           "commands: " " # end").
  - left. reflexivity.
  - apply search_sound. reflexivity.
  - reflexivity.
Defined.

Lemma component_document_without_placeholder_drops_the_script_witness :
  NatInstancesPipeline.data
    (NatInstancesPipeline.createTestNatComponent
       "commands: {{ENABLE_NAT_SCRIPT}} # end" "sudo iptables -t nat -L")
  = "commands: {{ENABLE_NAT_SCRIPT}} # end".
Proof.
  apply (component_document_without_placeholder_drops_the_script
           "{{TEST_NAT_SCRIPT}}" NatInstancesPipeline.createTestNatComponent
           "commands: {{ENABLE_NAT_SCRIPT}} # end" "sudo iptables -t nat -L").
  - right. right. left. reflexivity.
  - apply search_none. reflexivity.
Defined.

Lemma component_document_halves_a_doubled_dollar_witness :
  NatInstancesPipeline.data
    (NatInstancesPipeline.createHardenNatComponent
       "commands: {{HARDEN_NAT_SCRIPT}}" ("echo pid " ++ "$$" ++ " > /run/nat.pid"))
  = ("commands: "
       ++ NatInstancesPipeline.indentedScriptContent
            ("echo pid " ++ "$" ++ " > /run/nat.pid")
       ++ "")%string.
Proof.
  apply (component_document_halves_a_doubled_dollar "{{HARDEN_NAT_SCRIPT}}"
           NatInstancesPipeline.createHardenNatComponent
           "commands: {{HARDEN_NAT_SCRIPT}}" "commands: " ""
           "echo pid " " > /run/nat.pid").
  - right. left. reflexivity.
  - apply search_sound. reflexivity.
  - reflexivity.
  - reflexivity.
  - reflexivity.
Defined.

(** ** What every run keeps *)

Lemma exec_rule (E : Env) (Safe : list Event -> Prop)
  (I : Execution -> list (string * State) -> string -> json -> list Event -> Prop) :
  (forall self : Run,
      (forall X g cur input tr clock,
          Safe tr -> I X g cur input tr ->
          Safe (fst (fst (self X g cur input tr clock)))) ->
      forall X g cur input tr clock,
        Safe tr -> I X g cur input tr ->
        Safe (fst (fst (step self E X g cur input tr clock)))) ->
  forall n X g cur input tr clock,
    Safe tr -> I X g cur input tr ->
    Safe (fst (fst (exec n E X g cur input tr clock))).
Proof.
  intros Hstep. induction n as [|n IH]; intros X g cur input tr clock HS HI.
  - rewrite exec_0. exact HS.
  - rewrite exec_S. apply Hstep; assumption.
Qed.

Lemma drain_rule (Safe : list Event -> Prop) (jobs : list Job) :
  Forall (fun job : Job => forall tr c, Safe tr -> Safe (fst (fst (job tr c)))) jobs ->
  forall tr slots clock,
    Safe tr -> Safe (fst (drain jobs tr slots clock)).
Proof.
  induction 1 as [|job jobs Hjob _ IH]; intros tr slots clock HS.
  - exact HS.
  - cbn [drain]. specialize (Hjob tr (earliest slots) HS).
    destruct (job tr (earliest slots)) as [[tr' finish] [out|e c| | |s]]; cbn in Hjob.
    + apply IH. exact Hjob.
    + destruct (hold _ _); [exact Hjob|apply IH; exact Hjob].
    + exact Hjob.
    + exact Hjob.
    + destruct (hold _ _); [exact Hjob|apply IH; exact Hjob].
Qed.

Lemma join_rule (Safe : list Event -> Prop) (ff : bool) (jobs : list Job) :
  Forall (fun job : Job => forall tr c, Safe tr -> Safe (fst (fst (job tr c)))) jobs ->
  forall tr slots failure outs,
    Safe tr -> Safe (fst (fst (join ff jobs tr slots failure outs))).
Proof.
  induction 1 as [|job jobs Hjob Hjobs IH]; intros tr slots failure outs HS.
  - exact HS.
  - cbn [join]. specialize (Hjob tr (earliest slots) HS).
    destruct (job tr (earliest slots)) as [[tr' finish] [out|e c| | |s]]; cbn in Hjob.
    + apply IH. exact Hjob.
    + destruct ff; [exact Hjob|apply IH; exact Hjob].
    + exact Hjob.
    + exact Hjob.
    + destruct ff; [exact Hjob|].
      destruct (hold _ _) as [|s0 free]; [exact Hjob|].
      pose proof (drain_rule Safe jobs Hjobs tr' (s0 :: free) finish Hjob) as Hd.
      destruct (drain _ _ _ _) as [tr2 clock2]. exact Hd.
Qed.

Lemma builds_app (a b : list Event) : builds (a ++ b) = builds a ++ builds b.
Proof. unfold builds. rewrite calls_app, filter_app. reflexivity. Qed.

Lemma find_state_In (cur : string) (g : list (string * State)) (s : State) :
  find_state cur g = Some s -> In (cur, s) g.
Proof.
  induction g as [|[n s'] g IH]; cbn; [discriminate|].
  destruct (String.eqb_spec cur n) as [->|_].
  - intros [= ->]. left. reflexivity.
  - intros H. right. auto.
Qed.

Section Lawful.
Variable E : Env.
Variables (region account securityGroupId imagePipelineArn : string).
Variable azs : list AzConfiguration.

Lemma benign (tr : list Event) (c : Call) :
  is_terminate c = false -> is_launch c = false ->
  String.eqb (action_of c) "replaceRoute" = false -> is_build c = false ->
  call_allowed azs tr c.
Proof.
  intros H1 H2 H3 H4. split; [congruence|]. split; [congruence|].
  split; [|congruence]. intros H. rewrite H in H3. discriminate.
Qed.

Ltac states_of F :=
  cbn in F;
  repeat (destruct F as [F|F]; [injection F as <- <-|]);
  try (destruct F).

(** The history so far is lawful. *)
Ltac lawfully HS :=
  first [assumption
        |apply lawful_entered; lawfully HS
        |apply lawful_ended; lawfully HS
        |apply lawful_called; [lawfully HS|try (apply benign; reflexivity)]
        |apply lawful_started; [lawfully HS|]].

(** A child execution keeps the history lawful when its start is allowed. *)
Ltac starting self Hself HS :=
  match goal with
  | |- context [match self ?X' ?g' ?c' ?i' ?t' ?k' with _ => _ end] =>
      let H := fresh "Hc" in
      assert (H : lawful azs (fst (fst (self X' g' c' i' t' k'))));
      [apply Hself; [lawfully HS|]
      |destruct (self X' g' c' i' t' k') as [[tr1 clock1] [out|e c| | |rt]];
       cbn [fst snd] in H]
  end.

(** Down to the next states. *)
Ltac scrutinee x :=
  lazymatch x with
  | match ?y with _ => _ end => scrutinee y
  | _ => let H := fresh "Hx" in destruct x eqn:H
  end.

Ltac crunch :=
  lazymatch goal with
  | |- lawful _ (fst (fst (_, _, _))) => cbn [fst]
  | |- lawful _ (fst (fst (match ?x with _ => _ end))) =>
      scrutinee x; cbv beta iota; crunch
  | |- _ => idtac
  end.

Ltac fanning HS :=
  match goal with
  | |- context [fan_out ?ff ?mc ?jobs ?t ?c] =>
      let H := fresh "Hj" in
      assert (H : lawful azs (fst (fst (fan_out ff mc jobs t c))));
      [unfold fan_out; apply join_rule; [|lawfully HS]
      |destruct (fan_out ff mc jobs t c) as [[tr1 clock1] [outs|e c0|o]];
       cbn [fst snd] in H; cbn -[at_path task_output fan_out]]
  end.

(** The next state is a point of one of the graphs. *)
Ltac point :=
  first [apply in_replace; first [assumption|reflexivity]
        |apply in_terminate_branch
        |apply in_terminate_item; let Hq := fresh in intros Hq; discriminate Hq
        |apply in_create_branch; first [assumption|reflexivity]
        |apply in_create_item; first [assumption|reflexivity]
        |apply in_failover; let Hq := fresh in intros Hq; discriminate Hq
        |apply in_fallback
        |apply in_fallback_item; let Hq := fresh in intros Hq; discriminate Hq
        |apply in_maintenance;
         [let Hq := fresh in intros [Hq|[Hq|Hq]]; discriminate Hq
         |let Hq := fresh in intros Hq; discriminate Hq..]].

(** The premises of a point of Maintenance that do not apply. *)
Ltac elsewhere :=
  let Hq := fresh in
  intros Hq; try (destruct Hq as [Hq|[Hq|Hq]]); try discriminate Hq.

Ltac onward Hself HS :=
  cbv beta iota; crunch;
  first [lawfully HS|apply Hself; [lawfully HS|try point]].

Lemma step_lawful (self : Run) :
  (forall X g cur input tr clock,
      lawful azs tr ->
      at_point region account securityGroupId imagePipelineArn azs X g cur input tr ->
      lawful azs (fst (fst (self X g cur input tr clock)))) ->
  forall X g cur input tr clock,
    lawful azs tr ->
    at_point region account securityGroupId imagePipelineArn azs X g cur input tr ->
    lawful azs (fst (fst (step self E X g cur input tr clock))).
Proof.
  intros Hself X g cur input tr clock HS HI.
  unfold step. destruct (expired (deadline X) clock); [exact HS|].
  destruct (find_state cur g) as [s|] eqn:F; [|exact HS].
  apply find_state_In in F.
  destruct HI as [X cur input tr H0 H1 H2 H3|X cur input tr HX|X cur input tr
                 |X cur input tr H1|X cur input tr HX|X cur input tr HX
                 |X cur input tr Hin|X cur z tr Hz|X cur input tr
                 |X cur input tr H1 H2].
  7: { (* Failover *)
       states_of F.
       - cbn. apply Hself; [lawfully HS|]. constructor. reflexivity.
       - rewrite (Hin eq_refl). cbn. fanning HS.
         + apply Forall_map, Forall_map, Forall_forall. intros z Hz tr' c' HS'.
           apply Hself; [exact HS'|]. apply in_failover_item. exact Hz.
         + exact Hj.
         + apply Hself; [exact Hj|]. constructor. discriminate.
         + exact Hj.
       - cbn. lawfully HS. }
  7: { (* the item of Failover *)
       states_of F. cbn -[task_output]. crunch; lawfully HS;
         (split; [intros H; discriminate H|]);
         (split; [intros H; discriminate H|]);
         (split; [|intros H; discriminate H]);
         intros _; exists z; (split; [exact Hz|left; reflexivity]). }
  7: { (* Fallback *)
       states_of F.
       - cbn -[at_path task_output]. crunch;
           (apply Hself; [lawfully HS|apply in_fallback]).
       - cbn -[at_path task_output].
         destruct (match at_path input [] with
                   | Some eff => at_path eff [Key "NatInstances"; Key "Reservations"]
                   | None => None
                   end) as [[| | | |items|]|];
           try (cbn [fst]; lawfully HS).
         fanning HS.
         + apply Forall_map, Forall_forall. intros item _ tr' c' HS'.
           apply Hself; [exact HS'|]. apply in_fallback_item; discriminate.
         + exact Hj.
         + apply Hself; [exact Hj|apply in_fallback].
         + exact Hj.
       - cbn. lawfully HS. }
  7: { (* the item of Fallback *)
       states_of F.
       - cbn -[at_path].
         destruct (at_path input [Key "Instances"; Idx 0; Key "InstanceId"]) as [i|];
           [|lawfully HS].
         destruct (at_path input [Key "Instances"; Idx 0; Key "SubnetId"]) as [sn|];
           [|lawfully HS].
         apply Hself; [lawfully HS|].
         apply in_fallback_item; [|discriminate]. intros _. exists i, sn. reflexivity.
       - destruct (H1 eq_refl) as (i & sn & ->). cbn -[filter].
         unfold at_path. cbn -[filter].
         rewrite filter_zones with (s := sn) by reflexivity.
         apply Hself; [lawfully HS|].
         apply in_fallback_item; [discriminate|]. intros _.
         exists i, (filter (in_subnet sn) azs). split; [reflexivity|].
         intros z Hz. apply filter_In in Hz. tauto.
       - destruct (H2 eq_refl) as (i & zs & -> & Hzs).
         destruct zs as [|z zs]; cbn; [lawfully HS|].
         crunch; lawfully HS;
           (split; [intros H; discriminate H|]);
           (split; [intros H; discriminate H|]);
           (split; [|intros H; discriminate H]);
           intros _; exists z; (split; [apply Hzs; left; reflexivity|]);
           right; exists i; reflexivity. }
  2: { (* ReplaceInstance *)
       states_of F.
       all: cbn -[at_path task_output fan_out].
       all: try (starting self Hself HS;
                 [split; intros Hq; discriminate Hq|point|..]).
       all: try (fanning HS;
                 [apply Forall_cons; [|apply Forall_cons; [|apply Forall_nil]];
                  intros tr' c' HS'; (apply Hself; [exact HS'|point])| | |]).
       all: crunch.
       all: onward Hself HS. }
  2: { (* the branch that terminates *)
       states_of F.
       all: cbn -[at_path task_output fan_out].
       all: try (destruct (match at_path input [] with
                   | Some eff => at_path eff [Key "NatInstances"; Key "Reservations"]
                   | None => None
                   end) as [[| | | |items|]|]).
       all: try (fanning HS;
                 [apply Forall_map, Forall_forall; intros item _ tr' c' HS';
                  apply Hself; [exact HS'|point]| | |]).
       all: crunch.
       all: onward Hself HS. }
  2: { (* an instance to terminate *)
       states_of F.
       - cbn -[at_path task_output fan_out].
         destruct (at_path input [Key "Instances"; Idx 0; Key "InstanceId"])
           as [i|] eqn:Hi; [|lawfully HS].
         change (AwsSdk _ _ _) with (unprotect i).
         destruct (provider E _ (unprotect i)) as [raw|e c] eqn:P1; [|lawfully HS].
         destruct (task_output _ _ _ _ _ _) as [out|] eqn:Hout; [|lawfully HS].
         apply Hself; [lawfully HS|]. apply in_terminate_item. intros _.
         exists i, (tr ++ [StateEntered clock "DisableTerminationProtectionTask"]),
           clock, "DisableTerminationProtectionTask", raw.
         split; [|reflexivity].
         unfold task_output in Hout. cbn in Hout.
         destruct input as [| | | | |o]; try discriminate Hout.
         injection Hout as <-. unfold first_id. rewrite first_id_kept. exact Hi.
       - destruct (H1 eq_refl) as (i & pre & t & s & raw & Hi & ->).
         unfold first_id in Hi. cbn -[at_path task_output fan_out]. rewrite Hi.
         change (AwsSdk _ _ _) with (terminate i).
         assert (Hc : call_allowed azs
                        ((pre ++ [TaskCalled t s (unprotect i) (Ok raw)])
                           ++ [StateEntered clock "TerminateOldInstanceTask"])
                        (terminate i)).
         { split; [|split; [|split]; intros Hq; discriminate Hq].
           intros _. exists i, pre, t, s, raw, clock, "TerminateOldInstanceTask".
           split; [reflexivity|]. rewrite <- app_assoc. reflexivity. }
         crunch; (apply lawful_called; [lawfully HS|exact Hc]). }
  2: { (* the branch that creates *)
       states_of F.
       all: cbn -[at_path task_output fan_out].
       all: try (destruct (match at_path input [] with
                   | Some eff => at_path eff [Key "azConfigurations"]
                   | None => None
                   end) as [[| | | |items|]|]).
       all: try (fanning HS;
                 [apply Forall_map, Forall_forall; intros item _ tr' c' HS';
                  apply Hself; [exact HS'|point]| | |]).
       all: crunch.
       all: onward Hself HS. }
  2: { (* an instance to create *)
       states_of F.
       2: { (* RunNatInstanceTask *)
            cbn -[task_output fan_out]. crunch.
            all: try (onward Hself HS).
            all: (split; [intros Hq; discriminate Hq|]);
                 (split; [intros _; rewrite HX; reflexivity
                         |split; intros Hq; discriminate Hq]). }
       all: cbn -[at_path task_output fan_out].
       all: crunch.
       all: onward Hself HS. }
  (* Maintenance *)
  states_of F.
  1, 2: specialize (H0 ltac:(auto));
        cbn -[at_path task_output fan_out]; crunch;
        first [lawfully HS
              |apply Hself;
               [lawfully HS
               |apply in_maintenance;
                [intros _; rewrite !builds_app, H0; reflexivity|elsewhere..]]].
  1: { (* TriggerImagePipelineTask *)
       specialize (H0 ltac:(auto)).
       cbn -[at_path task_output fan_out]. crunch.
       all: first [lawfully HS|apply Hself; [lawfully HS|point]].
       all: (split; [intros Hq; discriminate Hq|]);
            (split; [intros Hq; discriminate Hq|]);
            (split; [intros Hq; discriminate Hq|]);
            intros _; rewrite builds_app, H0; reflexivity. }
  2: { (* GetImagePipelineStatusTask *)
       cbn -[at_path task_output fan_out].
       match goal with
       | |- context [provider E ?h ?c] =>
           destruct (provider E h c) as [raw|e c0] eqn:P; cbv beta iota
       end.
       2: { onward Hself HS. }
       destruct (task_output _ _ _ _ _ _) as [out|] eqn:Hout; [|onward Hself HS].
       apply Hself; [lawfully HS|].
       apply in_maintenance; elsewhere.
       eexists _, _, _, _, raw. split; [reflexivity|]. split; [reflexivity|].
       unfold task_output in Hout. cbn -[at_path] in Hout. unfold pipeline_status.
       destruct (at_path raw _) as [v|]; [|discriminate Hout].
       injection Hout as <-. reflexivity. }
  2: { (* Finished? *)
       destruct (H1 eq_refl) as (pre & t & s & c & raw & -> & Hact & Hst).
       cbn -[at_path]. rewrite Hst.
       destruct (pipeline_status raw) as [[| | |v| |]|] eqn:Hraw.
       1-3, 5-7: first [lawfully HS|apply Hself; [lawfully HS|point]].
       destruct (String.eqb v "FAILED"); [onward Hself HS|].
       destruct (String.eqb_spec v "AVAILABLE") as [->|_]; cbn [negb];
         [|onward Hself HS].
       apply Hself; [lawfully HS|].
       apply in_maintenance; elsewhere.
       exists pre, t, s, c, raw, clock, "Finished?".
       split; [rewrite <- app_assoc; reflexivity|]. split; assumption. }
  3: { (* TriggerReplaceInstances *)
       destruct (H2 eq_refl) as (pre & t & s & poll & raw & t2 & s2 & -> & Hact & Hst).
       cbn -[at_path task_output fan_out].
       starting self Hself HS;
         [split; intros Hq; [|discriminate Hq];
          exists pre, t, s, poll, raw, t2, s2, clock, "TriggerReplaceInstances";
          split; [rewrite <- app_assoc; reflexivity|split; assumption]
         |point|..].
       all: crunch.
       all: try (onward Hself HS).
       apply in_maintenance; elsewhere.
       eexists _, _, _. reflexivity. }
  3: { (* TriggerFallback *)
       destruct (H3 eq_refl) as (pre & t & done & ->).
       cbn -[at_path task_output fan_out].
       starting self Hself HS;
         [split; intros Hq; [discriminate Hq|];
          exists pre, t, done, clock, "TriggerFallback";
          rewrite <- app_assoc; reflexivity
         |point|..].
       all: crunch.
       all: onward Hself HS. }
  all: cbn -[at_path task_output fan_out].
  all: crunch.
  all: onward Hself HS.
Qed.
Lemma workflow_lawful (fuel : nat) (m : StateMachine) (input : json) (clock : nat) :
  In m (workflows region account securityGroupId imagePipelineArn azs) ->
  lawful azs (fst (fst (start_execution fuel E m input [] clock))).
Proof.
  intros Hm. unfold start_execution.
  match goal with
  | |- context [exec fuel E ?X ?g ?cur input ?tr clock] =>
      assert (H : lawful azs (fst (fst (exec fuel E X g cur input tr clock))));
      [apply (exec_rule E (lawful azs)
                (at_point region account securityGroupId imagePipelineArn azs)
                step_lawful);
       [apply lawful_first|]
      |destruct (exec fuel E X g cur input tr clock) as [[tr1 clock1] [out|e c| | |rt]];
       cbn [fst snd] in H |- *; lawfully H]
  end.
  destruct Hm as [<-|[<-|[<-|[<-|[]]]]]; try point.
  apply in_maintenance; [intros _; reflexivity|elsewhere..].
Qed.

End Lawful.

Lemma snoc_cases (tr : list Event) (e : Event) (pre : list Event) (x : Event)
  (post : list Event) :
  tr ++ [e] = pre ++ x :: post ->
  (tr = pre /\ e = x /\ post = [])
  \/ (exists q, tr = pre ++ x :: q /\ post = q ++ [e]).
Proof.
  intros H. destruct (app_eq_cases _ _ _ _ _ H) as [(q & -> & ->)|(q & -> & Hq)].
  - right. exists q. auto.
  - destruct q as [|y q]; cbn in Hq.
    + injection Hq as <- <-. left. rewrite app_nil_r. auto.
    + injection Hq as _ Hq. destruct q; discriminate Hq.
Qed.

Lemma lawful_call (azs : list AzConfiguration) (tr : list Event) :
  lawful azs tr ->
  forall pre t s c res post,
    tr = pre ++ TaskCalled t s c res :: post -> call_allowed azs pre c.
Proof.
  induction 1 as [t0 m|tr t0 s0 _ IH|tr t0 s0 c0 res0 _ IH Hc|tr t0 m _ IH Hm
                 |tr t0 m st _ IH];
    intros pre t s c res post Heq.
  - destruct pre as [|x [|y pre]]; discriminate Heq.
  - destruct (snoc_cases _ _ _ _ _ Heq) as [(_ & Hx & _)|(q & -> & _)];
      [discriminate Hx|eapply IH; reflexivity].
  - destruct (snoc_cases _ _ _ _ _ Heq) as [(-> & Hx & _)|(q & -> & _)];
      [injection Hx as _ _ <- _; exact Hc|eapply IH; reflexivity].
  - destruct (snoc_cases _ _ _ _ _ Heq) as [(_ & Hx & _)|(q & -> & _)];
      [discriminate Hx|eapply IH; reflexivity].
  - destruct (snoc_cases _ _ _ _ _ Heq) as [(_ & Hx & _)|(q & -> & _)];
      [discriminate Hx|eapply IH; reflexivity].
Qed.

Lemma lawful_start (azs : list AzConfiguration) (tr : list Event) :
  lawful azs tr ->
  forall pre t m post,
    tr = pre ++ ExecutionStarted t m :: post -> pre = [] \/ start_allowed pre m.
Proof.
  induction 1 as [t0 m0|tr t0 s0 _ IH|tr t0 s0 c0 res0 _ IH Hc|tr t0 m0 _ IH Hm
                 |tr t0 m0 st _ IH];
    intros pre t m post Heq.
  - destruct pre as [|x [|y pre]]; [left; reflexivity|discriminate Heq..].
  - destruct (snoc_cases _ _ _ _ _ Heq) as [(_ & Hx & _)|(q & -> & _)];
      [discriminate Hx|eapply IH; reflexivity].
  - destruct (snoc_cases _ _ _ _ _ Heq) as [(_ & Hx & _)|(q & -> & _)];
      [discriminate Hx|eapply IH; reflexivity].
  - destruct (snoc_cases _ _ _ _ _ Heq) as [(-> & Hx & _)|(q & -> & _)];
      [injection Hx as _ <-; right; exact Hm|eapply IH; reflexivity].
  - destruct (snoc_cases _ _ _ _ _ Heq) as [(_ & Hx & _)|(q & -> & _)];
      [discriminate Hx|eapply IH; reflexivity].
Qed.

(** ** Safety of the four workflows *)

(** X8. In a run of any of the four workflows, whatever the providers
    answer and whatever the input, a [terminateInstances] call names
    one instance, and an earlier call of the run lifted the
    termination protection of that instance and was answered without
    error. *)
Theorem terminations_follow_a_lifted_protection
  (E : Env) (region account securityGroupId imagePipelineArn : string)
  (azs : list AzConfiguration) (fuel : nat) (m : StateMachine) (input : json)
  (clock : nat) (pre : list Event) (t : nat) (s : string) (c : Call)
  (res : Result) (post : list Event) :
  In m (workflows region account securityGroupId imagePipelineArn azs) ->
  fst (fst (start_execution fuel E m input [] clock))
  = pre ++ TaskCalled t s c res :: post ->
  action_of c = "terminateInstances" ->
  exists i t1 s1 raw,
    c = terminate i /\ In (TaskCalled t1 s1 (unprotect i) (Ok raw)) pre.
Proof.
  intros Hm Htr Hc.
  pose proof (workflow_lawful E region account securityGroupId imagePipelineArn
                azs fuel m input clock Hm) as HL.
  destruct (lawful_call azs _ HL _ _ _ _ _ _ Htr) as (Hterm & _ & _).
  destruct Hterm as (i & before & t1 & s1 & raw & t2 & s2 & -> & ->).
  { unfold is_terminate. rewrite Hc. reflexivity. }
  exists i, t1, s1, raw. split; [reflexivity|].
  apply in_or_app. right. left. reflexivity.
Qed.

Lemma terminations_follow_a_lifted_protection_witness :
  exists i t1 s1 raw,
    terminate (JStr "i-1") = terminate i
    /\ In (TaskCalled t1 s1 (unprotect i) (Ok raw))
         (firstn 34 (fst (fst maintenance_of_two))).
Proof.
  apply (terminations_follow_a_lifted_protection
           (Example.world Example.two_instances "AVAILABLE" true)
           "eu-west-1" "123456789012" "sg-nat" "arn:pipeline" Example.zones 60
           (maintenanceStateMachine "eu-west-1" "123456789012" "sg-nat"
              "arn:pipeline" Example.zones)
           (JObj []) 0 (firstn 34 (fst (fst maintenance_of_two))) 600
           "TerminateOldInstanceTask" (terminate (JStr "i-1")) (Ok (JObj []))
           (skipn 35 (fst (fst maintenance_of_two)))).
  - right. right. right. left. reflexivity.
  - vm_compute. reflexivity.
  - reflexivity.
Defined.

(** X9. In a run of any of the four workflows, the instance a
    [runInstances] call launches carries the tags by which
    [describe_instances] filters: the listing that ReplaceInstance and
    Fallback make finds the instances the workflows launched. *)
Theorem launched_instances_are_found_by_the_listing
  (E : Env) (region account securityGroupId imagePipelineArn : string)
  (azs : list AzConfiguration) (fuel : nat) (m : StateMachine) (input : json)
  (clock : nat) (pre : list Event) (t : nat) (s : string) (c : Call)
  (res : Result) (post : list Event) :
  In m (workflows region account securityGroupId imagePipelineArn azs) ->
  fst (fst (start_execution fuel E m input [] clock))
  = pre ++ TaskCalled t s c res :: post ->
  action_of c = "runInstances" ->
  found_by describe_instances c = true
  /\ resource_of "GetNatInstancesTask"
       (replaceGraph region account securityGroupId azs)
     = Some (CallAwsService "ec2" "describeInstances"
               (TLit (parameters_of describe_instances)))
  /\ resource_of "GetRunningNatInstancesTask" (fallbackGraph azs)
     = Some (CallAwsService "ec2" "describeInstances"
               (TLit (parameters_of describe_instances))).
Proof.
  intros Hm Htr Hc.
  pose proof (workflow_lawful E region account securityGroupId imagePipelineArn
                azs fuel m input clock Hm) as HL.
  destruct (lawful_call azs _ HL _ _ _ _ _ _ Htr) as (_ & Hlaunch & _).
  split; [|split; reflexivity].
  apply Hlaunch. unfold is_launch. rewrite Hc. reflexivity.
Qed.

Lemma launched_instances_are_found_by_the_listing_witness :
  found_by describe_instances (call_at 44 (fst (fst maintenance_of_two))) = true.
Proof.
  apply (launched_instances_are_found_by_the_listing
           (Example.world Example.two_instances "AVAILABLE" true)
           "eu-west-1" "123456789012" "sg-nat" "arn:pipeline" Example.zones 60
           (maintenanceStateMachine "eu-west-1" "123456789012" "sg-nat"
              "arn:pipeline" Example.zones)
           (JObj []) 0 (firstn 44 (fst (fst maintenance_of_two))) 600
           "RunNatInstanceTask" (call_at 44 (fst (fst maintenance_of_two)))
           (Ok (JObj [("Instances", JArr [JObj [("InstanceId", JStr "i-new")]])]))
           (skipn 45 (fst (fst maintenance_of_two)))).
  - right. right. right. left. reflexivity.
  - vm_compute. reflexivity.
  - vm_compute. reflexivity.
Defined.

(** X10. In a run of Maintenance, ReplaceInstance is started only
    right after the image pipeline was found available: the three
    events before the start are an answer to [listImageBuildVersions]
    whose first image summary has status AVAILABLE, and the entries of
    two states. *)
Theorem maintenance_replaces_only_after_an_available_image
  (E : Env) (region account securityGroupId imagePipelineArn : string)
  (azs : list AzConfiguration) (fuel : nat) (input : json) (clock : nat)
  (pre : list Event) (t : nat) (post : list Event) :
  fst (fst (start_execution fuel E
              (maintenanceStateMachine region account securityGroupId
                 imagePipelineArn azs) input [] clock))
  = pre ++ ExecutionStarted t "NATInstanceReplaceInstance" :: post ->
  exists before t1 s1 c raw t2 s2 t3 s3,
    pre = before ++ [TaskCalled t1 s1 c (Ok raw); StateEntered t2 s2;
                     StateEntered t3 s3]
    /\ action_of c = "listImageBuildVersions"
    /\ pipeline_status raw = Some (JStr "AVAILABLE").
Proof.
  intros Htr.
  assert (Hm : In (maintenanceStateMachine region account securityGroupId
                     imagePipelineArn azs)
                  (workflows region account securityGroupId imagePipelineArn azs)).
  { right. right. right. left. reflexivity. }
  pose proof (workflow_lawful E region account securityGroupId imagePipelineArn
                azs fuel _ input clock Hm) as HL.
  destruct (lawful_start azs _ HL _ _ _ _ Htr) as [->|(Hstart & _)].
  - exfalso. revert Htr. unfold start_execution.
    match goal with
    | |- context [exec fuel E ?X ?g ?cur input ?tr clock] =>
        destruct (exec_grows fuel E X g cur input tr clock) as (d & Hd);
        destruct (exec fuel E X g cur input tr clock) as [[tr1 clock1] o]
    end.
    cbn [fst snd] in Hd. subst tr1.
    destruct o; cbn; intros Htr; discriminate Htr.
  - exact (Hstart eq_refl).
Qed.

Lemma maintenance_replaces_only_after_an_available_image_witness :
  exists before t1 s1 c raw t2 s2 t3 s3,
    firstn 11 (fst (fst maintenance_of_two))
    = before ++ [TaskCalled t1 s1 c (Ok raw); StateEntered t2 s2;
                 StateEntered t3 s3]
    /\ action_of c = "listImageBuildVersions"
    /\ pipeline_status raw = Some (JStr "AVAILABLE").
Proof.
  apply (maintenance_replaces_only_after_an_available_image
           (Example.world Example.two_instances "AVAILABLE" true)
           "eu-west-1" "123456789012" "sg-nat" "arn:pipeline" Example.zones 60
           (JObj []) 0 (firstn 11 (fst (fst maintenance_of_two))) 600
           (skipn 12 (fst (fst maintenance_of_two)))).
  vm_compute. reflexivity.
Defined.

(** X11. In a run of Maintenance, Fallback is started only right
    after ReplaceInstance succeeded: the two events before the start
    are the end of an execution of ReplaceInstance with status
    SUCCEEDED and the entry of a state. *)
Theorem maintenance_falls_back_only_after_a_replacement_succeeded
  (E : Env) (region account securityGroupId imagePipelineArn : string)
  (azs : list AzConfiguration) (fuel : nat) (input : json) (clock : nat)
  (pre : list Event) (t : nat) (post : list Event) :
  fst (fst (start_execution fuel E
              (maintenanceStateMachine region account securityGroupId
                 imagePipelineArn azs) input [] clock))
  = pre ++ ExecutionStarted t "NATInstanceFallback" :: post ->
  exists before t1 out t2 s2,
    pre = before ++ [ExecutionEnded t1 "NATInstanceReplaceInstance" (SUCCEEDED out);
                     StateEntered t2 s2].
Proof.
  intros Htr.
  assert (Hm : In (maintenanceStateMachine region account securityGroupId
                     imagePipelineArn azs)
                  (workflows region account securityGroupId imagePipelineArn azs)).
  { right. right. right. left. reflexivity. }
  pose proof (workflow_lawful E region account securityGroupId imagePipelineArn
                azs fuel _ input clock Hm) as HL.
  destruct (lawful_start azs _ HL _ _ _ _ Htr) as [->|(_ & Hstart)].
  - exfalso. revert Htr. unfold start_execution.
    match goal with
    | |- context [exec fuel E ?X ?g ?cur input ?tr clock] =>
        destruct (exec_grows fuel E X g cur input tr clock) as (d & Hd);
        destruct (exec fuel E X g cur input tr clock) as [[tr1 clock1] o]
    end.
    cbn [fst snd] in Hd. subst tr1.
    destruct o; cbn; intros Htr; discriminate Htr.
  - exact (Hstart eq_refl).
Qed.

Lemma maintenance_falls_back_only_after_a_replacement_succeeded_witness :
  exists before t1 out t2 s2,
    firstn 73 (fst (fst maintenance_of_two))
    = before ++ [ExecutionEnded t1 "NATInstanceReplaceInstance" (SUCCEEDED out);
                 StateEntered t2 s2].
Proof.
  apply (maintenance_falls_back_only_after_a_replacement_succeeded
           (Example.world Example.two_instances "AVAILABLE" true)
           "eu-west-1" "123456789012" "sg-nat" "arn:pipeline" Example.zones 60
           (JObj []) 0 (firstn 73 (fst (fst maintenance_of_two))) 610
           (skipn 74 (fst (fst maintenance_of_two)))).
  vm_compute. reflexivity.
Defined.

(** X12. In a run of any of the four workflows, a [replaceRoute]
    call replaces the default route of the private route table of a
    zone of the deployment, either by the NAT gateway of that zone or
    by an instance: no other route table and no other destination is
    touched. *)
Theorem routes_are_replaced_only_in_zones_of_the_deployment
  (E : Env) (region account securityGroupId imagePipelineArn : string)
  (azs : list AzConfiguration) (fuel : nat) (m : StateMachine) (input : json)
  (clock : nat) (pre : list Event) (t : nat) (s : string) (c : Call)
  (res : Result) (post : list Event) :
  In m (workflows region account securityGroupId imagePipelineArn azs) ->
  fst (fst (start_execution fuel E m input [] clock))
  = pre ++ TaskCalled t s c res :: post ->
  action_of c = "replaceRoute" ->
  exists z,
    In z azs
    /\ (c = route_to_gateway z
        \/ exists i, c = route_to_instance (privateRouteTableId z) i).
Proof.
  intros Hm Htr Hc.
  pose proof (workflow_lawful E region account securityGroupId imagePipelineArn
                azs fuel m input clock Hm) as HL.
  destruct (lawful_call azs _ HL _ _ _ _ _ _ Htr) as (_ & _ & Hroute & _).
  exact (Hroute Hc).
Qed.

Lemma routes_are_replaced_only_in_zones_of_the_deployment_witness :
  exists z,
    In z Example.zones
    /\ (route_to_instance "rtb-a" (JStr "i-1") = route_to_gateway z
        \/ exists i,
            route_to_instance "rtb-a" (JStr "i-1")
            = route_to_instance (privateRouteTableId z) i).
Proof.
  apply (routes_are_replaced_only_in_zones_of_the_deployment
           (Example.world Example.two_instances "AVAILABLE" true)
           "eu-west-1" "123456789012" "sg-nat" "arn:pipeline" Example.zones 60
           (maintenanceStateMachine "eu-west-1" "123456789012" "sg-nat"
              "arn:pipeline" Example.zones)
           (JObj []) 0 (firstn 80 (fst (fst maintenance_of_two))) 610
           "ReplaceInstanceRouteTask" (route_to_instance "rtb-a" (JStr "i-1"))
           (Ok (JObj [])) (skipn 81 (fst (fst maintenance_of_two)))).
  - right. right. right. left. reflexivity.
  - vm_compute. reflexivity.
  - reflexivity.
Defined.

Lemma lawful_builds (azs : list AzConfiguration) (tr : list Event) :
  lawful azs tr -> List.length (builds tr) <= 1.
Proof.
  induction 1 as [t m|tr t s _ IH|tr t s c res _ IH Hc|tr t m _ IH _|tr t m st _ IH];
    try (rewrite builds_app, length_app; cbn; lia).
  - cbn. lia.
  - rewrite builds_app. unfold builds at 2. cbn.
    destruct (is_build c) eqn:Hb; [|rewrite app_nil_r; exact IH].
    destruct Hc as (_ & _ & _ & Hnone). rewrite (Hnone Hb). cbn. lia.
Qed.

(** X13. A run of Maintenance triggers the image pipeline at most
    once, whatever the providers answer and whatever the input: its
    history, with those of the ReplaceInstance, Failover and Fallback
    executions it starts, holds at most one
    [startImagePipelineExecution] call. *)
Theorem maintenance_triggers_at_most_one_build
  (E : Env) (region account securityGroupId imagePipelineArn : string)
  (azs : list AzConfiguration) (fuel : nat) (input : json) (clock : nat) :
  List.length
    (builds (fst (fst (start_execution fuel E
                         (maintenanceStateMachine region account securityGroupId
                            imagePipelineArn azs) input [] clock)))) <= 1.
Proof.
  apply (lawful_builds azs).
  apply (workflow_lawful E region account securityGroupId imagePipelineArn).
  right. right. right. left. reflexivity.
Qed.

